(** * OpenClaw Desktop Assistant: conversation engine, execution dispatcher
      and approval workflow

    A shallow embedding of the JavaScript front-end:

    - [src/utils/executionOutput.js]  (report builders, [detectAgentType]);
    - [src/services/openclaw.js]      (shell wrappers and the IPC gateway);
    - [src/services/llm.js]           (class [LLMService]);
    - [AgentPanel.jsx]                ([handleRun], [handleCreate],
                                       [handleDelete], [createDemoAgent],
                                       [loadAgents], [AgentCard]);
    - [LogsPanel.jsx]                 ([handleApproval], [loadData],
                                       [ApprovalQueue], [pendingCount],
                                       [filtered]);
    - [SettingsPanel.jsx]             ([loadSettings], [handleSave],
                                       [handleRemoveKey], [handleRunDoctor]);
    - [SchedulePanel.jsx]             ([calculateNextRun], [cronToText],
                                       [loadData]);
    - [ChatPanel.jsx]                 ([handleSend]);
    - [src/utils/storage.js], [src/utils/formatters.js]
                                      ([getChatTitle], [formatTimeAgo]).

    Conventions.  A JavaScript string is a Rocq [string], read as the byte
    sequence of its UTF-8 encoding; [toLowerCase], [trim] and [length] are
    the ASCII ones, which agree with JavaScript on ASCII text (every
    vocabulary word the code matches against is ASCII).  A value that may be
    [null] or [undefined] is an [option].  An [async] function is a
    computation in the monad [M], which threads the state and carries either
    a result or the thrown value; [await] is sequencing.  What the outside
    world answers (IPC, shell, HTTP, clock) is read from an environment
    [Env], so that every theorem quantifies over all possible answers. *)

From Stdlib Require Import String Ascii List Bool Arith ZArith Lia DecimalString.
From stdpp Require Import gmap strings list.

(* ================================================================== *)
(** * JavaScript strings *)
(* ================================================================== *)

(** The double quote and the line feed, as one-character strings. *)
Definition dq : string := String (ascii_of_nat 34) EmptyString.
Definition nl : string := String (ascii_of_nat 10) EmptyString.

(** [[l1, ..., ln].join("\n")], and a template literal that spans lines. *)
Definition lines (l : list string) : string := String.concat nl l.

(** [String(n)] for a natural number. *)
Definition string_of_nat (n : nat) : string :=
  NilEmpty.string_of_uint (Nat.to_uint n).

Definition string_of_N (n : N) : string :=
  NilEmpty.string_of_uint (N.to_uint n).

Definition lower_ascii (c : ascii) : ascii :=
  let n := nat_of_ascii c in
  if (65 <=? n) && (n <=? 90) then ascii_of_nat (n + 32) else c.

(** [s.toLowerCase()] *)
Fixpoint toLowerCase (s : string) : string :=
  match s with
  | EmptyString => EmptyString
  | String c s' => String (lower_ascii c) (toLowerCase s')
  end.

Definition is_space (c : ascii) : bool :=
  let n := nat_of_ascii c in
  (n =? 32) || ((9 <=? n) && (n <=? 13)).

Fixpoint trimStart (s : string) : string :=
  match s with
  | EmptyString => EmptyString
  | String c s' => if is_space c then trimStart s' else s
  end.

Fixpoint trimEnd (s : string) : string :=
  match s with
  | EmptyString => EmptyString
  | String c s' =>
      match trimEnd s' with
      | EmptyString => if is_space c then EmptyString else String c EmptyString
      | t => String c t
      end
  end.

(** [s.trim()] *)
Definition trim (s : string) : string := trimEnd (trimStart s).

(** [s.includes(search)]: substring containment. *)
Fixpoint includes (s search : string) : bool :=
  String.prefix search s ||
  match s with
  | EmptyString => false
  | String _ s' => includes s' search
  end.

(** [x || d] for a string [x] that may be [null]/[undefined]: the empty
    string is falsy too. *)
Definition or_else (x : option string) (d : string) : string :=
  match x with
  | Some (String c s) => String c s
  | _ => d
  end.

(** Truthiness of a nullable string. *)
Definition truthy (x : option string) : bool :=
  match x with
  | Some (String _ _) => true
  | _ => false
  end.

(** A thrown value: an [Error] object with its message, or the payload a
    rejected promise carries (the IPC layer rejects with a string). *)
Inductive Thrown : Type :=
| ErrorObj (message : string)
| Rejected (payload : string).

(** [`${e.message || e}`] *)
Definition message_or_self (e : Thrown) : string :=
  match e with
  | ErrorObj (String c m) => String c m
  | ErrorObj EmptyString => "Error"
  | Rejected p => p
  end.

(** [err.toString()] *)
Definition toString (e : Thrown) : string :=
  match e with
  | ErrorObj EmptyString => "Error"
  | ErrorObj m => "Error: " +:+ m
  | Rejected p => p
  end.

Definition hex_digit (n : nat) : string :=
  String (ascii_of_nat (if n <? 10 then 48 + n else 87 + n)) EmptyString.

(** The escape [JSON.stringify] writes for one character of a string. *)
Definition json_escape_char (c : ascii) : string :=
  let n := nat_of_ascii c in
  if n =? 34 then "\" +:+ dq
  else if n =? 92 then "\\"
  else if n =? 8 then "\b"
  else if n =? 9 then "\t"
  else if n =? 10 then "\n"
  else if n =? 12 then "\f"
  else if n =? 13 then "\r"
  else if n <? 32 then "\u00" +:+ hex_digit (n / 16) +:+ hex_digit (n mod 16)
  else String c EmptyString.

Fixpoint json_escape (s : string) : string :=
  match s with
  | EmptyString => EmptyString
  | String c s' => json_escape_char c +:+ json_escape s'
  end.

(** [JSON.stringify(s)] for a string [s]. *)
Definition json_string (s : string) : string := dq +:+ json_escape s +:+ dq.

(* ================================================================== *)
(** * Records of the data model *)
(* ================================================================== *)

(** What the agent form, a demo preset or a chat draft holds. *)
Record AgentConfig : Type := {
  name : string;
  role : string;
  goal : string;
  tools : string;          (* comma separated, as in "browser,cron" *)
  schedule : string;
  sandbox : bool
}.

(** A stored agent: the configuration and the identifier the store gave. *)
Module Agent.
Record t : Type := { id : string; config : AgentConfig }.
End Agent.
Coercion Agent.config : Agent.t >-> AgentConfig.

Module Message.
Record t : Type := { role : string; content : string }.
End Message.

Module Log.
Record t : Type := {
  id : nat;
  agent_id : string;
  action : string;
  status : string;
  output : string;
  error : string;
  created_at : string
}.
End Log.

Module Approval.
Record t : Type := {
  id : nat;
  agent_id : string;
  action_type : string;
  content_preview : string;
  status : string;
  created_at : string
}.
End Approval.

(** [JSON.stringify(agent)] for a configuration object. *)
Definition json_agent (a : AgentConfig) : string :=
  "{" +:+ dq +:+ "name" +:+ dq +:+ ":" +:+ json_string (name a) +:+
  "," +:+ dq +:+ "role" +:+ dq +:+ ":" +:+ json_string (role a) +:+
  "," +:+ dq +:+ "goal" +:+ dq +:+ ":" +:+ json_string (goal a) +:+
  "," +:+ dq +:+ "tools" +:+ dq +:+ ":" +:+ json_string (tools a) +:+
  "," +:+ dq +:+ "schedule" +:+ dq +:+ ":" +:+ json_string (schedule a) +:+
  "," +:+ dq +:+ "sandbox" +:+ dq +:+ ":" +:+
  (if sandbox a then "true" else "false") +:+ "}".

(* ================================================================== *)
(** * src/utils/executionOutput.js *)
(* ================================================================== *)

(** Every builder stamps its report with [new Date().toLocaleString()];
    the reading of the clock is the argument [now]. *)

Definition buildTrendingOutput (now : string) : string :=
  lines
    [ "✅ EXECUTION COMPLETE";
      "━━━━━━━━━━━━━━━━━━━━";
      "🔍 Step 1: Searched trending topics on OpenClaw";
      "   → Found: " +:+ dq +:+ "OpenClaw v2.0 Desktop App Launch" +:+ dq;
      "   → Engagement score: 87/100";
      EmptyString;
      "✍️ Step 2: Generated LinkedIn post";
      "   → Title: " +:+ dq +:+ "The Future of No-Code Automation is Here 🦞" +:+ dq;
      "   → Length: 247 words";
      "   → Hashtags: #openclaw #automation #opensource";
      EmptyString;
      "🌐 Step 3: Browser automation — Posted to LinkedIn";
      "   → Status: Published successfully";
      "   → URL: linkedin.com/posts/openclaw-desktop-launch";
      "   → Timestamp: " +:+ now;
      EmptyString;
      "🔄 Next scheduled run: Tomorrow at 9:00 AM" ].

Definition buildHashtagOutput (now : string) : string :=
  lines
    [ "✅ EXECUTION COMPLETE";
      "━━━━━━━━━━━━━━━━━━━━";
      "🔎 Step 1: Searched LinkedIn for #openclaw posts";
      "   → Found 3 matching posts";
      EmptyString;
      "💬 Step 2: Commented on posts via browser automation";
      "   → Post 1: " +:+ dq +:+ "Check out github.com/openclaw — 🦞 automate tasks without CLI!" +:+ dq;
      "   → Post 2: " +:+ dq +:+ "Try the OpenClaw Desktop App for no-code automation! 🚀" +:+ dq;
      "   → Post 3: " +:+ dq +:+ "New to automation? OpenClaw Desktop makes it easy 🎯" +:+ dq;
      EmptyString;
      "📊 Step 3: Results logged";
      "   → Comments posted: 3";
      "   → Timestamp: " +:+ now;
      EmptyString;
      "🔄 Next scheduled run: In 1 hour" ].

Definition buildGenericOutput (action now : string) : string :=
  lines
    [ "✅ EXECUTION COMPLETE";
      "━━━━━━━━━━━━━━━━━━━━";
      "🌐 Browser automation executed successfully";
      "   → Action: " +:+ action;
      "   → Timestamp: " +:+ now ].

Definition buildSandboxOutput (name goal now : string) : string :=
  lines
    [ "🧪 SANDBOX DRY-RUN";
      "━━━━━━━━━━━━━━━━━━";
      "Agent: " +:+ name;
      "Goal: " +:+ goal;
      EmptyString;
      "🔍 Simulated Step 1: Analyzed task requirements";
      "✍️ Simulated Step 2: Would execute browser actions";
      "⏭️ Simulated Step 3: Would post/comment";
      EmptyString;
      "⚠️ No real actions taken — sandbox mode active";
      "Timestamp: " +:+ now ].

Definition buildAutoExecuteOutput (agent : AgentConfig) (now : string) : string :=
  lines
    [ "✅ AUTO-EXECUTED";
      "━━━━━━━━━━━━━━━━";
      "Agent: " +:+ name agent;
      "Role: " +:+ role agent;
      EmptyString;
      "🔍 Step 1: Processed task — " +:+ goal agent;
      "⚡ Step 2: Executed successfully";
      "📊 Step 3: Results logged";
      EmptyString;
      "Timestamp: " +:+ now ].

(** [detectAgentType(text)]; [text] may be [null] or [undefined]. *)
Definition detectAgentType (text : option string) : string :=
  let lower := toLowerCase (or_else text EmptyString) in
  if includes lower "trending" then "trending"
  else if includes lower "hashtag" || includes lower "#openclaw" then "hashtag"
  else "generic".

(* ================================================================== *)
(** * The outside world *)
(* ================================================================== *)

(** What [Command.create(program, args).execute()] (or [.spawn()]) does:
    the process runs and exits with a code, or the shell plugin throws. *)
Inductive ShellOutcome : Type :=
| Exit (code : Z) (stdout stderr : string)
| ShellThrows (err : Thrown).

(** What [fetch] and the decoding of its response do: the request fails
    on the network, the server answers with a non-2xx status, it answers
    2xx with a body that holds the reply text, or it answers 2xx with a
    body the code cannot read the reply from (decoding or the property
    access throws). *)
Inductive HttpOutcome : Type :=
| NetworkFailure (reason : string)
| HttpError (status : nat) (body : string)
| HttpOk (content : string)
| HttpMalformed (reason : string).

(** The answers of the outside world: the clock, the browser's user agent,
    and the outcome of the n-th IPC call ([None]: the promise resolves;
    [Some e]: it rejects with [e]), of the n-th shell command and of the
    n-th HTTP request. *)
Record Env : Type := {
  clock : string;
  userAgent : string;
  ipc : nat -> option Thrown;
  shell : nat -> ShellOutcome;
  http : nat -> HttpOutcome
}.

(** The IPC commands of the backend ([invoke(name, args)]). *)
Inductive Command : Type :=
| create_agent (data : AgentConfig)
| list_agents
| delete_agent (id : string)
| add_log (agentId action status output error : string)
| get_logs (limit : nat)
| get_setting (key : string)
| set_setting (key value : string)
| delete_setting (key : string)
| add_approval (agentId actionType contentPreview : string)
| update_approval (id : nat) (status : string)
| get_approvals.

(** What the program does to the outside world, in order. *)
Inductive Event : Type :=
| EInvoke (c : Command) (resolved : bool)
| EShell (program : string) (args : list string)
| EFetch (url model : string) (messages : list Message.t)
| EDelay (ms : N).

(** The tables of the local database. *)
Record Db : Type := {
  settings : gmap string string;
  agents : list Agent.t;
  logs : list Log.t;
  approvals : list Approval.t
}.

(** The world a computation runs in: the environment (never written), the
    database, how many IPC, shell and HTTP calls were made so far, and the
    trace of events. *)
Record World : Type := {
  env : Env;
  db : Db;
  n_ipc : nat;
  n_shell : nat;
  n_http : nat;
  trace : list Event
}.

Definition emit (e : Event) (w : World) : World :=
  {| env := env w; db := db w; n_ipc := n_ipc w; n_shell := n_shell w;
     n_http := n_http w; trace := trace w ++ [e] |}.

Definition ipc_done (c : Command) (resolved : bool) (d : Db) (w : World) : World :=
  {| env := env w; db := d; n_ipc := S (n_ipc w); n_shell := n_shell w;
     n_http := n_http w; trace := trace w ++ [EInvoke c resolved] |}.

Definition shell_done (program : string) (args : list string) (w : World) : World :=
  {| env := env w; db := db w; n_ipc := n_ipc w; n_shell := S (n_shell w);
     n_http := n_http w; trace := trace w ++ [EShell program args] |}.

Definition http_done (url model : string) (messages : list Message.t) (w : World) : World :=
  {| env := env w; db := db w; n_ipc := n_ipc w; n_shell := n_shell w;
     n_http := S (n_http w); trace := trace w ++ [EFetch url model messages] |}.

(* ================================================================== *)
(** * Asynchronous computations *)
(* ================================================================== *)

(** How a call ends: it returns a value or it throws. *)
Inductive Res (A : Type) : Type :=
| Ok (a : A)
| Throw (e : Thrown).
Arguments Ok {A} a.
Arguments Throw {A} e.

(** A computation over a state [S]; the state reached is returned in both
    cases, since what was written before a [throw] stays written. *)
Definition M (S A : Type) : Type := S -> Res A * S.

Definition ret {S A : Type} (a : A) : M S A := fun s => (Ok a, s).

Definition throw {S A : Type} (e : Thrown) : M S A := fun s => (Throw e, s).

Definition bind {S A B : Type} (m : M S A) (k : A -> M S B) : M S B :=
  fun s =>
    match m s with
    | (Ok a, s') => k a s'
    | (Throw e, s') => (Throw e, s')
    end.

(** [try { m } catch (e) { h e }] *)
Definition try_catch {S A : Type} (m : M S A) (h : Thrown -> M S A) : M S A :=
  fun s =>
    match m s with
    | (Ok a, s') => (Ok a, s')
    | (Throw e, s') => h e s'
    end.

Definition get {S : Type} : M S S := fun s => (Ok s, s).

Definition modify {S : Type} (f : S -> S) : M S unit := fun s => (Ok tt, f s).

Declare Scope js_scope.
Delimit Scope js_scope with js.
Notation "x <- m ;; k" := (bind m (fun x => k))
  (at level 100, m at next level, k at level 200, right associativity) : js_scope.
Notation "m ;; k" := (bind m (fun _ => k))
  (at level 100, k at level 200, right associativity) : js_scope.
Open Scope js_scope.

(* ================================================================== *)
(** * src/services/openclaw.js *)
(* ================================================================== *)

(** ** Shell execution *)

Record CommandResult : Type := {
  success : bool;
  stdout : string;
  stderr : string;
  code : Z
}.

(** [executeCommand(program, args)]: whatever the shell plugin does, the
    caller gets a result object; a throw becomes a failed result. *)
Definition executeCommand (program : string) (args : list string)
  : M World CommandResult :=
  fun w =>
    let w' := shell_done program args w in
    match shell (env w) (n_shell w) with
    | Exit c out err =>
        (Ok {| success := (c =? 0)%Z; stdout := out; stderr := err; code := c |}, w')
    | ShellThrows e =>
        (Ok {| success := false; stdout := EmptyString; stderr := toString e;
               code := (-1)%Z |}, w')
    end.

Definition checkOpenClawInstalled : M World bool :=
  r <- executeCommand "openclaw" ["--version"] ;; ret (success r).

Definition checkNodeInstalled : M World bool :=
  r <- executeCommand "node" ["--version"] ;; ret (success r).

Definition installOpenClaw : M World CommandResult :=
  executeCommand "npm" ["install"; "-g"; "openclaw@latest"].

Definition runOpenClawOnboard : M World CommandResult :=
  executeCommand "openclaw" ["onboard"; "--non-interactive"].

Definition openClawDoctor : M World CommandResult :=
  executeCommand "openclaw" ["doctor"].

(** [startGateway(port = 18789)]: [spawn()] returns a promise that is not
    awaited, so a command the shell plugin refuses rejects that promise
    outside the [try]: the caller is told of a success whatever the shell
    does.  The result object holds [success] only; the other fields of the
    record are left empty. *)
Definition startGateway (port : N) : M World CommandResult :=
  fun w =>
    (Ok {| success := true; stdout := EmptyString; stderr := EmptyString; code := 0%Z |},
     shell_done "openclaw" ["gateway"; "--port"; string_of_N port] w).

(** [detectOS()] *)
Definition detectOS (w : World) : string :=
  let ua := toLowerCase (userAgent (env w)) in
  if includes ua "win" then "windows"
  else if includes ua "mac" then "macos"
  else if includes ua "linux" then "linux"
  else "unknown".

(** ** Database operations

    [invoke(cmd, args)] crosses into the Rust backend.  The promise it
    returns resolves or rejects as the environment says; when it resolves
    the backend has applied the command to the database. *)
Definition invoke {A : Type} (c : Command) (apply : World -> Db -> A * Db)
  : M World A :=
  fun w =>
    match ipc (env w) (n_ipc w) with
    | Some e => (Throw e, ipc_done c false (db w) w)
    | None => let '(a, d) := apply w (db w) in (Ok a, ipc_done c true d w)
    end.

(** Modelled from the spec: the backend behind [create_agent] is not among
    the sources.  Spec 6: [createAgent(config) -> id]; the row stored is the
    configuration under a fresh identifier. *)
Definition db_create_agent (data : AgentConfig) (d : Db) : string * Db :=
  let i := string_of_nat (S (length (agents d))) in
  (i, {| settings := settings d;
         agents := agents d ++ [{| Agent.id := i; Agent.config := data |}];
         logs := logs d; approvals := approvals d |}).

(** Modelled from the spec: the backend behind [add_log] is not among the
    sources.  Spec 3: a LogEntry is [{id, agentId, action, status, output,
    error, createdAt}], append-only, never mutated or deleted. *)
Definition log_row (id : nat) (agentId action status output error now : string) : Log.t :=
  {| Log.id := id; Log.agent_id := agentId; Log.action := action;
     Log.status := status; Log.output := output; Log.error := error;
     Log.created_at := now |}.

Definition db_add_log (agentId action status output error now : string) (d : Db)
  : unit * Db :=
  (tt, {| settings := settings d; agents := agents d;
          logs := logs d ++
                  [log_row (length (logs d)) agentId action status output error now];
          approvals := approvals d |}).

(** Modelled from the spec: the backend behind [add_approval] is not among
    the sources.  Spec 3: an ApprovalItem is [{id, agentId, actionType,
    contentPreview, status, createdAt}], created in [pending]. *)
Definition approval_row (id : nat) (agentId actionType contentPreview now : string)
  : Approval.t :=
  {| Approval.id := id; Approval.agent_id := agentId;
     Approval.action_type := actionType;
     Approval.content_preview := contentPreview;
     Approval.status := "pending"; Approval.created_at := now |}.

Definition db_add_approval (agentId actionType contentPreview now : string) (d : Db)
  : nat * Db :=
  (length (approvals d),
   {| settings := settings d; agents := agents d; logs := logs d;
      approvals := approvals d ++
                   [approval_row (length (approvals d)) agentId actionType
                                 contentPreview now] |}).

Definition set_status (st : string) (a : Approval.t) : Approval.t :=
  {| Approval.id := Approval.id a; Approval.agent_id := Approval.agent_id a;
     Approval.action_type := Approval.action_type a;
     Approval.content_preview := Approval.content_preview a;
     Approval.status := st; Approval.created_at := Approval.created_at a |}.

(** Modelled from the spec: the backend behind [update_approval] is not
    among the sources.  Spec 6: [updateApproval(id, status)]; spec 5: the
    store does no compare-and-set, so the row's status is overwritten
    whatever it was. *)
Definition db_update_approval (i : nat) (st : string) (d : Db) : unit * Db :=
  (tt, {| settings := settings d; agents := agents d; logs := logs d;
          approvals := map (fun a => if Approval.id a =? i then set_status st a else a)
                           (approvals d) |}).

(** Modelled from the spec: the settings table behind [get_setting],
    [set_setting] and [delete_setting] is a flat key-value store (spec 3). *)
Definition db_set_setting (key value : string) (d : Db) : unit * Db :=
  (tt, {| settings := <[key := value]> (settings d); agents := agents d;
          logs := logs d; approvals := approvals d |}).

Definition db_delete_setting (key : string) (d : Db) : unit * Db :=
  (tt, {| settings := delete key (settings d); agents := agents d;
          logs := logs d; approvals := approvals d |}).

(** The arguments [createAgent] passes on: [tools: data.tools || "[]"]. *)
Definition create_agent_args (data : AgentConfig) : AgentConfig :=
  {| name := name data; role := role data; goal := goal data;
     tools := or_else (Some (tools data)) "[]";
     schedule := schedule data; sandbox := sandbox data |}.

Definition createAgent (data : AgentConfig) : M World string :=
  invoke (create_agent (create_agent_args data))
         (fun _ => db_create_agent (create_agent_args data)).

Definition listAgents : M World (list Agent.t) :=
  invoke list_agents (fun _ d => (agents d, d)).

Definition addLog (agentId action status output error : string) : M World unit :=
  invoke (add_log agentId action status output error)
         (fun w => db_add_log agentId action status output error (clock (env w))).

(** [getLogs(limit)]: the latest [limit] entries. *)
Definition getLogs (limit : nat) : M World (list Log.t) :=
  invoke (get_logs limit) (fun _ d => (firstn limit (rev (logs d)), d)).

Definition getSetting (key : string) : M World (option string) :=
  invoke (get_setting key) (fun _ d => (settings d !! key, d)).

Definition setSetting (key value : string) : M World unit :=
  invoke (set_setting key value) (fun _ => db_set_setting key value).

Definition deleteSetting (key : string) : M World unit :=
  invoke (delete_setting key) (fun _ => db_delete_setting key).

Definition addApproval (agentId actionType contentPreview : string) : M World nat :=
  invoke (add_approval agentId actionType contentPreview)
         (fun w => db_add_approval agentId actionType contentPreview (clock (env w))).

Definition updateApproval (id : nat) (status : string) : M World unit :=
  invoke (update_approval id status) (fun _ => db_update_approval id status).

Definition getApprovals : M World (list Approval.t) :=
  invoke get_approvals (fun _ d => (approvals d, d)).

(* ================================================================== *)
(** * src/services/llm.js *)
(* ================================================================== *)

Definition SYSTEM_PROMPT : string :=
  lines
    [ "You are the Personaliz Desktop Assistant, powered by OpenClaw.";
      "You guide non-technical users through automation with plain English.";
      "You translate user intent into OpenClaw CLI actions.";
      "You execute commands silently but explain what you're doing.";
      "You always ask for confirmation before any public posting.";
      "You log every action clearly.";
      "Be friendly, concise, and helpful. Use emojis sparingly.";
      EmptyString;
      "Capabilities you can help with:";
      "- Setting up OpenClaw on the user's computer";
      "- Creating automation agents (content, monitoring, scheduling)";
      "- Managing cron schedules";
      "- Browser automation for LinkedIn posting";
      "- Configuring event handlers and heartbeat checks";
      "- Running in sandbox (dry-run) mode for safety";
      EmptyString;
      "When a user asks to create an agent, gather these details:";
      "1. Agent name";
      "2. Role (e.g., " +:+ dq +:+ "Content Creator" +:+ dq +:+ ", " +:+ dq +:+ "Community Manager" +:+ dq +:+ ")";
      "3. Goal (what should the agent accomplish)";
      "4. Tools needed (browser, cron, etc.)";
      "5. Schedule (cron expression or description)";
      "6. Whether sandbox mode should be enabled" ].

(** Rule 2: the setup preview. *)
Definition reply_setup_preview : string :=
  lines
    [ "🦞 Let's get OpenClaw set up on your system! Here's what I'll do:";
      EmptyString;
      "1. **Check your system** — Detect OS and verify Node.js is installed";
      "2. **Install OpenClaw** — Run `npm install -g openclaw@latest` in the background";
      "3. **Run onboarding** — Execute `openclaw onboard` to configure everything";
      "4. **Start the Gateway** — Launch the OpenClaw gateway service";
      EmptyString;
      "Would you like me to start the setup process? Just say **" +:+ dq +:+ "Yes" +:+ dq +:+ "** to begin!";
      EmptyString;
      "💡 Tip: You can also go to **Settings** to enter an API key for a more powerful AI model." ].

(** Rule 3: the drafted agent was stored. *)
Definition reply_agent_created (agent : AgentConfig) : string :=
  lines
    [ "✅ **Agent Created Successfully!**";
      EmptyString;
      "🤖 **" +:+ name agent +:+ "** is now ready.";
      "- Role: " +:+ role agent;
      "- Schedule: `" +:+ schedule agent +:+ "`";
      "- Sandbox: " +:+ (if sandbox agent then "Enabled 🧪" else "Disabled");
      EmptyString;
      "You can view and manage it in the **Agents** tab. Head over there to run it, or tell me if you'd like to make any changes!" ].

(** Rule 4: the guided prompt. *)
Definition reply_create_agent : string :=
  lines
    [ "🤖 Let's create a new agent! I'll need a few details:";
      EmptyString;
      "1. **Agent Name** — What should we call this agent?";
      "2. **Role** — e.g., " +:+ dq +:+ "Content Creator" +:+ dq +:+ ", " +:+ dq +:+ "Community Manager" +:+ dq +:+ ", " +:+ dq +:+ "Monitor" +:+ dq;
      "3. **Goal** — What should this agent accomplish?";
      "4. **Tools** — Which tools does it need? (browser, cron, etc.)";
      "5. **Schedule** — How often should it run? (e.g., " +:+ dq +:+ "daily at 9am" +:+ dq +:+ ", " +:+ dq +:+ "every hour" +:+ dq +:+ ")";
      "6. **Sandbox Mode** — Should we test in dry-run mode first?";
      EmptyString;
      "You can provide these details here in chat, or head over to the **Agents** tab to use the visual form!" ].

(** Rule 5: preview of the Trending Topics draft. *)
Definition reply_trending_preview : string :=
  lines
    [ "📈 Great idea! I'll help you create a **Trending Topics Agent**. Here's the plan:";
      EmptyString;
      "**Agent: Trending OpenClaw Topics → LinkedIn Post**";
      "- 🔍 Search for trending OpenClaw topics";
      "- ✍️ Write a compelling LinkedIn post";
      "- ✋ Wait for your approval in the app";
      "- 🌐 Post via browser automation";
      "- 🔄 Runs daily at 9:00 AM";
      EmptyString;
      "**Config Preview:**";
      "```json";
      "{";
      "  " +:+ dq +:+ "name" +:+ dq +:+ ": " +:+ dq +:+ "Trending Topics Agent" +:+ dq +:+ ",";
      "  " +:+ dq +:+ "role" +:+ dq +:+ ": " +:+ dq +:+ "Content Creator" +:+ dq +:+ ",";
      "  " +:+ dq +:+ "goal" +:+ dq +:+ ": " +:+ dq +:+ "Search trending OpenClaw topics, write LinkedIn post" +:+ dq +:+ ",";
      "  " +:+ dq +:+ "tools" +:+ dq +:+ ": [" +:+ dq +:+ "browser" +:+ dq +:+ ", " +:+ dq +:+ "cron" +:+ dq +:+ "],";
      "  " +:+ dq +:+ "schedule" +:+ dq +:+ ": " +:+ dq +:+ "0 9 * * *" +:+ dq +:+ ",";
      "  " +:+ dq +:+ "requireApproval" +:+ dq +:+ ": true";
      "}";
      "```";
      EmptyString;
      "Would you like me to create this agent? Say **" +:+ dq +:+ "Yes, create it" +:+ dq +:+ "** to deploy!" ].

(** Rule 6: preview of the Hashtag Promoter draft. *)
Definition reply_hashtag_preview : string :=
  lines
    [ "#️⃣ I'll set up a **Hashtag Comment Agent** for you!";
      EmptyString;
      "**Agent: #openclaw Promoter**";
      "- 🔎 Search LinkedIn for posts with #openclaw";
      "- 💬 Comment promoting your GitHub repo & desktop app";
      "- 🔄 Runs every hour automatically";
      "- 📊 Logs all executions";
      EmptyString;
      "**Config Preview:**";
      "```json";
      "{";
      "  " +:+ dq +:+ "name" +:+ dq +:+ ": " +:+ dq +:+ "Hashtag Promoter" +:+ dq +:+ ",";
      "  " +:+ dq +:+ "role" +:+ dq +:+ ": " +:+ dq +:+ "Community Promoter" +:+ dq +:+ ",";
      "  " +:+ dq +:+ "goal" +:+ dq +:+ ": " +:+ dq +:+ "Search #openclaw, comment & promote desktop app" +:+ dq +:+ ",";
      "  " +:+ dq +:+ "tools" +:+ dq +:+ ": [" +:+ dq +:+ "browser" +:+ dq +:+ ", " +:+ dq +:+ "cron" +:+ dq +:+ "],";
      "  " +:+ dq +:+ "schedule" +:+ dq +:+ ": " +:+ dq +:+ "0 */1 * * *" +:+ dq +:+ ",";
      "  " +:+ dq +:+ "requireApproval" +:+ dq +:+ ": false";
      "}";
      "```";
      EmptyString;
      "Shall I create this agent? Say **" +:+ dq +:+ "Yes, create it" +:+ dq +:+ "** to deploy! You can enable sandbox mode later." ].

(** Rule 7: the cron cheat sheet. *)
Definition reply_schedule : string :=
  lines
    [ "⏰ I can help you manage schedules! Here are your options:";
      EmptyString;
      "- **View Schedules** — Go to the Schedules tab to see all active jobs";
      "- **Create Schedule** — Tell me what you want to run and when";
      "- **Cron Expressions** — I can translate plain English to cron:";
      "  - " +:+ dq +:+ "Every day at 9am" +:+ dq +:+ " → `0 9 * * *`";
      "  - " +:+ dq +:+ "Every hour" +:+ dq +:+ " → `0 */1 * * *`";
      "  - " +:+ dq +:+ "Every Monday at 8am" +:+ dq +:+ " → `0 8 * * 1`";
      "  - " +:+ dq +:+ "Every 30 minutes" +:+ dq +:+ " → `*/30 * * * *`";
      EmptyString;
      "What would you like to schedule?" ].

(** Rule 8: what sandbox mode is. *)
Definition reply_sandbox : string :=
  lines
    [ "🧪 **Sandbox Mode** keeps you safe!";
      EmptyString;
      "When sandbox mode is enabled for an agent:";
      "- ✅ All actions are simulated (no real posting/commenting)";
      "- ✅ Browser automation runs but doesn't submit forms";
      "- ✅ Full logs are generated for review";
      "- ✅ You can verify everything works before going live";
      EmptyString;
      "To enable sandbox mode:";
      "1. Go to **Agents** tab";
      "2. Toggle **Sandbox Mode** on for any agent";
      "3. Run the agent to test";
      EmptyString;
      "Or tell me which agent you'd like to put in sandbox mode!" ].

(** Rule 9: the capability list. *)
Definition reply_help : string :=
  lines
    [ "🦞 Hi! I'm your **OpenClaw Desktop Assistant**. Here's what I can help with:";
      EmptyString;
      "🔧 **Setup & Config**";
      "- " +:+ dq +:+ "Setup OpenClaw" +:+ dq +:+ " — Install and configure everything";
      "- " +:+ dq +:+ "Check status" +:+ dq +:+ " — View system and gateway status";
      EmptyString;
      "🤖 **Agent Management**";
      "- " +:+ dq +:+ "Create an agent" +:+ dq +:+ " — Build a new automation agent";
      "- " +:+ dq +:+ "Create trending agent" +:+ dq +:+ " — Set up LinkedIn trending topics agent";
      "- " +:+ dq +:+ "Create hashtag agent" +:+ dq +:+ " — Set up #openclaw comment agent";
      EmptyString;
      "⏰ **Scheduling**";
      "- " +:+ dq +:+ "Schedule a task" +:+ dq +:+ " — Set up cron jobs";
      "- " +:+ dq +:+ "Show schedules" +:+ dq +:+ " — View active schedules";
      EmptyString;
      "🧪 **Safety**";
      "- " +:+ dq +:+ "Enable sandbox mode" +:+ dq +:+ " — Test agents safely";
      "- " +:+ dq +:+ "Show approval queue" +:+ dq +:+ " — Review pending actions";
      EmptyString;
      "⚙️ **Settings**";
      "- " +:+ dq +:+ "Switch to OpenAI" +:+ dq +:+ " — Configure your API key";
      "- " +:+ dq +:+ "Use local model" +:+ dq +:+ " — Switch back to Phi-3";
      EmptyString;
      "Just type naturally and I'll guide you through everything!" ].

(** Rule 10: the static status table. *)
Definition reply_status : string :=
  lines
    [ "📊 **System Status Check**";
      EmptyString;
      "| Component | Status |";
      "|-----------|--------|";
      "| Desktop App | ✅ Running |";
      "| OpenClaw CLI | Checking... |";
      "| Gateway | Checking... |";
      "| Local LLM | ✅ Active (Phi-3) |";
      "| Database | ✅ Connected |";
      EmptyString;
      "💡 Head to **Settings** to configure your LLM API key for enhanced responses." ].

(** Rule 11: the welcome message. *)
Definition reply_greeting : string :=
  lines
    [ "👋 Hello! I'm your **OpenClaw Desktop Assistant** 🦞";
      EmptyString;
      "I'm here to help you automate tasks without touching the command line. Here are some things you can try:";
      EmptyString;
      "- **" +:+ dq +:+ "Setup OpenClaw" +:+ dq +:+ "** — Get everything installed";
      "- **" +:+ dq +:+ "Create an agent" +:+ dq +:+ "** — Build your first automation";
      "- **" +:+ dq +:+ "Help" +:+ dq +:+ "** — See all my capabilities";
      EmptyString;
      "What would you like to do today?" ].

(** Rule 12: the fallback, echoing the input. *)
Definition reply_general (message : string) : string :=
  lines
    [ "🦞 I understand you want to: " +:+ dq +:+ message +:+ dq;
      EmptyString;
      "Let me help with that! Here's what I can do:";
      "- If you need **automation**, I can create an agent for that";
      "- If you need **scheduling**, I can set up a cron job";
      "- If you need **browser actions**, I can configure browser automation";
      EmptyString;
      "Could you tell me more about what you'd like to accomplish? I'll break it down into simple steps.";
      EmptyString;
      "💡 **Quick tip:** You can also use the tabs on the left to directly manage Agents, Schedules, and Logs." ].

(** The fields of [LLMService] its methods read or write. *)
Record LLMService : Type := {
  mode : string;                               (* "local" | "openai" | "anthropic" *)
  apiKey : option string;
  model : option string;
  conversationHistory : list Message.t;
  _pendingSetup : bool;
  _lastSuggestedAgent : option AgentConfig
}.

(** [new LLMService()] *)
Definition constructor : LLMService :=
  {| mode := "local"; apiKey := None; model := None; conversationHistory := [];
     _pendingSetup := false; _lastSuggestedAgent := None |}.

Definition set_mode (v : string) (t : LLMService) : LLMService :=
  {| mode := v; apiKey := apiKey t; model := model t;
     conversationHistory := conversationHistory t;
     _pendingSetup := _pendingSetup t; _lastSuggestedAgent := _lastSuggestedAgent t |}.

Definition set_apiKey (v : option string) (t : LLMService) : LLMService :=
  {| mode := mode t; apiKey := v; model := model t;
     conversationHistory := conversationHistory t;
     _pendingSetup := _pendingSetup t; _lastSuggestedAgent := _lastSuggestedAgent t |}.

Definition set_model (v : option string) (t : LLMService) : LLMService :=
  {| mode := mode t; apiKey := apiKey t; model := v;
     conversationHistory := conversationHistory t;
     _pendingSetup := _pendingSetup t; _lastSuggestedAgent := _lastSuggestedAgent t |}.

Definition set_conversationHistory (v : list Message.t) (t : LLMService) : LLMService :=
  {| mode := mode t; apiKey := apiKey t; model := model t;
     conversationHistory := v;
     _pendingSetup := _pendingSetup t; _lastSuggestedAgent := _lastSuggestedAgent t |}.

Definition set_pendingSetup (v : bool) (t : LLMService) : LLMService :=
  {| mode := mode t; apiKey := apiKey t; model := model t;
     conversationHistory := conversationHistory t;
     _pendingSetup := v; _lastSuggestedAgent := _lastSuggestedAgent t |}.

Definition set_lastSuggestedAgent (v : option AgentConfig) (t : LLMService) : LLMService :=
  {| mode := mode t; apiKey := apiKey t; model := model t;
     conversationHistory := conversationHistory t;
     _pendingSetup := _pendingSetup t; _lastSuggestedAgent := v |}.

(** A method runs on the object and the world. *)
Definition Sys : Type := LLMService * World.

(** A call into openclaw.js from a method. *)
Definition liftW {T A : Type} (m : M World A) : M (T * World) A :=
  fun '(t, w) => let '(r, w') := m w in (r, (t, w')).

(** Reading [this], and assigning to a field of it. *)
Definition this {T : Type} : M (T * World) T := fun '(t, w) => (Ok t, (t, w)).

Definition assign {T : Type} (f : T -> T) : M (T * World) unit :=
  fun '(t, w) => (Ok tt, (f t, w)).

(** Reading the outside world without acting on it. *)
Definition read {A : Type} (f : World -> A) : M World A := fun w => (Ok (f w), w).

(** [new Date().toLocaleString()] *)
Definition now : M World string := read (fun w => clock (env w)).

(** [await delay(ms)] *)
Definition delay (ms : N) : M World unit := fun w => (Ok tt, emit (EDelay ms) w).

(** [arr.push(x)] on the conversation history. *)
Definition push (role content : string) (t : LLMService) : LLMService :=
  set_conversationHistory
    (conversationHistory t ++ [{| Message.role := role; Message.content := content |}]) t.

(** [arr.slice(-n)]: the last [n] elements. *)
Definition slice_last {A : Type} (n : nat) (l : list A) : list A :=
  skipn (length l - n) l.

Definition _defaultModel (provider : string) : string :=
  if String.eqb provider "openai" then "gpt-4o-mini"
  else if String.eqb provider "anthropic" then "claude-3-haiku-20240307"
  else "phi-3-mini".

Definition getMode (t : LLMService) : string := mode t.

Definition getModelName (t : LLMService) : string :=
  if String.eqb (mode t) "local" then "Phi-3 Mini (Local)"
  else if String.eqb (mode t) "openai" then or_else (model t) "GPT-4o Mini"
  else if String.eqb (mode t) "anthropic" then or_else (model t) "Claude 3 Haiku"
  else "Unknown".

(** [initialize()]: [true] is the early [return] inside the [try]. *)
Definition initialize : M Sys unit :=
  found <- try_catch
             (provider <- liftW (getSetting "llm_provider") ;;
              key <- liftW (getSetting "llm_api_key") ;;
              model <- liftW (getSetting "llm_model") ;;
              if truthy key && truthy provider then
                assign (set_mode (or_else provider EmptyString)) ;;
                assign (set_apiKey key) ;;
                assign (set_model
                          (Some (or_else model
                                   (_defaultModel (or_else provider EmptyString))))) ;;
                ret true
              else ret false)
             (fun _ => ret false) ;;
  if found then ret tt else assign (set_mode "local").

(** [switchToAPI(provider, apiKey, model)] *)
Definition switchToAPI (provider apiKey : string) (model : option string) : M Sys unit :=
  let model := or_else model (_defaultModel provider) in
  assign (set_mode provider) ;;
  assign (set_apiKey (Some apiKey)) ;;
  assign (set_model (Some model)) ;;
  liftW (setSetting "llm_provider" provider) ;;
  liftW (setSetting "llm_api_key" apiKey) ;;
  liftW (setSetting "llm_model" model) ;;
  liftW (addLog "system" ("LLM switched to " +:+ provider) "success"
                ("Model: " +:+ model) EmptyString).

(** [switchToLocal()] *)
Definition switchToLocal : M Sys unit :=
  assign (set_mode "local") ;;
  assign (set_apiKey None) ;;
  assign (set_model (Some "phi-3-mini")) ;;
  try_catch
    (liftW (deleteSetting "llm_provider") ;;
     liftW (deleteSetting "llm_api_key") ;;
     liftW (deleteSetting "llm_model"))
    (fun _ => ret tt) ;;
  liftW (addLog "system" "LLM switched to local (Phi-3)" "success"
                EmptyString EmptyString).

(** [fetch(url, {... body ...})] and the decoding of the response. *)
Definition fetch (url model : string) (messages : list Message.t)
  : M World HttpOutcome :=
  fun w => (Ok (http (env w) (n_http w)), http_done url model messages w).

(** [_callOpenAI(message)] *)
Definition _callOpenAI (message : string) : M Sys string :=
  t <- this ;;
  r <- liftW (fetch "https://api.openai.com/v1/chat/completions"
                    (or_else (model t) "gpt-4o-mini")
                    ({| Message.role := "system"; Message.content := SYSTEM_PROMPT |}
                       :: slice_last 20 (conversationHistory t))) ;;
  match r with
  | NetworkFailure reason => throw (ErrorObj reason)
  | HttpError status body =>
      throw (ErrorObj ("OpenAI API error: " +:+ string_of_nat status +:+ " " +:+ body))
  | HttpMalformed reason => throw (ErrorObj reason)
  | HttpOk content => ret content
  end.

(** [_callAnthropic(message)] *)
Definition _callAnthropic (message : string) : M Sys string :=
  t <- this ;;
  r <- liftW (fetch "https://api.anthropic.com/v1/messages"
                    (or_else (model t) "claude-3-haiku-20240307")
                    (slice_last 20 (conversationHistory t))) ;;
  match r with
  | NetworkFailure reason => throw (ErrorObj reason)
  | HttpError status body =>
      throw (ErrorObj ("Anthropic API error: " +:+ string_of_nat status +:+ " " +:+ body))
  | HttpMalformed reason => throw (ErrorObj reason)
  | HttpOk content => ret content
  end.

(** ** The setup sequence *)

(** The fragments [_executeSetup] appends to its report. *)
Definition setup_header : string := "🚀 **Starting Setup...**" +:+ nl +:+ nl.

Definition setup_step1 (os : string) (nodeDetected : bool) : string :=
  "**Step 1: System Check** ✅" +:+ nl +:+
  "- Operating System: " +:+ os +:+ nl +:+
  "- Node.js: " +:+
  (if nodeDetected then "✅ v20.11.0 Detected" else "✅ v20.11.0 (bundled)") +:+ nl +:+
  "- npm: ✅ v10.2.4" +:+ nl +:+ nl.

Definition setup_step2_start : string :=
  "**Step 2: Installing OpenClaw** ⏳" +:+ nl +:+
  "Running `npm install -g openclaw@latest`..." +:+ nl.

Definition setup_installed : string :=
  "✅ OpenClaw v2.1.0 installed successfully!" +:+ nl +:+ nl.

Definition setup_step3_start : string :=
  "**Step 3: Running Onboarding** ⏳" +:+ nl +:+
  "Executing `openclaw onboard --non-interactive`..." +:+ nl.

Definition setup_onboarded : string :=
  "✅ Configuration files created" +:+ nl +:+
  "✅ Default workspace initialized" +:+ nl +:+
  "✅ Browser automation driver verified" +:+ nl +:+ nl.

Definition setup_step4_start : string :=
  "**Step 4: Starting Gateway** ⏳" +:+ nl +:+
  "Launching OpenClaw gateway on port 18789..." +:+ nl.

Definition setup_gateway_up : string :=
  "✅ Gateway started on port 18789" +:+ nl +:+
  "✅ Heartbeat monitor active (60s interval)" +:+ nl +:+ nl.

Definition setup_summary : string :=
  "🎉 **Setup Complete!** OpenClaw is installed and ready." +:+ nl +:+ nl +:+
  "📋 **Next steps:**" +:+ nl +:+
  "- Go to **Agents** tab to create your first agent" +:+ nl +:+
  "- Or type **" +:+ dq +:+ "Create a trending agent" +:+ dq +:+
  "** right here in chat" +:+ nl +:+
  "- Check **Settings** → Run Doctor to verify installation".

(** [_executeSetup()].  The method reads and writes no field of [this],
    so it is a computation on the world alone. *)
Definition _executeSetup : M World string :=
  os <- read detectOS ;;
  let report := setup_header in
  (* Step 1: system check *)
  nodeDetected <- try_catch checkNodeInstalled (fun _ => ret false) ;;
  let report := report +:+ setup_step1 os nodeDetected in
  addLog "system" "Setup — system check passed" "success"
         ("OS: " +:+ os +:+ nl +:+ "Node.js: detected" +:+ nl +:+ "npm: detected")
         EmptyString ;;
  (* Step 2: install *)
  let report := report +:+ setup_step2_start in
  delay 1500%N ;;
  report <- try_catch
              (installResult <- installOpenClaw ;;
               if success installResult
               then ret (report +:+ setup_installed)
               else ret (report +:+ setup_installed))
              (fun _ => ret (report +:+ setup_installed)) ;;
  addLog "system" "OpenClaw v2.1.0 installed" "success"
         ("added 147 packages in 8.2s" +:+ nl +:+ nl +:+ "+ openclaw@2.1.0" +:+ nl +:+
          "installed globally")
         EmptyString ;;
  (* Step 3: onboarding *)
  let report := report +:+ setup_step3_start in
  delay 1200%N ;;
  try_catch (runOpenClawOnboard ;; ret tt) (fun _ => ret tt) ;;
  let report := report +:+ setup_onboarded in
  addLog "system" "OpenClaw onboarding complete" "success"
         ("Config: ~/.openclaw/config.yml" +:+ nl +:+
          "Workspace: ~/openclaw-workspace" +:+ nl +:+
          "Browser driver: chromium (auto-detected)")
         EmptyString ;;
  (* Step 4: gateway *)
  let report := report +:+ setup_step4_start in
  delay 800%N ;;
  try_catch (startGateway 18789%N ;; ret tt) (fun _ => ret tt) ;;
  let report := report +:+ setup_gateway_up in
  addLog "system" "Gateway started (port 18789)" "success"
         ("PID: 12847" +:+ nl +:+ "Heartbeat: 60s" +:+ nl +:+ "Status: RUNNING")
         EmptyString ;;
  (* Final summary *)
  let report := report +:+ setup_summary in
  addLog "system" "Setup completed successfully" "success" EmptyString EmptyString ;;
  ret report.

(** ** Local inference *)

(** The two drafts the engine can suggest. *)
Definition trending_draft : AgentConfig :=
  {| name := "Trending Topics Agent";
     role := "Content Creator";
     goal := "Search trending OpenClaw topics, write LinkedIn post, wait for approval, post via browser automation";
     tools := "browser,cron";
     schedule := "0 9 * * *";
     sandbox := false |}.

Definition hashtag_draft : AgentConfig :=
  {| name := "Hashtag Promoter Agent";
     role := "Community Promoter";
     goal := "Search LinkedIn for #openclaw posts, comment promoting GitHub repo and desktop app";
     tools := "browser,cron";
     schedule := "0 */1 * * *";
     sandbox := false |}.

(** The [catch] of rule 3. *)
Definition reply_create_failed (e : Thrown) : string :=
  "❌ Failed to create agent: " +:+ message_or_self e +:+
  ". Please try again or use the Agents tab directly.".

(** The vocabularies of rules 1, 2 and 3, on the lower-cased, trimmed text. *)
Definition says_go (msg : string) : bool :=
  includes msg "yes" || includes msg "sure" || includes msg "ok" ||
  includes msg "go ahead" || includes msg "start" || includes msg "set it up".

Definition asks_setup (msg : string) : bool :=
  includes msg "setup" || includes msg "install" || includes msg "get started".

Definition says_confirm (msg : string) : bool :=
  includes msg "yes" || includes msg "create" || includes msg "confirm" ||
  includes msg "deploy" || includes msg "do it".

(** [_localInference(message)] *)
Definition _localInference (message : string) : M Sys string :=
  let msg := trim (toLowerCase message) in
  t <- this ;;
  (* Setup confirmation (user said yes after setup prompt) *)
  if _pendingSetup t && says_go msg then
    assign (set_pendingSetup false) ;;
    liftW _executeSetup
  (* Setup request *)
  else if asks_setup msg then
    assign (set_pendingSetup true) ;;
    ret reply_setup_preview
  else
  (* Confirm agent creation; [c && x] is [x] when [c] holds *)
  match (if says_confirm msg then _lastSuggestedAgent t else None) with
  | Some agent =>
      try_catch
        (liftW (createAgent agent) ;;
         liftW (addLog "system" ("Agent created via chat: " +:+ name agent) "success"
                       (json_agent agent) EmptyString) ;;
         (if includes (tools agent) "browser"
          then liftW (addApproval "system" "agent_creation"
                                  ("Created: " +:+ name agent +:+ " — " +:+ goal agent)) ;;
               ret tt
          else ret tt) ;;
         assign (set_lastSuggestedAgent None) ;;
         ret (reply_agent_created agent))
        (fun e => ret (reply_create_failed e))
  | None =>
  (* Agent creation *)
  if includes msg "create" && (includes msg "agent" || includes msg "automation") then
    ret reply_create_agent
  (* Trending agent *)
  else if includes msg "trending" || includes msg "linkedin post" || includes msg "trend" then
    assign (set_lastSuggestedAgent (Some trending_draft)) ;;
    ret reply_trending_preview
  (* Hashtag agent *)
  else if includes msg "hashtag" || includes msg "#openclaw" || includes msg "comment" then
    assign (set_lastSuggestedAgent (Some hashtag_draft)) ;;
    ret reply_hashtag_preview
  (* Scheduling *)
  else if includes msg "schedule" || includes msg "cron" || includes msg "timer" then
    ret reply_schedule
  (* Sandbox *)
  else if includes msg "sandbox" || includes msg "dry run" || includes msg "test mode" then
    ret reply_sandbox
  (* Help *)
  else if includes msg "help" || includes msg "what can you do" || includes msg "commands" then
    ret reply_help
  (* Status check *)
  else if includes msg "status" || includes msg "health" || includes msg "check" then
    ret reply_status
  (* Default greeting (only for actual greetings, not short confirmations) *)
  else if includes msg "hello" || includes msg "hi " || String.eqb msg "hi" ||
          ((String.length msg <? 5) && negb (includes msg "yes") && negb (includes msg "ok"))
  then ret reply_greeting
  (* General response *)
  else ret (reply_general message)
  end.

(** [sendMessage(userMessage)] *)
Definition sendMessage (userMessage : string) : M Sys string :=
  assign (push "user" userMessage) ;;
  try_catch
    (t <- this ;;
     response <- (if String.eqb (mode t) "openai" && truthy (apiKey t) then
                    _callOpenAI userMessage
                  else if String.eqb (mode t) "anthropic" && truthy (apiKey t) then
                    _callAnthropic userMessage
                  else _localInference userMessage) ;;
     assign (push "assistant" response) ;;
     ret response)
    (fun error =>
       (* Fallback to local *)
       fallback <- _localInference userMessage ;;
       assign (push "assistant" fallback) ;;
       ret fallback).

(** [clearHistory()] *)
Definition clearHistory (t : LLMService) : LLMService :=
  set_lastSuggestedAgent None (set_pendingSetup false (set_conversationHistory [] t)).

(* ================================================================== *)
(** * AgentPanel.jsx: the execution dispatcher *)
(* ================================================================== *)

(** The label a browser agent's preview starts with. *)
Definition preview_prefix (type : string) : string :=
  if String.eqb type "trending" then "[Trending Agent]"
  else if String.eqb type "hashtag" then "[Hashtag Agent]"
  else "[Agent]".

(** The body of the [try] of [handleRun(agent)]. *)
Definition dispatch (agent : Agent.t) : M World unit :=
  if sandbox agent then
    stamp <- now ;;
    addLog (Agent.id agent) ("[SANDBOX] Dry-run: " +:+ name agent) "success"
           (buildSandboxOutput (name agent) (goal agent) stamp) EmptyString
  else if includes (tools agent) "browser" then
    (* Browser agents require human approval *)
    let type := detectAgentType (Some (name agent)) in
    let prefix := preview_prefix type in
    let preview := prefix +:+ " " +:+ name agent +:+ ": " +:+ goal agent in
    addApproval (Agent.id agent) "agent_execution" preview ;;
    addLog (Agent.id agent) ("Queued for approval: " +:+ name agent) "info"
           "Action submitted to approval queue. Go to Logs → Approvals tab to review."
           EmptyString
  else
    (* Non-browser agents auto-execute *)
    stamp <- now ;;
    addLog (Agent.id agent) ("Executed: " +:+ name agent) "success"
           (buildAutoExecuteOutput agent stamp) EmptyString.

(** [handleRun(agent)].  The [running] flag of the card, set before the
    [try] and cleared by a timer in [finally], is display state of the
    button and is not modelled. *)
Definition handleRun (agent : Agent.t) : M World unit :=
  try_catch (dispatch agent)
    (fun err =>
       addLog (Agent.id agent) ("Error running: " +:+ name agent) "error"
              EmptyString (toString err)).

(* ================================================================== *)
(** * LogsPanel.jsx: the approval workflow *)
(* ================================================================== *)

(** The React state of the panel that the handlers read or write. *)
Record LogsPanel : Type := {
  logs_state : list Log.t;             (* [logs] *)
  approvals_state : list Approval.t;   (* [approvals] *)
  filter : string;
  loading : bool
}.

(** The state of a freshly mounted panel. *)
Definition mounted : LogsPanel :=
  {| logs_state := []; approvals_state := []; filter := "all"; loading := true |}.

Definition setLogs (v : list Log.t) (p : LogsPanel) : LogsPanel :=
  {| logs_state := v; approvals_state := approvals_state p; filter := filter p;
     loading := loading p |}.

Definition setApprovals (v : list Approval.t) (p : LogsPanel) : LogsPanel :=
  {| logs_state := logs_state p; approvals_state := v; filter := filter p;
     loading := loading p |}.

Definition setLoading (v : bool) (p : LogsPanel) : LogsPanel :=
  {| logs_state := logs_state p; approvals_state := approvals_state p;
     filter := filter p; loading := v |}.

(** [await Promise.all([m1, m2])]: both calls are started, in this order;
    the result is both values, or the rejection of the first that rejects. *)
Definition promise_all {S A B : Type} (m1 : M S A) (m2 : M S B) : M S (A * B) :=
  fun s =>
    let '(r1, s1) := m1 s in
    let '(r2, s2) := m2 s1 in
    match r1, r2 with
    | Ok a, Ok b => (Ok (a, b), s2)
    | Throw e, _ => (Throw e, s2)
    | _, Throw e => (Throw e, s2)
    end.

(** [loadData()] *)
Definition loadData : M (LogsPanel * World) unit :=
  assign (setLoading true) ;;
  try_catch
    (data <- liftW (promise_all (getLogs 200) getApprovals) ;;
     assign (setLogs (fst data)) ;;
     assign (setApprovals (snd data)))
    (fun err => ret tt) ;;
  assign (setLoading false).

(** [handleApproval(id, status)] *)
Definition handleApproval (id : nat) (status : string) : M (LogsPanel * World) unit :=
  try_catch
    (liftW (updateApproval id status) ;;
     p <- this ;;
     let item := find (fun a => Approval.id a =? id) (approvals_state p) in
     let preview := or_else (Approval.content_preview <$> item) EmptyString in
     let agentId := or_else (Approval.agent_id <$> item) "system" in
     (if String.eqb status "approved" then
        let type := detectAgentType (Some preview) in
        stamp <- liftW now ;;
        let output :=
          if String.eqb type "trending" then buildTrendingOutput stamp
          else if String.eqb type "hashtag" then buildHashtagOutput stamp
          else buildGenericOutput preview stamp in
        liftW (addLog agentId "Approved & Executed" "success" output EmptyString)
      else
        liftW (addLog agentId "Approval rejected — action skipped" "info"
                      ("Action was reviewed and rejected by user." +:+ nl +:+
                       "Original request: " +:+ preview)
                      EmptyString)) ;;
     loadData)
    (fun err => ret tt).

(** [filtered] and [pendingCount], the derived state. *)
Definition filtered (p : LogsPanel) : list Log.t :=
  if String.eqb (filter p) "all" then logs_state p
  else List.filter (fun l => String.eqb (Log.status l) (filter p)) (logs_state p).

Definition pendingCount (p : LogsPanel) : nat :=
  length (List.filter (fun a => String.eqb (Approval.status a) "pending")
                      (approvals_state p)).

(** What one card of the approval queue shows: its badge and the buttons
    it offers, each with the call its [onClick] makes. *)
Record Card : Type := {
  card_key : nat;
  card_title : string;
  badge_class : string;
  badge_text : string;
  card_text : string;
  buttons : list (nat * string)          (* [onApproval(item.id, status)] *)
}.

(** [s.replace(/_/g, " ")] *)
Fixpoint underscores_to_spaces (s : string) : string :=
  match s with
  | EmptyString => EmptyString
  | String c s' =>
      String (if Ascii.eqb c "_"%char then " "%char else c) (underscores_to_spaces s')
  end.

Definition card (item : Approval.t) : Card :=
  {| card_key := Approval.id item;
     card_title := underscores_to_spaces (Approval.action_type item);
     badge_class :=
       if String.eqb (Approval.status item) "pending" then "badge-warning"
       else if String.eqb (Approval.status item) "approved" then "badge-success"
       else "badge-danger";
     badge_text := Approval.status item;
     card_text := Approval.content_preview item;
     buttons :=
       if String.eqb (Approval.status item) "pending"
       then [(Approval.id item, "approved"); (Approval.id item, "rejected")]
       else [] |}.

(** [ApprovalQueue({ approvals, onApproval })]: the cards rendered; no
    card (the empty state) for an empty list. *)
Definition ApprovalQueue (approvals : list Approval.t) : list Card :=
  map card approvals.

(** The clicks the rendered queue offers. *)
Definition offered (approvals : list Approval.t) : list (nat * string) :=
  flat_map buttons (ApprovalQueue approvals).

(* ================================================================== *)
(** * Notions the statements use *)
(* ================================================================== *)

(** The remote requests a trace holds. *)
Definition is_fetch (e : Event) : bool :=
  match e with EFetch _ _ _ => true | _ => false end.

Definition remote_calls (w : World) : list Event := List.filter is_fetch (trace w).

(** The shell commands a trace holds. *)
Definition is_shell (e : Event) : bool :=
  match e with EShell _ _ => true | _ => false end.

(** [sendMessage] takes one of its two remote branches. *)
Definition remote_selected (t : LLMService) : bool :=
  (String.eqb (mode t) "openai" || String.eqb (mode t) "anthropic") && truthy (apiKey t).

(** The remote call throws. *)
Definition http_fails (o : HttpOutcome) : bool :=
  match o with HttpOk _ => false | _ => true end.

(** The log entries of one status, and the approval items of one status. *)
Definition entries_with (status : string) (l : list Log.t) : list Log.t :=
  List.filter (fun e => String.eqb (Log.status e) status) l.

Definition items_with (status : string) (l : list Approval.t) : list Approval.t :=
  List.filter (fun a => String.eqb (Approval.status a) status) l.

(** A conversation: the messages sent one after the other. *)
Definition send_all (texts : list string) (st : Sys) : Sys :=
  fold_left (fun st text => snd (sendMessage text st)) texts st.

(** The report of a setup sequence that runs to its end, built as
    [_executeSetup] builds it, and the actions of its five audit entries,
    in the order they are written. *)
Definition setup_report (os : string) (nodeDetected : bool) : string :=
  (((((((setup_header +:+ setup_step1 os nodeDetected) +:+ setup_step2_start)
         +:+ setup_installed) +:+ setup_step3_start) +:+ setup_onboarded)
      +:+ setup_step4_start) +:+ setup_gateway_up) +:+ setup_summary.

Definition setup_actions : list string :=
  [ "Setup — system check passed";
    "OpenClaw v2.1.0 installed";
    "OpenClaw onboarding complete";
    "Gateway started (port 18789)";
    "Setup completed successfully" ].

(** Whether the first shell command of a world ([node --version]) succeeds. *)
Definition node_detected (w : World) : bool :=
  match shell (env w) (n_shell w) with
  | Exit c _ _ => (c =? 0)%Z
  | ShellThrows _ => false
  end.

(** A computation leaves the state within [R] of where it started. *)
Definition keeps {S A : Type} (R : S -> S -> Prop) (m : M S A) : Prop :=
  forall s, R s (snd (m s)).

(** From [R]-related states a computation ends the same way, in
    [R]-related states. *)
Definition stable {S A : Type} (R : S -> S -> Prop) (m : M S A) : Prop :=
  forall s1 s2, R s1 s2 -> fst (m s1) = fst (m s2) /\ R (snd (m s1)) (snd (m s2)).

(** A relation on the object and a relation on the world, together. *)
Definition both {T : Type} (RT : T -> T -> Prop) (RW : World -> World -> Prop)
  : T * World -> T * World -> Prop :=
  fun s s' => RT (fst s) (fst s') /\ RW (snd s) (snd s').

(** No remote request was made between [w] and [w']. *)
Definition no_remote (w w' : World) : Prop :=
  n_http w' = n_http w /\ remote_calls w' = remote_calls w.

(** No shell command was run between [w] and [w']. *)
Definition no_shell (w w' : World) : Prop :=
  n_shell w' = n_shell w /\ List.filter is_shell (trace w') = List.filter is_shell (trace w).

(** The trace of [w'] continues the trace of [w]. *)
Definition grows (w w' : World) : Prop := exists rest, trace w' = trace w ++ rest.

Definition same_mode (t t' : LLMService) : Prop := mode t' = mode t.

Definition same_history (t t' : LLMService) : Prop :=
  conversationHistory t' = conversationHistory t.

(** Two worlds that differ at most in the remote requests made and in the
    trace; two engines that differ at most in the conversation history. *)
Definition alike_world (w1 w2 : World) : Prop :=
  env w1 = env w2 /\ db w1 = db w2 /\ n_ipc w1 = n_ipc w2 /\ n_shell w1 = n_shell w2.

Definition alike_engine (t1 t2 : LLMService) : Prop :=
  mode t1 = mode t2 /\ apiKey t1 = apiKey t2 /\ model t1 = model t2 /\
  _pendingSetup t1 = _pendingSetup t2 /\
  _lastSuggestedAgent t1 = _lastSuggestedAgent t2.

(** The rows of the approval table carry their position as identifier, as
    [db_add_approval] numbers them. *)
Definition ids_ok (t : list Approval.t) : Prop :=
  forall i a, t !! i = Some a -> Approval.id a = i.

(** How a row of the approval table may differ between an earlier and a
    later moment: not at all, or by its status having gone from pending to
    approved or rejected. *)
Definition same_or_resolved (a a' : Approval.t) : Prop :=
  Approval.id a' = Approval.id a /\
  Approval.agent_id a' = Approval.agent_id a /\
  Approval.action_type a' = Approval.action_type a /\
  Approval.content_preview a' = Approval.content_preview a /\
  (Approval.status a' = Approval.status a \/
   (Approval.status a = "pending" /\
    (Approval.status a' = "approved" \/ Approval.status a' = "rejected"))).

(** The table [t'] is a later state of the table [t]: every row of [t] is
    still there, the same or resolved. *)
Definition later (t t' : list Approval.t) : Prop :=
  ids_ok t' /\
  forall i a, t !! i = Some a -> exists a', t' !! i = Some a' /\ same_or_resolved a a'.

(** How a row may differ between an earlier and a later moment when
    nothing is known of what the panel showed in between: its status is the
    same, or it is approved or rejected. *)
Definition same_or_settled (a a' : Approval.t) : Prop :=
  Approval.id a' = Approval.id a /\
  Approval.agent_id a' = Approval.agent_id a /\
  Approval.action_type a' = Approval.action_type a /\
  Approval.content_preview a' = Approval.content_preview a /\
  (Approval.status a' = Approval.status a \/
   Approval.status a' = "approved" \/ Approval.status a' = "rejected").

(** The table [t'] comes after the table [t], whatever the panel showed
    in between: every row of [t] is still there, the same or settled. *)
Definition comes_after (t t' : list Approval.t) : Prop :=
  ids_ok t' /\
  forall i a, t !! i = Some a -> exists a', t' !! i = Some a' /\ same_or_settled a a'.

(** The next [k] calls into the store resolve. *)
Definition store_accepts (k : nat) (w : World) : bool :=
  forallb (fun i => match ipc (env w) (n_ipc w + i) with None => true | Some _ => false end)
          (seq 0 k).

(** How many of the next [k] calls into the store, counted from call
    number [n], resolve before the first one that is rejected. *)
Fixpoint resolving (e : Env) (n k : nat) : nat :=
  match k with
  | 0 => 0
  | S k' => match ipc e n with
            | None => S (resolving e (S n) k')
            | Some _ => 0
            end
  end.

(** The calls made when the commands [cs] are sent one after the other and
    the first [k] of them resolve: [k] calls that resolved, then the
    rejected one when there is one left to send. *)
Definition sent_until (k : nat) (cs : list Command) : list Event :=
  map (fun c => EInvoke c true) (firstn k cs) ++
  match nth_error cs k with
  | Some c => [EInvoke c false]
  | None => []
  end.

(** The panel holds no row that the store does not hold: every item it
    shows is, as shown, in the approval table.  The panel's copy is a
    snapshot taken by [loadData]; rows queued since are missing from it,
    which is harmless; a row resolved since makes the copy stale. *)
Definition shows_store (s : LogsPanel * World) : Prop :=
  forall a, In a (approvals_state (fst s)) -> In a (approvals (db (snd s))).

(** A click that leaves the panel in step with the store: the status
    update is rejected, so that nothing changes, or the update, the log
    write and the two reads of the reload all resolve. *)
Definition click_completes (s : LogsPanel * World) : Prop :=
  store_accepts 1 (snd s) = false \/ store_accepts 4 (snd s) = true.

(** No condition on the store at the time of a click. *)
Definition any_click (s : LogsPanel * World) : Prop := True.

(** What can happen to the approval table while the Logs panel is open:
    the user clicks a button the queue offers for a row the panel shows
    (in a state for which [click_ok] holds); the panel reloads; some caller
    queues a new action; an agent is run. *)
Inductive ui_step (click_ok : LogsPanel * World -> Prop)
  : LogsPanel * World -> LogsPanel * World -> Prop :=
| step_click (p : LogsPanel) (w : World) (id : nat) (status : string) :
    click_ok (p, w) ->
    In (id, status) (offered (approvals_state p)) ->
    ui_step click_ok (p, w) (snd (handleApproval id status (p, w)))
| step_reload (p : LogsPanel) (w : World) :
    ui_step click_ok (p, w) (snd (loadData (p, w)))
| step_queue (p : LogsPanel) (w : World) (agentId actionType preview : string) :
    ui_step click_ok (p, w) (p, snd (addApproval agentId actionType preview w))
| step_run (p : LogsPanel) (w : World) (agent : Agent.t) :
    ui_step click_ok (p, w) (p, snd (handleRun agent w)).

(** A run of the panel: any number of such steps. *)
Inductive ui_run (click_ok : LogsPanel * World -> Prop)
  : LogsPanel * World -> LogsPanel * World -> Prop :=
| run_nil (s : LogsPanel * World) : ui_run click_ok s s
| run_step (s1 s2 s3 : LogsPanel * World) :
    ui_step click_ok s1 s2 -> ui_run click_ok s2 s3 -> ui_run click_ok s1 s3.

(* ================================================================== *)
(** * Sample inputs *)
(* ================================================================== *)

(** A world in which every call succeeds, and one in which the database
    rejects every call and the remote API answers 500. *)
Definition quiet_env : Env :=
  {| clock := "11/2/2026, 9:00:00 AM";
     userAgent := "Mozilla/5.0 (X11; Linux x86_64)";
     ipc := fun _ => None;
     shell := fun _ => Exit 0 EmptyString EmptyString;
     http := fun _ => HttpOk "Happy to help." |}.

Definition broken_env : Env :=
  {| clock := "11/2/2026, 9:00:00 AM";
     userAgent := "Mozilla/5.0 (X11; Linux x86_64)";
     ipc := fun _ => Some (Rejected "database is locked");
     shell := fun _ => ShellThrows (Rejected "program not allowed");
     http := fun _ => HttpError 500 "upstream down" |}.

(** The database works, the remote API answers 500. *)
Definition offline_env : Env :=
  {| clock := "11/2/2026, 9:00:00 AM";
     userAgent := "Mozilla/5.0 (X11; Linux x86_64)";
     ipc := fun _ => None;
     shell := fun _ => Exit 1 EmptyString "npm ERR!";
     http := fun _ => HttpError 500 "upstream down" |}.

(** The database works, the shell plugin refuses every command. *)
Definition no_shell_env : Env :=
  {| clock := "11/2/2026, 9:00:00 AM";
     userAgent := "Mozilla/5.0 (Windows NT 10.0; Win64; x64)";
     ipc := fun _ => None;
     shell := fun _ => ShellThrows (Rejected "program not allowed");
     http := fun _ => HttpError 500 "upstream down" |}.

(** A store that rejects its sixth call and no other. *)
Definition locked_once_env : Env :=
  {| clock := "11/2/2026, 9:00:00 AM";
     userAgent := "Mozilla/5.0 (X11; Linux x86_64)";
     ipc := fun n => if n =? 5 then Some (Rejected "database is locked") else None;
     shell := fun _ => Exit 0 EmptyString EmptyString;
     http := fun _ => HttpOk "Happy to help." |}.

Definition empty_db : Db :=
  {| settings := ∅; agents := []; logs := []; approvals := [] |}.

Definition boot (e : Env) : World :=
  {| env := e; db := empty_db; n_ipc := 0; n_shell := 0; n_http := 0; trace := [] |}.

(** The agents of the spec's scenarios, and one whose goal, not its name,
    speaks of trending topics. *)
Definition agent_x : Agent.t :=
  {| Agent.id := "1";
     Agent.config := {| name := "X"; role := "Reporter"; goal := "Summarise the logs";
                        tools := "cron"; schedule := "0 9 * * *"; sandbox := false |} |}.

Definition agent_y : Agent.t :=
  {| Agent.id := "2";
     Agent.config := {| name := "Y"; role := "Poster"; goal := "Post the summary";
                        tools := "browser"; schedule := EmptyString; sandbox := false |} |}.

Definition agent_poster : Agent.t :=
  {| Agent.id := "7";
     Agent.config := {| name := "Poster"; role := "Writer"; goal := "find trending topics";
                        tools := "browser"; schedule := EmptyString; sandbox := false |} |}.

(** An engine switched to the first provider, and the same engine waiting
    for the setup confirmation or holding a draft. *)
Definition remote_engine : LLMService :=
  {| mode := "openai"; apiKey := Some "sk-test"; model := Some "gpt-4o-mini";
     conversationHistory := []; _pendingSetup := false; _lastSuggestedAgent := None |}.

Definition remote_engine_awaiting_setup : LLMService := set_pendingSetup true remote_engine.

Definition engine_awaiting_setup : LLMService := set_pendingSetup true constructor.

Definition engine_with_draft : LLMService :=
  set_lastSuggestedAgent (Some trending_draft) constructor.


(* ================================================================== *)
(** * src/services/openclaw.js: the remaining wrappers *)
(* ================================================================== *)

(** The optional flags of [openClawCronAdd]. *)
Record CronOpts : Type := {
  session : option string;
  announce : bool
}.

(** [openClawCronAdd(name, cronExpr, message, opts = {})] *)
Definition openClawCronAdd (name cronExpr message : string) (opts : CronOpts)
  : M World CommandResult :=
  let args := ["cron"; "add"; "--name"; name; "--cron"; cronExpr; "--message"; message] in
  let args := if truthy (session opts)
              then args ++ ["--session"; or_else (session opts) EmptyString] else args in
  let args := if announce opts then args ++ ["--announce"] else args in
  executeCommand "openclaw" args.

Definition openClawCronList : M World CommandResult :=
  executeCommand "openclaw" ["cron"; "list"].

Definition openClawAgentMessage (message : string) : M World CommandResult :=
  executeCommand "openclaw" ["agent"; "--message"; message].

(** Modelled from the spec: the backend behind [delete_agent] is not among
    the sources.  Spec 6: [deleteAgent(id)]; the rows stored under the
    identifier are removed. *)
Definition db_delete_agent (id : string) (d : Db) : unit * Db :=
  (tt, {| settings := settings d;
          agents := List.filter (fun a => negb (String.eqb (Agent.id a) id)) (agents d);
          logs := logs d; approvals := approvals d |}).

Definition deleteAgent (id : string) : M World unit :=
  invoke (delete_agent id) (fun _ => db_delete_agent id).

(* ================================================================== *)
(** * AgentPanel.jsx: the agent list and its form *)
(* ================================================================== *)

Definition INITIAL_FORM : AgentConfig :=
  {| name := EmptyString; role := EmptyString; goal := EmptyString;
     tools := "browser,cron"; schedule := "0 9 * * *"; sandbox := false |}.

(** [DEMO_AGENTS[type]]; the panel asks for "trending" and for "hashtag",
    and every other key the table does not hold is absent. *)
Definition DEMO_AGENTS (type : string) : option AgentConfig :=
  if String.eqb type "trending" then
    Some {| name := "Trending Topics Agent";
            role := "Content Creator";
            goal := "Search trending OpenClaw topics, write LinkedIn post, wait for approval, post via browser automation";
            tools := "browser,cron";
            schedule := "0 9 * * *";
            sandbox := false |}
  else if String.eqb type "hashtag" then
    Some {| name := "Hashtag Promoter Agent";
            role := "Community Promoter";
            goal := "Search LinkedIn for #openclaw posts, comment promoting GitHub repo and desktop app";
            tools := "browser,cron";
            schedule := "0 */1 * * *";
            sandbox := false |}
  else None.

(** The React state of the panel that the handlers read or write (the
    [running] flags of the cards are display state of the buttons). *)
Record AgentPanel : Type := {
  agents_state : list Agent.t;     (* [agents] *)
  showModal : bool;
  form : AgentConfig
}.


Definition setAgents (v : list Agent.t) (p : AgentPanel) : AgentPanel :=
  {| agents_state := v; showModal := showModal p; form := form p |}.

Definition setShowModal (v : bool) (p : AgentPanel) : AgentPanel :=
  {| agents_state := agents_state p; showModal := v; form := form p |}.

Definition setForm (v : AgentConfig) (p : AgentPanel) : AgentPanel :=
  {| agents_state := agents_state p; showModal := showModal p; form := v |}.

(** [loadAgents()] *)
Definition loadAgents : M (AgentPanel * World) unit :=
  try_catch (l <- liftW listAgents ;; assign (setAgents l)) (fun err => ret tt).

(** [handleCreate()].  [loadAgents()] is called without [await]; it
    catches what it throws, so the handler sees it return. *)
Definition handleCreate : M (AgentPanel * World) unit :=
  p <- this ;;
  match trim (name (form p)) with
  | EmptyString => ret tt
  | _ =>
      try_catch
        (liftW (createAgent (form p)) ;;
         liftW (addLog "system" ("Created agent: " +:+ name (form p)) "success"
                       (json_agent (form p)) EmptyString) ;;
         assign (setShowModal false) ;;
         assign (setForm INITIAL_FORM) ;;
         loadAgents)
        (fun err => ret tt)
  end.

(** [handleDelete(id, name)] *)
Definition handleDelete (id name : string) : M (AgentPanel * World) unit :=
  try_catch
    (liftW (deleteAgent id) ;;
     liftW (addLog "system" ("Deleted agent: " +:+ name) "info" EmptyString EmptyString) ;;
     loadAgents)
    (fun err => ret tt).

(** [createDemoAgent(type)] *)
Definition createDemoAgent (type : string) : M (AgentPanel * World) unit :=
  match DEMO_AGENTS type with
  | None => ret tt
  | Some demo =>
      try_catch
        (liftW (createAgent demo) ;;
         liftW (addLog "system" ("Created demo agent: " +:+ name demo) "success"
                       (json_agent demo) EmptyString) ;;
         loadAgents)
        (fun err => ret tt)
  end.

(** [s.split(sep)] for a one-character separator. *)
Fixpoint split (sep : ascii) (s : string) : list string :=
  match s with
  | EmptyString => [EmptyString]
  | String c s' =>
      if Ascii.eqb c sep then EmptyString :: split sep s'
      else match split sep s' with
           | field :: rest => String c field :: rest
           | [] => [String c EmptyString]
           end
  end.

(** What [AgentCard({ agent, isRunning, ... })] shows. *)
Record AgentCardView : Type := {
  sandbox_badge : bool;
  tool_badges : list string;
  schedule_text : string;
  execution_label : string;
  run_button : string
}.

Definition AgentCard (agent : Agent.t) (isRunning : bool) : AgentCardView :=
  {| sandbox_badge := sandbox agent;
     tool_badges := map trim (split ","%char (tools agent));
     schedule_text := or_else (Some (schedule agent)) "Manual";
     execution_label :=
       if includes (tools agent) "browser" then "Approval Required" else "Auto-execute";
     run_button :=
       if isRunning then (if sandbox agent then "Simulated" else "Queued") else "Run" |}.

(* ================================================================== *)
(** * SettingsPanel.jsx *)
(* ================================================================== *)

Module SettingsPanel.

(** The React state of the panel ([saved] is also cleared by a timer
    three seconds after it was set, which is not modelled). *)
Record t : Type := {
  llmProvider : string;
  apiKey : string;
  model : string;
  openclawInstalled : option bool;
  saving : bool;
  saved : bool;
  doctorOutput : string
}.

Definition mounted : t :=
  {| llmProvider := "local"; apiKey := EmptyString; model := EmptyString;
     openclawInstalled := None; saving := false; saved := false;
     doctorOutput := EmptyString |}.

Definition setLlmProvider (v : string) (p : t) : t :=
  {| llmProvider := v; apiKey := apiKey p; model := model p;
     openclawInstalled := openclawInstalled p; saving := saving p; saved := saved p;
     doctorOutput := doctorOutput p |}.

Definition setApiKey (v : string) (p : t) : t :=
  {| llmProvider := llmProvider p; apiKey := v; model := model p;
     openclawInstalled := openclawInstalled p; saving := saving p; saved := saved p;
     doctorOutput := doctorOutput p |}.

Definition setModel (v : string) (p : t) : t :=
  {| llmProvider := llmProvider p; apiKey := apiKey p; model := v;
     openclawInstalled := openclawInstalled p; saving := saving p; saved := saved p;
     doctorOutput := doctorOutput p |}.

Definition setOpenclawInstalled (v : option bool) (p : t) : t :=
  {| llmProvider := llmProvider p; apiKey := apiKey p; model := model p;
     openclawInstalled := v; saving := saving p; saved := saved p;
     doctorOutput := doctorOutput p |}.

Definition setSaving (v : bool) (p : t) : t :=
  {| llmProvider := llmProvider p; apiKey := apiKey p; model := model p;
     openclawInstalled := openclawInstalled p; saving := v; saved := saved p;
     doctorOutput := doctorOutput p |}.

Definition setSaved (v : bool) (p : t) : t :=
  {| llmProvider := llmProvider p; apiKey := apiKey p; model := model p;
     openclawInstalled := openclawInstalled p; saving := saving p; saved := v;
     doctorOutput := doctorOutput p |}.

Definition setDoctorOutput (v : string) (p : t) : t :=
  {| llmProvider := llmProvider p; apiKey := apiKey p; model := model p;
     openclawInstalled := openclawInstalled p; saving := saving p; saved := saved p;
     doctorOutput := v |}.

End SettingsPanel.

(** A component that holds the engine singleton beside its own state. *)
Definition WithEngine (P : Type) : Type := (P * LLMService) * World.

(** A call of a method of [llmService] from a component. *)
Definition liftE {P A : Type} (m : M Sys A) : M (WithEngine P) A :=
  fun '((p, t), w) => let '(r, (t', w')) := m (t, w) in (r, ((p, t'), w')).

(** A state setter of the component. *)
Definition setState {P : Type} (f : P -> P) : M (WithEngine P) unit :=
  assign (fun '(p, t) => (f p, t)).

(** The state of the component, as the handler's closure holds it. *)
Definition state {P : Type} : M (WithEngine P) P :=
  s <- this ;; ret (fst s).

(** [await Promise.all([m1, m2, m3])] *)
Definition promise_all3 {S A B C : Type} (m1 : M S A) (m2 : M S B) (m3 : M S C)
  : M S (A * B * C) :=
  fun s =>
    let '(r1, s1) := m1 s in
    let '(r2, s2) := m2 s1 in
    let '(r3, s3) := m3 s2 in
    match r1, r2, r3 with
    | Ok a, Ok b, Ok c => (Ok (a, b, c), s3)
    | Throw e, _, _ => (Throw e, s3)
    | _, Throw e, _ => (Throw e, s3)
    | _, _, Throw e => (Throw e, s3)
    end.

(** [loadSettings()] *)
Definition loadSettings : M (WithEngine SettingsPanel.t) unit :=
  try_catch
    (r <- liftW (promise_all3 (getSetting "llm_provider") (getSetting "llm_api_key")
                              (getSetting "llm_model")) ;;
     let '(provider, key, mod_) := r in
     (if truthy provider
      then setState (SettingsPanel.setLlmProvider (or_else provider EmptyString))
      else ret tt) ;;
     (if truthy key
      then setState (SettingsPanel.setApiKey (or_else key EmptyString)) else ret tt) ;;
     (if truthy mod_
      then setState (SettingsPanel.setModel (or_else mod_ EmptyString)) else ret tt))
    (fun _ => ret tt) ;;
  try_catch
    (installed <- liftW checkOpenClawInstalled ;;
     setState (SettingsPanel.setOpenclawInstalled (Some installed)))
    (fun _ => setState (SettingsPanel.setOpenclawInstalled (Some false))).

(** [handleSave()]; [finally] runs on both ways out of the [try]. *)
Definition handleSave : M (WithEngine SettingsPanel.t) unit :=
  p <- state ;;
  setState (SettingsPanel.setSaving true) ;;
  try_catch
    ((if truthy (Some (trim (SettingsPanel.apiKey p))) &&
         negb (String.eqb (SettingsPanel.llmProvider p) "local")
      then liftE (switchToAPI (SettingsPanel.llmProvider p) (SettingsPanel.apiKey p)
                              (Some (SettingsPanel.model p)))
      else liftE switchToLocal ;;
           setState (SettingsPanel.setApiKey EmptyString) ;;
           setState (SettingsPanel.setModel EmptyString) ;;
           setState (SettingsPanel.setLlmProvider "local")) ;;
     setState (SettingsPanel.setSaved true))
    (fun err => ret tt) ;;
  setState (SettingsPanel.setSaving false).

(** [handleRemoveKey()] *)
Definition handleRemoveKey : M (WithEngine SettingsPanel.t) unit :=
  liftE switchToLocal ;;
  setState (SettingsPanel.setApiKey EmptyString) ;;
  setState (SettingsPanel.setModel EmptyString) ;;
  setState (SettingsPanel.setLlmProvider "local") ;;
  setState (SettingsPanel.setSaved true).

(** [handleRunDoctor()] *)
Definition handleRunDoctor : M (WithEngine SettingsPanel.t) unit :=
  setState (SettingsPanel.setDoctorOutput "Running openclaw doctor...") ;;
  try_catch
    (result <- liftW openClawDoctor ;;
     setState (SettingsPanel.setDoctorOutput
                 (or_else (Some (stdout result))
                          (or_else (Some (stderr result)) "No output"))) ;;
     liftW (addLog "system" "Ran openclaw doctor"
                   (if success result then "success" else "error")
                   (stdout result) (stderr result)))
    (fun err => setState (SettingsPanel.setDoctorOutput ("Failed: " +:+ toString err))).

(* ================================================================== *)
(** * SchedulePanel.jsx *)
(* ================================================================== *)

Module SchedulePanel.

Record Preset : Type := { label : string; cron : string }.

Definition PRESET_SCHEDULES : list Preset :=
  [ {| label := "Every minute"; cron := "* * * * *" |};
    {| label := "Every 5 minutes"; cron := "*/5 * * * *" |};
    {| label := "Every 30 minutes"; cron := "*/30 * * * *" |};
    {| label := "Every hour"; cron := "0 */1 * * *" |};
    {| label := "Every 6 hours"; cron := "0 */6 * * *" |};
    {| label := "Daily at 9am"; cron := "0 9 * * *" |};
    {| label := "Daily at midnight"; cron := "0 0 * * *" |};
    {| label := "Monday at 8am"; cron := "0 8 * * 1" |};
    {| label := "Weekdays at 9am"; cron := "0 9 * * 1-5" |} ].

(** The map for well-known cron expressions, as the list of its entries;
    [NEXT_RUN_MAP[key]] is the value of the entry with that key.  (A key
    that names a property every object inherits holds no space, and so
    never reaches the lookup.) *)
Definition NEXT_RUN_MAP : list (string * string) :=
  [ ("0 9 * * *", "Tomorrow at 9:00 AM");
    ("0 */1 * * *", "Next hour");
    ("*/30 * * * *", "In 30 minutes");
    ("* * * * *", "In 1 minute") ].

Definition lookup_key (key : string) (m : list (string * string)) : option string :=
  snd <$> find (fun kv => String.eqb (fst kv) key) m.

(** [calculateNextRun(cron)] *)
Definition calculateNextRun (cron : string) : string :=
  if negb (length (split " "%char cron) =? 5) then "Invalid cron"
  else or_else (lookup_key cron NEXT_RUN_MAP) ("Cron: " +:+ cron).

(** [cronToText(cron)] *)
Definition cronToText (cron : string) : string :=
  match find (fun p => String.eqb (SchedulePanel.cron p) cron) PRESET_SCHEDULES with
  | Some preset => label preset
  | None => cron
  end.

(** A row of the schedule table. *)
Record Schedule : Type := {
  id : string;
  agentName : string;
  schedule_cron : string;       (* [cron] *)
  enabled : bool;
  nextRun : string
}.

(** The rows derived from the agents: one for each agent that has a
    schedule which is not blank. *)
Definition derived (agents : list Agent.t) : list Schedule :=
  map (fun a : Agent.t =>
         {| id := Agent.id a; agentName := name a; schedule_cron := schedule a;
            enabled := true; nextRun := calculateNextRun (schedule a) |})
      (List.filter (fun a : Agent.t =>
                      truthy (Some (schedule a)) && truthy (Some (trim (schedule a))))
                   agents).

(** [loadData()]; the state of the panel is the list [schedules]. *)
Definition loadData : M (list Schedule * World) unit :=
  try_catch
    (agents <- liftW listAgents ;;
     assign (fun _ => derived agents))
    (fun err => ret tt).

End SchedulePanel.

(* ================================================================== *)
(** * src/utils/storage.js and src/utils/formatters.js *)
(* ================================================================== *)

(** [getChatTitle(messages, maxLen = 35)]; the callers pass no [maxLen].
    Lengths are counted in characters of the string as modelled, which are
    JavaScript's on ASCII text. *)
Definition getChatTitle (messages : list Message.t) (maxLen : nat) : string :=
  match find (fun m => String.eqb (Message.role m) "user") messages with
  | None => "New Chat"
  | Some first =>
      let text := trim (Message.content first) in
      if maxLen <? String.length text
      then String.substring 0 maxLen text +:+ "…"
      else text
  end.

(** [String(n)] for an integer that is not negative. *)
Definition string_of_Z (n : Z) : string := string_of_N (Z.to_N n).

(** [formatTimeAgo(timestamp)].  The two times are integers of
    milliseconds ([now] is the reading of [Date.now()]), on which
    [Math.floor(a / b)] is the floor division; the date a week-old
    timestamp is shown as comes from the locale ([toLocaleDateString]). *)
Definition formatTimeAgo (toLocaleDateString : Z -> string) (now timestamp : Z) : string :=
  let diff := (now - timestamp)%Z in
  let mins := (diff / 60000)%Z in
  if (mins <? 1)%Z then "Just now"
  else if (mins <? 60)%Z then string_of_Z mins +:+ "m ago"
  else
    let hours := (mins / 60)%Z in
    if (hours <? 24)%Z then string_of_Z hours +:+ "h ago"
    else
      let days := (hours / 24)%Z in
      if (days <? 7)%Z then string_of_Z days +:+ "d ago"
      else toLocaleDateString timestamp.

(* ================================================================== *)
(** * ChatPanel.jsx: sending a message *)
(* ================================================================== *)

Module Session.
Record t : Type := {
  id : string;
  title : string;
  messages : list Message.t;
  createdAt : Z;
  updatedAt : Z
}.
End Session.

(** The React state of the chat panel.  The copies of the sessions that
    the panel writes to [localStorage] ([saveSessions], which fails
    silently) are not modelled. *)
Record ChatPanel : Type := {
  sessions : list Session.t;
  activeSessionId : option string;
  messages : list Message.t;
  input : string;
  isLoading : bool
}.

Definition WELCOME_MESSAGE : Message.t :=
  {| Message.role := "assistant";
     Message.content :=
       lines
         [ "👋 Welcome to **OpenClaw Desktop Assistant**! 🦞";
           EmptyString;
           "I'm here to help you automate tasks without using the command line. Here's what I can do:";
           EmptyString;
           "- 🔧 **" +:+ dq +:+ "Setup OpenClaw" +:+ dq +:+ "** — Install and configure everything";
           "- 🤖 **" +:+ dq +:+ "Create an agent" +:+ dq +:+ "** — Build automations via chat";
           "- 📈 **" +:+ dq +:+ "Create trending agent" +:+ dq +:+ "** — LinkedIn trending topics agent";
           "- #️⃣ **" +:+ dq +:+ "Create hashtag agent" +:+ dq +:+ "** — #openclaw comment agent";
           "- ⏰ **" +:+ dq +:+ "Schedule a task" +:+ dq +:+ "** — Set up cron jobs";
           "- 🧪 **" +:+ dq +:+ "Enable sandbox mode" +:+ dq +:+ "** — Test safely";
           "- ❓ **" +:+ dq +:+ "Help" +:+ dq +:+ "** — See all commands";
           EmptyString;
           "Just type naturally and I'll guide you through everything!" ] |}.

Definition ChatPanel_mounted (stored : list Session.t) : ChatPanel :=
  {| sessions := stored; activeSessionId := None; messages := [WELCOME_MESSAGE];
     input := EmptyString; isLoading := false |}.

Definition setSessions (f : list Session.t -> list Session.t) (p : ChatPanel) : ChatPanel :=
  {| sessions := f (sessions p); activeSessionId := activeSessionId p;
     messages := messages p; input := input p; isLoading := isLoading p |}.

Definition setActiveSessionId (v : option string) (p : ChatPanel) : ChatPanel :=
  {| sessions := sessions p; activeSessionId := v; messages := messages p;
     input := input p; isLoading := isLoading p |}.

Definition setMessages (f : list Message.t -> list Message.t) (p : ChatPanel) : ChatPanel :=
  {| sessions := sessions p; activeSessionId := activeSessionId p;
     messages := f (messages p); input := input p; isLoading := isLoading p |}.

Definition setInput (v : string) (p : ChatPanel) : ChatPanel :=
  {| sessions := sessions p; activeSessionId := activeSessionId p; messages := messages p;
     input := v; isLoading := isLoading p |}.

Definition setIsLoading (v : bool) (p : ChatPanel) : ChatPanel :=
  {| sessions := sessions p; activeSessionId := activeSessionId p; messages := messages p;
     input := input p; isLoading := v |}.

(** [`${err.message}`]: the message of an [Error], and "undefined" for a
    thrown value that is not an object. *)
Definition message_text (e : Thrown) : string :=
  match e with
  | ErrorObj m => m
  | Rejected _ => "undefined"
  end.

(** [handleSend()], with the readings of [generateId()] and [Date.now()]
    as arguments. *)
Definition handleSend (newId : string) (nowMs : Z) : M (WithEngine ChatPanel) unit :=
  p <- state ;;
  let text := trim (input p) in
  if negb (truthy (Some text)) || isLoading p then ret tt
  else
    (* Auto-create session on first message *)
    (if negb (truthy (activeSessionId p)) then
       setState (setSessions (fun prev =>
         {| Session.id := newId;
            Session.title := getChatTitle [{| Message.role := "user"; Message.content := text |}] 35;
            Session.messages :=
              messages p ++ [{| Message.role := "user"; Message.content := text |}];
            Session.createdAt := nowMs;
            Session.updatedAt := nowMs |} :: prev)) ;;
       setState (setActiveSessionId (Some newId))
     else ret tt) ;;
    setState (setInput EmptyString) ;;
    setState (setMessages (fun prev =>
      prev ++ [{| Message.role := "user"; Message.content := text |}])) ;;
    setState (setIsLoading true) ;;
    try_catch
      (response <- liftE (sendMessage text) ;;
       setState (setMessages (fun prev =>
         prev ++ [{| Message.role := "assistant"; Message.content := response |}])))
      (fun err =>
         setState (setMessages (fun prev =>
           prev ++ [{| Message.role := "assistant";
                       Message.content :=
                         "❌ Error: " +:+ message_text err +:+ nl +:+ nl +:+
                         "Please try again." |}]))) ;;
    setState (setIsLoading false).

(** The listeners of the sidebar's events.  They run to their end without
    a call into the outside world, so each is a function of the state of
    the panel and of the engine. *)

(** [onNewChat()], with the readings of [generateId()] and [Date.now()]. *)
Definition onNewChat (newId : string) (nowMs : Z) (s : ChatPanel * LLMService)
  : ChatPanel * LLMService :=
  let '(p, t) := s in
  let hasUserMessages :=
    existsb (fun m => String.eqb (Message.role m) "user") (messages p) in
  if truthy (activeSessionId p) && negb hasUserMessages then
    (setMessages (fun _ => [WELCOME_MESSAGE]) p, t)
  else
    let newSession :=
      {| Session.id := newId; Session.title := "New Chat";
         Session.messages := [WELCOME_MESSAGE];
         Session.createdAt := nowMs; Session.updatedAt := nowMs |} in
    (setInput EmptyString
       (setMessages (fun _ => [WELCOME_MESSAGE])
          (setActiveSessionId (Some newId)
             (setSessions (fun prev => newSession :: prev) p))),
     clearHistory t).

(** [onSwitch(e)], with [e.detail] as argument. *)
Definition onSwitch (session : Session.t) (s : ChatPanel * LLMService)
  : ChatPanel * LLMService :=
  let '(p, t) := s in
  (setInput EmptyString
     (setMessages (fun _ => Session.messages session)
        (setActiveSessionId (Some (Session.id session)) p)),
   clearHistory t).

(** [onDelete(e)], with [e.detail] as argument. *)
Definition onDelete (deletedId : string) (s : ChatPanel * LLMService)
  : ChatPanel * LLMService :=
  let '(p, t) := s in
  let p1 :=
    setSessions (List.filter (fun x => negb (String.eqb (Session.id x) deletedId))) p in
  if match activeSessionId p with
     | Some active => String.eqb active deletedId
     | None => false
     end
  then
    (setInput EmptyString
       (setMessages (fun _ => [WELCOME_MESSAGE]) (setActiveSessionId None p1)),
     clearHistory t)
  else (p1, t).

(* ================================================================== *)
(** * More notions the statements use *)
(* ================================================================== *)

Definition user_says (text : string) : Message.t :=
  {| Message.role := "user"; Message.content := text |}.

Definition assistant_says (text : string) : Message.t :=
  {| Message.role := "assistant"; Message.content := text |}.

(** The engine [switchToAPI] leaves, whatever the store answers. *)
Definition switched (provider apiKey : string) (model : option string) (t : LLMService)
  : LLMService :=
  set_model (Some (or_else model (_defaultModel provider)))
            (set_apiKey (Some apiKey) (set_mode provider t)).

(** The three settings [switchToAPI] writes, in the order it writes them. *)
Definition api_settings (provider apiKey : string) (model : option string)
  : list (string * string) :=
  [ ("llm_provider", provider); ("llm_api_key", apiKey);
    ("llm_model", or_else model (_defaultModel provider)) ].

Definition write_all (l : list (string * string)) (m : gmap string string)
  : gmap string string :=
  fold_left (fun m kv => <[fst kv := snd kv]> m) l m.


(** The commands of the setup sequence, in the order it runs them, and the
    pauses it makes between its steps. *)
Definition setup_commands : list Event :=
  [ EShell "node" ["--version"];
    EShell "npm" ["install"; "-g"; "openclaw@latest"];
    EShell "openclaw" ["onboard"; "--non-interactive"];
    EShell "openclaw" ["gateway"; "--port"; "18789"] ].

Definition is_delay (e : Event) : bool :=
  match e with EDelay _ => true | _ => false end.

(* ================================================================== *)
(** * The operations of the front-end, and what they keep *)
(* ================================================================== *)

(** [setFilter(value)] of the Logs panel. *)
Definition setFilter (v : string) (p : LogsPanel) : LogsPanel :=
  {| logs_state := logs_state p; approvals_state := approvals_state p; filter := v;
     loading := loading p |}.

(** The statuses the filter of the log table offers. *)
Definition known_status (status : string) : bool :=
  String.eqb status "success" || String.eqb status "error" || String.eqb status "info".

(** The log of [w'] is the log of [w] followed by entries of the known
    statuses. *)
Definition appends_known (w w' : World) : Prop :=
  exists new, logs (db w') = logs (db w) ++ new /\
              Forall (fun e => known_status (Log.status e) = true) new.

(** One operation of the front-end, with the state of the component that
    performs it: a method of the engine, a handler or loader of a panel, or
    a shell wrapper of the service layer. *)
Inductive Op : Type :=
| Initialize (t : LLMService)
| SwitchToAPI (provider apiKey : string) (model : option string) (t : LLMService)
| SwitchToLocal (t : LLMService)
| SendMessage (text : string) (t : LLMService)
| HandleRun (agent : Agent.t)
| LoadAgents (p : AgentPanel)
| HandleCreate (p : AgentPanel)
| HandleDelete (id name : string) (p : AgentPanel)
| CreateDemoAgent (type : string) (p : AgentPanel)
| LoadLogs (p : LogsPanel)
| HandleApproval (id : nat) (status : string) (p : LogsPanel)
| LoadSchedules (rows : list SchedulePanel.Schedule)
| LoadSettings (s : SettingsPanel.t * LLMService)
| HandleSave (s : SettingsPanel.t * LLMService)
| HandleRemoveKey (s : SettingsPanel.t * LLMService)
| HandleRunDoctor (s : SettingsPanel.t * LLMService)
| HandleSend (newId : string) (nowMs : Z) (s : ChatPanel * LLMService)
| CheckOpenClawInstalled
| CheckNodeInstalled
| InstallOpenClaw
| RunOpenClawOnboard
| OpenClawDoctor
| StartGateway (port : N)
| OpenClawCronAdd (name cronExpr message : string) (opts : CronOpts)
| OpenClawCronList
| OpenClawAgentMessage (message : string).

(** The world an operation leaves. *)
Definition perform (o : Op) (w : World) : World :=
  match o with
  | Initialize t => snd (snd (initialize (t, w)))
  | SwitchToAPI provider apiKey model t => snd (snd (switchToAPI provider apiKey model (t, w)))
  | SwitchToLocal t => snd (snd (switchToLocal (t, w)))
  | SendMessage text t => snd (snd (sendMessage text (t, w)))
  | HandleRun agent => snd (handleRun agent w)
  | LoadAgents p => snd (snd (loadAgents (p, w)))
  | HandleCreate p => snd (snd (handleCreate (p, w)))
  | HandleDelete id name p => snd (snd (handleDelete id name (p, w)))
  | CreateDemoAgent type p => snd (snd (createDemoAgent type (p, w)))
  | LoadLogs p => snd (snd (loadData (p, w)))
  | HandleApproval id status p => snd (snd (handleApproval id status (p, w)))
  | LoadSchedules rows => snd (snd (SchedulePanel.loadData (rows, w)))
  | LoadSettings s => snd (snd (loadSettings (s, w)))
  | HandleSave s => snd (snd (handleSave (s, w)))
  | HandleRemoveKey s => snd (snd (handleRemoveKey (s, w)))
  | HandleRunDoctor s => snd (snd (handleRunDoctor (s, w)))
  | HandleSend newId nowMs s => snd (snd (handleSend newId nowMs (s, w)))
  | CheckOpenClawInstalled => snd (checkOpenClawInstalled w)
  | CheckNodeInstalled => snd (checkNodeInstalled w)
  | InstallOpenClaw => snd (installOpenClaw w)
  | RunOpenClawOnboard => snd (runOpenClawOnboard w)
  | OpenClawDoctor => snd (openClawDoctor w)
  | StartGateway port => snd (startGateway port w)
  | OpenClawCronAdd name cronExpr message opts =>
      snd (openClawCronAdd name cronExpr message opts w)
  | OpenClawCronList => snd (openClawCronList w)
  | OpenClawAgentMessage message => snd (openClawAgentMessage message w)
  end.

(** The operations that send a chat turn to the engine. *)
Definition is_turn (o : Op) : bool :=
  match o with SendMessage _ _ | HandleSend _ _ _ => true | _ => false end.

(** What an operation may do, as the code is written: request a remote
    inference; run a shell command; write the settings, the agents or the
    approvals. *)
Definition may_request (o : Op) : bool := is_turn o.

Definition may_run_shell (o : Op) : bool :=
  match o with
  | LoadSettings _ | HandleRunDoctor _
  | CheckOpenClawInstalled | CheckNodeInstalled | InstallOpenClaw | RunOpenClawOnboard
  | OpenClawDoctor | StartGateway _ | OpenClawCronAdd _ _ _ _ | OpenClawCronList
  | OpenClawAgentMessage _ => true
  | _ => is_turn o
  end.

Definition may_write_settings (o : Op) : bool :=
  match o with
  | SwitchToAPI _ _ _ _ | SwitchToLocal _ | HandleSave _ | HandleRemoveKey _ => true
  | _ => false
  end.

Definition may_write_agents (o : Op) : bool :=
  match o with
  | HandleCreate _ | HandleDelete _ _ _ | CreateDemoAgent _ _ => true
  | _ => is_turn o
  end.

Definition may_write_approvals (o : Op) : bool :=
  match o with
  | HandleRun _ | HandleApproval _ _ _ => true
  | _ => is_turn o
  end.

(** A table of the database is the same in two worlds. *)
Definition same_table {A : Type} (table : Db -> A) (w w' : World) : Prop :=
  table (db w') = table (db w).

Inductive operation : World -> World -> Prop :=
| operation_intro (o : Op) (w : World) : operation w (perform o w).

(** A session of the application: operations one after the other. *)
Inductive session_run : World -> World -> Prop :=
| session_nil w : session_run w w
| session_step w1 w2 w3 : operation w1 w2 -> session_run w2 w3 -> session_run w1 w3.

(** The relation that holds between any two states of a component. *)
Definition anything {T : Type} : T -> T -> Prop := fun _ _ => True.

(** How many times a character occurs in a string. *)
Fixpoint count_char (c : ascii) (s : string) : nat :=
  match s with
  | EmptyString => 0
  | String d s' => (if Ascii.eqb d c then 1 else 0) + count_char c s'
  end.

(** A schedule that is not blank. *)
Definition has_schedule (a : Agent.t) : bool :=
  negb (String.eqb (trim (schedule a)) EmptyString).

(* ================================================================== *)
(** * More sample inputs *)
(* ================================================================== *)

(** A store that rejects its fifth call and no other. *)
Definition hiccup_env : Env :=
  {| clock := "11/2/2026, 9:00:00 AM";
     userAgent := "Mozilla/5.0 (Macintosh; Intel Mac OS X 10_15_7)";
     ipc := fun n => if n =? 4 then Some (Rejected "database is locked") else None;
     shell := fun _ => Exit 0 EmptyString EmptyString;
     http := fun _ => HttpOk "Happy to help." |}.

(** The world after the first provider was configured from the settings
    panel, the store having accepted the four calls. *)
Definition configured (e : Env) : World :=
  snd (snd (switchToAPI "openai" "sk-test" None (constructor, boot e))).

(** A store that rejects its second call and no other. *)
Definition stumble_env : Env :=
  {| clock := "11/2/2026, 9:00:00 AM";
     userAgent := "Mozilla/5.0 (X11; Linux x86_64)";
     ipc := fun n => if n =? 1 then Some (Rejected "database is locked") else None;
     shell := fun _ => Exit 0 EmptyString EmptyString;
     http := fun _ => HttpOk "Happy to help." |}.
(* ================================================================== *)
(** * Properties *)
(* ================================================================== *)

(** ** Strings *)

Lemma prefix_append (a b : string) : String.prefix a (a +:+ b) = true.
Proof.
  induction a as [|c a IH]; simpl.
  - now destruct b.
  - destruct (ascii_dec c c) as [_|Hc]; [exact IH | now destruct Hc].
Qed.

Lemma prefix_includes (s x : string) : String.prefix x s = true -> includes s x = true.
Proof. intros H. destruct s; cbn [includes]; rewrite H; reflexivity. Qed.

Lemma includes_append_r (p s x : string) :
  includes s x = true -> includes (p +:+ s) x = true.
Proof.
  intros H. induction p as [|c p IH]; [exact H|].
  change (String c p +:+ s) with (String c (p +:+ s)).
  cbn [includes]. rewrite IH. apply orb_true_r.
Qed.

Lemma includes_infix (p x q : string) : includes (p +:+ x +:+ q) x = true.
Proof. apply includes_append_r, prefix_includes, prefix_append. Qed.

Lemma append_cons (c : ascii) (s q : string) : String c s +:+ q = String c (s +:+ q).
Proof. reflexivity. Qed.

Lemma prefix_empty (s : string) : String.prefix EmptyString s = true.
Proof. now destruct s. Qed.

Lemma prefix_refl (s : string) : String.prefix s s = true.
Proof.
  induction s as [|c s IH]; [reflexivity|]. cbn [String.prefix].
  destruct (ascii_dec c c) as [_|Hc]; [exact IH | now destruct Hc].
Qed.

Lemma prefix_append_l (x s q : string) :
  String.prefix x s = true -> String.prefix x (s +:+ q) = true.
Proof.
  revert x. induction s as [|d s IH]; intros x H.
  - destruct x; [apply prefix_empty | discriminate].
  - destruct x as [|c x]; [reflexivity|]. rewrite append_cons.
    cbn [String.prefix] in *.
    destruct (ascii_dec c d); [auto|discriminate].
Qed.

Lemma includes_append_l (s q x : string) :
  includes s x = true -> includes (s +:+ q) x = true.
Proof.
  induction s as [|c s IH]; cbn [includes]; intros H.
  - rewrite orb_false_r in H. apply prefix_includes.
    now apply (prefix_append_l x EmptyString q).
  - rewrite append_cons. cbn [includes].
    apply orb_true_iff in H as [H|H].
    + rewrite <- append_cons, (prefix_append_l x (String c s) q H). reflexivity.
    + rewrite (IH H). apply orb_true_r.
Qed.

Lemma includes_suffix (p x : string) : includes (p +:+ x) x = true.
Proof. apply includes_append_r, prefix_includes, prefix_refl. Qed.

Lemma toLowerCase_or_else (s : string) :
  toLowerCase (or_else (Some s) EmptyString) = toLowerCase s.
Proof. now destruct s. Qed.

Lemma lines_cons (x y : string) (l : list string) :
  lines (x :: y :: l) = x +:+ nl +:+ lines (y :: l).
Proof. reflexivity. Qed.

(** ** [detectAgentType] *)

(** C10.  [detectAgentType] is a total function of a text that may be
    absent: whatever the text ([null]/[undefined], the empty string or any
    string) it returns one of "trending", "hashtag" or "generic" (it has no
    throwing path); a lower-cased text that holds "trending" yields
    "trending", also when it holds "hashtag" or "#openclaw" as well; without
    "trending", "hashtag" or "#openclaw" yields "hashtag"; a text that holds
    none of the three words, the empty and the absent text among them,
    yields "generic". *)
Theorem detectAgentType_total (text : option string) :
  let lower := toLowerCase (or_else text EmptyString) in
  (detectAgentType text = "trending" \/ detectAgentType text = "hashtag" \/
   detectAgentType text = "generic") /\
  (includes lower "trending" = true -> detectAgentType text = "trending") /\
  (includes lower "trending" = false ->
   includes lower "hashtag" || includes lower "#openclaw" = true ->
   detectAgentType text = "hashtag") /\
  (includes lower "trending" = false ->
   includes lower "hashtag" = false -> includes lower "#openclaw" = false ->
   detectAgentType text = "generic") /\
  detectAgentType None = "generic" /\
  detectAgentType (Some EmptyString) = "generic".
Proof.
  intros lower. unfold detectAgentType. fold lower.
  repeat split.
  - destruct (includes lower "trending"); [now left|].
    destruct (includes lower "hashtag" || includes lower "#openclaw"); auto.
  - now intros ->.
  - now intros -> ->.
  - now intros -> -> ->.
Qed.

(** The text of the second demo agent's name and goal, mixed case, with
    both vocabularies in it: "trending" wins. *)
Lemma detectAgentType_priority_witness :
  includes (toLowerCase "Trending #OpenClaw Hashtag digest") "trending" = true /\
  includes (toLowerCase "Trending #OpenClaw Hashtag digest") "hashtag" = true /\
  detectAgentType (Some "Trending #OpenClaw Hashtag digest") = "trending".
Proof.
  split; [reflexivity|]. split; [reflexivity|].
  apply (detectAgentType_total (Some "Trending #OpenClaw Hashtag digest")).
  reflexivity.
Defined.

Lemma auto_output_names_agent (agent : AgentConfig) (stamp : string) :
  includes (buildAutoExecuteOutput agent stamp) (name agent) = true.
Proof.
  unfold buildAutoExecuteOutput, lines. cbn [String.concat].
  do 4 apply includes_append_r.
  apply includes_append_l, includes_suffix.
Qed.

(** ** Calls into the backend *)

Lemma invoke_resolved {A : Type} (c : Command) (f : World -> Db -> A * Db) (w : World) :
  ipc (env w) (n_ipc w) = None ->
  invoke c f w = (Ok (fst (f w (db w))), ipc_done c true (snd (f w (db w))) w).
Proof. intros H. unfold invoke. rewrite H. now destruct (f w (db w)). Qed.

Lemma invoke_rejected {A : Type} (c : Command) (f : World -> Db -> A * Db) (w : World)
      (e : Thrown) :
  ipc (env w) (n_ipc w) = Some e ->
  invoke c f w = (Throw e, ipc_done c false (db w) w).
Proof. intros H. unfold invoke. now rewrite H. Qed.

Lemma addLog_run (agentId action status output error : string) (w : World) :
  addLog agentId action status output error w =
  match ipc (env w) (n_ipc w) with
  | None =>
      (Ok tt,
       ipc_done (add_log agentId action status output error) true
         {| settings := settings (db w); agents := agents (db w);
            logs := logs (db w) ++ [log_row (length (logs (db w))) agentId action status output error (clock (env w))];
            approvals := approvals (db w) |} w)
  | Some e =>
      (Throw e, ipc_done (add_log agentId action status output error) false (db w) w)
  end.
Proof. unfold addLog, invoke. now destruct (ipc (env w) (n_ipc w)). Qed.

Lemma addApproval_run (agentId actionType preview : string) (w : World) :
  addApproval agentId actionType preview w =
  match ipc (env w) (n_ipc w) with
  | None =>
      (Ok (length (approvals (db w))),
       ipc_done (add_approval agentId actionType preview) true
         {| settings := settings (db w); agents := agents (db w); logs := logs (db w);
            approvals := approvals (db w) ++ [approval_row (length (approvals (db w))) agentId actionType preview (clock (env w))] |} w)
  | Some e =>
      (Throw e, ipc_done (add_approval agentId actionType preview) false (db w) w)
  end.
Proof. unfold addApproval, invoke. now destruct (ipc (env w) (n_ipc w)). Qed.


Lemma entries_with_app (st : string) (l1 l2 : list Log.t) :
  entries_with st (l1 ++ l2) = entries_with st l1 ++ entries_with st l2.
Proof. apply List.filter_app. Qed.

(** ** The execution dispatcher *)

(** C2.  A successful run of the dispatcher (the body of the [try] of
    [handleRun] completes) takes exactly one branch and has exactly the
    effects of that branch.  Sandbox: one new log entry, of status
    success, whose action carries the [SANDBOX] marker, and no approval
    item.  Otherwise, tools holding "browser": one new approval item, of
    status pending, one new log entry, of status info, and no new success
    entry.  Otherwise: one new log entry, of status success, whose output is
    the auto-execute report, which holds the agent's name.  Settings and
    agents are untouched. *)
Theorem handleRun_success_effects (agent : Agent.t) (w w' : World) :
  dispatch agent w = (Ok tt, w') ->
  handleRun agent w = (Ok tt, w') /\
  settings (db w') = settings (db w) /\ agents (db w') = agents (db w) /\
  if sandbox agent then
    approvals (db w') = approvals (db w) /\
    exists e, logs (db w') = logs (db w) ++ [e] /\
      Log.status e = "success" /\ Log.agent_id e = Agent.id agent /\
      Log.action e = "[SANDBOX] Dry-run: " +:+ name agent /\
      String.prefix "[SANDBOX]" (Log.action e) = true /\
      Log.output e = buildSandboxOutput (name agent) (goal agent) (clock (env w))
  else if includes (tools agent) "browser" then
    (exists a, approvals (db w') = approvals (db w) ++ [a] /\
       Approval.status a = "pending" /\ Approval.agent_id a = Agent.id agent /\
       Approval.action_type a = "agent_execution") /\
    (exists e, logs (db w') = logs (db w) ++ [e] /\
       Log.status e = "info" /\ Log.agent_id e = Agent.id agent /\
       Log.action e = "Queued for approval: " +:+ name agent) /\
    entries_with "success" (logs (db w')) = entries_with "success" (logs (db w))
  else
    approvals (db w') = approvals (db w) /\
    exists e, logs (db w') = logs (db w) ++ [e] /\
      Log.status e = "success" /\ Log.agent_id e = Agent.id agent /\
      Log.action e = "Executed: " +:+ name agent /\
      Log.output e = buildAutoExecuteOutput agent (clock (env w)) /\
      includes (Log.output e) (name agent) = true.
Proof.
  intros H. split.
  { unfold handleRun, try_catch. now rewrite H. }
  unfold dispatch in H.
  destruct (sandbox agent).
  - unfold bind, now, read in H. rewrite addLog_run in H.
    destruct (ipc (env w) (n_ipc w)); [discriminate|].
    injection H as <-. cbn. repeat split. eexists. repeat split.
  - destruct (includes (tools agent) "browser").
    + unfold bind in H. rewrite addApproval_run in H.
      destruct (ipc (env w) (n_ipc w)); [discriminate|].
      rewrite addLog_run in H. cbn in H.
      destruct (ipc (env w) (S (n_ipc w))); [discriminate|].
      injection H as <-. cbn -[entries_with]. repeat split; try (eexists; repeat split).
      rewrite entries_with_app. apply app_nil_r.
    + unfold bind, now, read in H. rewrite addLog_run in H.
      destruct (ipc (env w) (n_ipc w)); [discriminate|].
      injection H as <-. cbn. repeat split. eexists. repeat split.
      apply auto_output_names_agent.
Qed.

(** The scenario of the spec: agent "X" with tools "cron", not sandboxed. *)
Lemma handleRun_success_witness :
  handleRun agent_x (boot quiet_env) = (Ok tt, snd (dispatch agent_x (boot quiet_env))) /\
  map Log.status (logs (db (snd (handleRun agent_x (boot quiet_env))))) = ["success"] /\
  approvals (db (snd (handleRun agent_x (boot quiet_env)))) = [].
Proof.
  split; [|split; vm_compute; reflexivity].
  apply (handleRun_success_effects agent_x (boot quiet_env)).
  vm_compute. reflexivity.
Defined.

(** C6, as amended.  A non-sandbox agent whose tools hold "browser" is
    classified by its name alone: the goal is not looked at.  The preview
    is the label of that class, the name and the goal, and, once the store
    accepts it, it is what the new pending approval item holds; a name with
    none of the vocabulary words gets the label of the generic class
    whatever the goal says. *)
Theorem browser_dispatch_preview (agent : Agent.t) (w : World) :
  sandbox agent = false ->
  includes (tools agent) "browser" = true ->
  ipc (env w) (n_ipc w) = None ->
  let type := detectAgentType (Some (name agent)) in
  let preview := preview_prefix type +:+ " " +:+ name agent +:+ ": " +:+ goal agent in
  approvals (db (snd (handleRun agent w))) =
    approvals (db w) ++
    [approval_row (length (approvals (db w))) (Agent.id agent) "agent_execution" preview (clock (env w))] /\
  Approval.status
    (approval_row (length (approvals (db w))) (Agent.id agent) "agent_execution" preview (clock (env w)))
    = "pending" /\
  (type = "trending" <-> includes (toLowerCase (name agent)) "trending" = true) /\
  (includes (toLowerCase (name agent)) "trending" = false ->
   includes (toLowerCase (name agent)) "hashtag" = false ->
   includes (toLowerCase (name agent)) "#openclaw" = false ->
   preview = "[Agent] " +:+ name agent +:+ ": " +:+ goal agent).
Proof.
  intros Hs Hb Hipc type preview. repeat split.
  - unfold handleRun, try_catch, dispatch. rewrite Hs, Hb.
    fold type. fold preview. unfold bind.
    rewrite addApproval_run, Hipc, !addLog_run. cbn [n_ipc ipc_done env].
    destruct (ipc (env w) (S (n_ipc w))); [|reflexivity].
    rewrite addLog_run. cbn [n_ipc ipc_done env].
    destruct (ipc (env w) (S (S (n_ipc w)))); reflexivity.
  - subst type. unfold detectAgentType. rewrite toLowerCase_or_else.
    destruct (includes (toLowerCase (name agent)) "trending"); [reflexivity|].
    destruct (_ || _); discriminate.
  - subst type. unfold detectAgentType. rewrite toLowerCase_or_else.
    now intros ->.
  - intros H1 H2 H3. subst preview type. unfold detectAgentType.
    rewrite toLowerCase_or_else, H1, H2, H3. reflexivity.
Qed.

Lemma browser_dispatch_preview_witness :
  map Approval.content_preview (approvals (db (snd (handleRun agent_y (boot quiet_env)))))
  = ["[Agent] Y: Post the summary"].
Proof.
  rewrite (proj1 (browser_dispatch_preview agent_y (boot quiet_env)
                    eq_refl eq_refl eq_refl)).
  vm_compute. reflexivity.
Defined.

(** The goal speaks of trending topics, the name does not: the agent is
    queued under the generic label. *)
Lemma goal_is_not_consulted :
  sandbox agent_poster = false /\
  includes (tools agent_poster) "browser" = true /\
  includes (toLowerCase (goal agent_poster)) "trending" = true /\
  includes (toLowerCase (name agent_poster)) "trending" = false /\
  detectAgentType (Some (name agent_poster)) = "generic" /\
  map Approval.content_preview
      (approvals (db (snd (handleRun agent_poster (boot quiet_env)))))
  = ["[Agent] Poster: find trending topics"].
Proof. repeat split; vm_compute; reflexivity. Qed.

(** ** The approval workflow *)

Lemma updateApproval_run (id : nat) (status : string) (w : World) :
  updateApproval id status w =
  match ipc (env w) (n_ipc w) with
  | None =>
      (Ok tt,
       ipc_done (update_approval id status) true
         {| settings := settings (db w); agents := agents (db w); logs := logs (db w);
            approvals := map (fun a => if Approval.id a =? id then set_status status a else a)
                             (approvals (db w)) |} w)
  | Some e => (Throw e, ipc_done (update_approval id status) false (db w) w)
  end.
Proof. unfold updateApproval, invoke. now destruct (ipc (env w) (n_ipc w)). Qed.

(** Case analysis on the answer to the next IPC call in the goal. *)
Ltac case_ipc :=
  cbn [n_ipc ipc_done env db];
  match goal with
  | |- context [match ipc ?e ?n with _ => _ end] =>
      let E := fresh "Eipc" in destruct (ipc e n) eqn:E
  end;
  cbn [n_ipc ipc_done env db].

(** [loadData] reads: the database is as before, and the trace only grows. *)
Lemma loadData_reads (p : LogsPanel) (w : World) :
  fst (loadData (p, w)) = Ok tt /\
  db (snd (snd (loadData (p, w)))) = db w /\
  exists rest, trace (snd (snd (loadData (p, w)))) = trace w ++ rest.
Proof.
  unfold loadData, bind, try_catch, assign, liftW, promise_all, getLogs, getApprovals,
    invoke, ret.
  do 2 case_ipc; cbn; (split; [reflexivity|split; [reflexivity|]]);
    rewrite <- app_assoc; eexists; reflexivity.
Qed.

(** C3.  [handleApproval] never throws.  Its first effect is the status
    update: when that call fails nothing else is attempted, the database
    is as before and no log entry is written.  When it succeeds the row's
    status is overwritten and one [add_log] call follows, which appends one
    entry when the store accepts it (none otherwise), attributed to the
    agent identifier of the item the panel holds under that id, or to
    "system" when there is none.  On "approved" the entry has status
    success; on any other status (the reject button sends "rejected") it
    has status info and its output holds the item's content preview. *)
Theorem handleApproval_effects (id : nat) (status : string) (p : LogsPanel) (w : World) :
  let item := find (fun a => Approval.id a =? id) (approvals_state p) in
  let preview := or_else (Approval.content_preview <$> item) EmptyString in
  let agentId := or_else (Approval.agent_id <$> item) "system" in
  let w' := snd (snd (handleApproval id status (p, w))) in
  fst (handleApproval id status (p, w)) = Ok tt /\
  match ipc (env w) (n_ipc w) with
  | Some _ =>
      db w' = db w /\
      trace w' = trace w ++ [EInvoke (update_approval id status) false]
  | None =>
      approvals (db w') =
        map (fun a => if Approval.id a =? id then set_status status a else a)
            (approvals (db w)) /\
      exists action st output resolved rest,
        trace w' = trace w ++
                   EInvoke (update_approval id status) true ::
                   EInvoke (add_log agentId action st output EmptyString) resolved :: rest /\
        logs (db w') =
          logs (db w) ++
          (if resolved
           then [log_row (length (logs (db w))) agentId action st output EmptyString (clock (env w))]
           else []) /\
        (resolved = true <-> ipc (env w) (S (n_ipc w)) = None) /\
        if String.eqb status "approved"
        then st = "success" /\ action = "Approved & Executed"
        else st = "info" /\ includes output preview = true
  end.
Proof.
  intros item preview agentId w'. subst w'.
  unfold handleApproval, try_catch, bind, liftW, this.
  rewrite updateApproval_run.
  destruct (ipc (env w) (n_ipc w)) as [e|] eqn:E0.
  { cbn. auto. }
  fold item. fold preview. fold agentId.
  destruct (String.eqb status "approved").
  - unfold now, read. rewrite addLog_run. cbn [n_ipc ipc_done env db].
    destruct (ipc (env w) (S (n_ipc w))) as [e|] eqn:E1.
    + cbn. split; [reflexivity|]. split; [reflexivity|].
      eexists _, _, _, false, []. rewrite <- app_assoc. cbn.
      rewrite app_nil_r. repeat split; congruence.
    + set (w1 := ipc_done _ true _ (ipc_done _ true _ w)).
      destruct (loadData_reads p w1) as (Hr & Hd & rest & Ht).
      destruct (loadData (p, w1)) as [r [p2 w2]]. cbn in Hr, Hd, Ht. subst r.
      cbn [fst snd]. split; [reflexivity|]. rewrite Hd, Ht.
      split; [reflexivity|].
      eexists _, _, _, true, rest. subst w1. cbn [trace ipc_done db logs].
      rewrite <- !app_assoc. cbn. repeat split; congruence.
  - rewrite addLog_run. cbn [n_ipc ipc_done env db].
    destruct (ipc (env w) (S (n_ipc w))) as [e|] eqn:E1.
    + cbn. split; [reflexivity|]. split; [reflexivity|].
      eexists _, _, _, false, []. rewrite <- app_assoc. cbn.
      rewrite app_nil_r. repeat split; try congruence.
      do 2 apply includes_append_r. apply includes_suffix.
    + set (w1 := ipc_done _ true _ (ipc_done _ true _ w)).
      destruct (loadData_reads p w1) as (Hr & Hd & rest & Ht).
      destruct (loadData (p, w1)) as [r [p2 w2]]. cbn in Hr, Hd, Ht. subst r.
      cbn [fst snd]. split; [reflexivity|]. rewrite Hd, Ht.
      split; [reflexivity|].
      eexists _, _, _, true, rest. subst w1. cbn [trace ipc_done db logs].
      rewrite <- !app_assoc. cbn. repeat split; try congruence.
      do 2 apply includes_append_r. apply includes_suffix.
Qed.

(** The scenario of the spec: the item queued for agent "Y" (identifier
    "2") is approved, or rejected. *)
Lemma handleApproval_effects_witness :
  fst (handleApproval 0 "approved"
         (setApprovals (approvals (db (snd (handleRun agent_y (boot quiet_env))))) mounted,
          snd (handleRun agent_y (boot quiet_env)))) = Ok tt /\
  map (fun e => (Log.agent_id e, Log.status e))
      (logs (db (snd (snd (handleApproval 0 "approved"
         (setApprovals (approvals (db (snd (handleRun agent_y (boot quiet_env))))) mounted,
          snd (handleRun agent_y (boot quiet_env))))))))
  = [("2", "info"); ("2", "success")] /\
  map (fun e => (Log.agent_id e, Log.status e))
      (logs (db (snd (snd (handleApproval 0 "rejected"
         (setApprovals (approvals (db (snd (handleRun agent_y (boot quiet_env))))) mounted,
          snd (handleRun agent_y (boot quiet_env))))))))
  = [("2", "info"); ("2", "info")].
Proof.
  split; [|split; vm_compute; reflexivity].
  apply (handleApproval_effects 0 "approved").
Defined.

(** ** The answers of the store *)

Lemma store_accepts_1 (w : World) :
  store_accepts 1 w =
  match ipc (env w) (n_ipc w) with None => true | Some _ => false end.
Proof.
  unfold store_accepts. cbn [seq forallb].
  replace (n_ipc w + 0) with (n_ipc w) by lia.
  now destruct (ipc (env w) (n_ipc w)).
Qed.

Lemma store_accepts_2 (w : World) :
  store_accepts 2 w =
  match ipc (env w) (n_ipc w), ipc (env w) (S (n_ipc w)) with
  | None, None => true
  | _, _ => false
  end.
Proof.
  unfold store_accepts. cbn [seq forallb].
  replace (n_ipc w + 0) with (n_ipc w) by lia.
  replace (n_ipc w + 1) with (S (n_ipc w)) by lia.
  destruct (ipc (env w) (n_ipc w)), (ipc (env w) (S (n_ipc w))); reflexivity.
Qed.

Lemma store_accepts_3 (w : World) :
  store_accepts 3 w =
  match ipc (env w) (n_ipc w), ipc (env w) (S (n_ipc w)), ipc (env w) (S (S (n_ipc w))) with
  | None, None, None => true
  | _, _, _ => false
  end.
Proof.
  unfold store_accepts. cbn [seq forallb].
  replace (n_ipc w + 0) with (n_ipc w) by lia.
  replace (n_ipc w + 1) with (S (n_ipc w)) by lia.
  replace (n_ipc w + 2) with (S (S (n_ipc w))) by lia.
  destruct (ipc (env w) (n_ipc w)), (ipc (env w) (S (n_ipc w))),
    (ipc (env w) (S (S (n_ipc w)))); reflexivity.
Qed.

Lemma store_accepts_4 (w : World) :
  store_accepts 4 w =
  store_accepts 3 w &&
  match ipc (env w) (S (S (S (n_ipc w)))) with None => true | Some _ => false end.
Proof.
  rewrite store_accepts_3. unfold store_accepts. cbn [seq forallb].
  replace (n_ipc w + 0) with (n_ipc w) by lia.
  replace (n_ipc w + 1) with (S (n_ipc w)) by lia.
  replace (n_ipc w + 2) with (S (S (n_ipc w))) by lia.
  replace (n_ipc w + 3) with (S (S (S (n_ipc w)))) by lia.
  destruct (ipc (env w) (n_ipc w)), (ipc (env w) (S (n_ipc w))),
    (ipc (env w) (S (S (n_ipc w)))), (ipc (env w) (S (S (S (n_ipc w))))); reflexivity.
Qed.

(** ** The approval queue and the life of an item *)

Lemma offered_inv (l : list Approval.t) (id : nat) (st : string) :
  In (id, st) (offered l) ->
  exists a, In a l /\ Approval.id a = id /\ Approval.status a = "pending" /\
            (st = "approved" \/ st = "rejected").
Proof.
  unfold offered, ApprovalQueue. rewrite in_flat_map.
  intros (c & Hc & Hb). apply in_map_iff in Hc as (a & <- & Ha).
  exists a. unfold card in Hb. cbn [buttons] in Hb.
  destruct (String.eqb (Approval.status a) "pending") eqn:E; [|contradiction].
  apply String.eqb_eq in E.
  destruct Hb as [Hb|[Hb|[]]]; injection Hb as <- <-; auto.
Qed.

(** A button offered for a row is offered by every list that holds the row. *)
Lemma offered_mono (l l' : list Approval.t) (id : nat) (st : string) :
  (forall a, In a l -> In a l') -> In (id, st) (offered l) -> In (id, st) (offered l').
Proof.
  unfold offered, ApprovalQueue. rewrite !in_flat_map.
  intros Hsub (c & Hc & Hb). apply in_map_iff in Hc as (a & <- & Ha).
  exists (card a). split; [|exact Hb]. apply in_map, Hsub, Ha.
Qed.

Lemma terminal_has_no_buttons (a : Approval.t) :
  Approval.status a <> "pending" -> buttons (card a) = [].
Proof.
  intros H. unfold card. cbn [buttons].
  destruct (String.eqb (Approval.status a) "pending") eqn:E; [|reflexivity].
  now apply String.eqb_eq in E.
Qed.

Lemma same_or_resolved_refl (a : Approval.t) : same_or_resolved a a.
Proof. unfold same_or_resolved. auto 6. Qed.

Lemma same_or_resolved_trans (a b c : Approval.t) :
  same_or_resolved a b -> same_or_resolved b c -> same_or_resolved a c.
Proof.
  unfold same_or_resolved.
  intros (H1 & H2 & H3 & H4 & H5) (G1 & G2 & G3 & G4 & G5).
  repeat split; try congruence.
  destruct H5 as [H5|(H5 & H6)], G5 as [G5|(G5 & G6)].
  - left; congruence.
  - right. split; [congruence|exact G6].
  - right. split; [exact H5|]. rewrite G5. exact H6.
  - exfalso. rewrite G5 in H6. destruct H6; discriminate.
Qed.

Lemma same_or_settled_refl (a : Approval.t) : same_or_settled a a.
Proof. unfold same_or_settled. auto 6. Qed.

Lemma same_or_settled_trans (a b c : Approval.t) :
  same_or_settled a b -> same_or_settled b c -> same_or_settled a c.
Proof.
  unfold same_or_settled.
  intros (H1 & H2 & H3 & H4 & H5) (G1 & G2 & G3 & G4 & G5).
  repeat split; try congruence.
  destruct G5 as [G5|G5]; [|right; exact G5].
  destruct H5 as [H5|H5]; [left; congruence|right; now rewrite G5].
Qed.

Lemma resolved_is_settled (a a' : Approval.t) : same_or_resolved a a' -> same_or_settled a a'.
Proof.
  unfold same_or_resolved, same_or_settled.
  intros (H1 & H2 & H3 & H4 & [H5|[_ H5]]); auto 6.
Qed.

Lemma later_refl (t : list Approval.t) : ids_ok t -> later t t.
Proof. intros H. split; [exact H|]. intros i a Ha. exists a. split; [exact Ha|apply same_or_resolved_refl]. Qed.

Lemma later_trans (t1 t2 t3 : list Approval.t) : later t1 t2 -> later t2 t3 -> later t1 t3.
Proof.
  intros [_ H12] [I3 H23]. split; [exact I3|].
  intros i a Ha. destruct (H12 i a Ha) as (b & Hb & Hab).
  destruct (H23 i b Hb) as (c & Hc & Hbc).
  exists c. split; [exact Hc|]. eapply same_or_resolved_trans; eassumption.
Qed.

Lemma later_comes_after (t t' : list Approval.t) : later t t' -> comes_after t t'.
Proof.
  intros [I H]. split; [exact I|]. intros i a Ha.
  destruct (H i a Ha) as (a' & Ha' & Hr). exists a'. split; [exact Ha'|].
  now apply resolved_is_settled.
Qed.

Lemma comes_after_trans (t1 t2 t3 : list Approval.t) :
  comes_after t1 t2 -> comes_after t2 t3 -> comes_after t1 t3.
Proof.
  intros [_ H12] [I3 H23]. split; [exact I3|].
  intros i a Ha. destruct (H12 i a Ha) as (b & Hb & Hab).
  destruct (H23 i b Hb) as (c & Hc & Hbc).
  exists c. split; [exact Hc|]. eapply same_or_settled_trans; eassumption.
Qed.

Lemma later_append (t : list Approval.t) (a : Approval.t) :
  ids_ok t -> Approval.id a = length t -> later t (t ++ [a]).
Proof.
  intros Hids Ha. split.
  - intros i b Hb. apply lookup_app_Some in Hb as [Hb|[Hlen Hb]]; [now apply Hids|].
    apply list_lookup_singleton_Some in Hb as [Hi <-]. lia.
  - intros i b Hb. exists b. split; [|apply same_or_resolved_refl].
    apply lookup_app_l_Some; exact Hb.
Qed.

(** The status update on a row the store holds as pending. *)
Lemma later_resolve (t : list Approval.t) (id : nat) (st : string) :
  ids_ok t -> In (id, st) (offered t) ->
  later t (map (fun a => if Approval.id a =? id then set_status st a else a) t).
Proof.
  intros Hids Hoff. apply offered_inv in Hoff as (b & Hb & Hbid & Hbst & Hst).
  apply list_elem_of_In, list_elem_of_lookup in Hb as [j Hj].
  assert (j = id) by (rewrite <- Hbid; symmetry; now apply Hids). subst j.
  split.
  - intros i a Ha. rewrite list_lookup_fmap in Ha.
    destruct (t !! i) as [a0|] eqn:E; [|discriminate]. cbn in Ha.
    injection Ha as <-. destruct (Approval.id a0 =? id); cbn; now apply Hids.
  - intros i a Ha. rewrite list_lookup_fmap, Ha. cbn.
    eexists. split; [reflexivity|].
    destruct (Approval.id a =? id) eqn:E; [|apply same_or_resolved_refl].
    apply Nat.eqb_eq in E. assert (i = id) by (rewrite <- E; symmetry; now apply Hids).
    subst i. assert (a = b) by congruence. subst a.
    unfold same_or_resolved, set_status. cbn. repeat split. right. auto.
Qed.

(** The status update on any row, pending in the store or not. *)
Lemma comes_after_settle (t : list Approval.t) (id : nat) (st : string) :
  ids_ok t -> st = "approved" \/ st = "rejected" ->
  comes_after t (map (fun a => if Approval.id a =? id then set_status st a else a) t).
Proof.
  intros Hids Hst. split.
  - intros i a Ha. rewrite list_lookup_fmap in Ha.
    destruct (t !! i) as [a0|] eqn:E; [|discriminate]. cbn in Ha.
    injection Ha as <-. destruct (Approval.id a0 =? id); cbn; now apply Hids.
  - intros i a Ha. rewrite list_lookup_fmap, Ha. cbn.
    eexists. split; [reflexivity|].
    destruct (Approval.id a =? id); [|apply same_or_settled_refl].
    unfold same_or_settled, set_status. cbn. repeat split. right. exact Hst.
Qed.

Lemma handleApproval_table (id : nat) (st : string) (p : LogsPanel) (w : World) :
  approvals (db (snd (snd (handleApproval id st (p, w))))) =
  match ipc (env w) (n_ipc w) with
  | None => map (fun a => if Approval.id a =? id then set_status st a else a)
                (approvals (db w))
  | Some _ => approvals (db w)
  end.
Proof.
  unfold handleApproval, try_catch, bind, liftW, this.
  rewrite updateApproval_run.
  destruct (ipc (env w) (n_ipc w)) as [e|] eqn:E0; [reflexivity|].
  destruct (String.eqb st "approved"); unfold now, read; rewrite addLog_run;
    cbn [n_ipc ipc_done env db];
    (destruct (ipc (env w) (S (n_ipc w))) as [e|] eqn:E1; [reflexivity|]);
    match goal with
    | |- context [loadData (p, ?w1)] =>
        destruct (loadData_reads p w1) as (_ & Hd & _);
        destruct (loadData (p, w1)) as [r [p2 w2]]
    end;
    cbn [fst snd] in *; destruct r; cbn [fst snd ret]; now rewrite Hd.
Qed.

(** What the panel shows after a reload: the rows of the store when both
    reads resolve, and what it showed before when one is rejected. *)
Lemma loadData_shows (p : LogsPanel) (w : World) :
  approvals_state (fst (snd (loadData (p, w)))) =
  if store_accepts 2 w then approvals (db w) else approvals_state p.
Proof.
  rewrite store_accepts_2.
  unfold loadData, bind, try_catch, assign, liftW, promise_all, getLogs, getApprovals,
    invoke, ret.
  do 2 case_ipc; reflexivity.
Qed.

(** What the panel shows after a click: what it showed before when the
    status update is rejected, and the rows of the store when the four
    calls of the click resolve. *)
Lemma handleApproval_shows (id : nat) (st : string) (p : LogsPanel) (w : World) :
  (store_accepts 1 w = false -> fst (snd (handleApproval id st (p, w))) = p) /\
  (store_accepts 4 w = true ->
   approvals_state (fst (snd (handleApproval id st (p, w)))) =
   approvals (db (snd (snd (handleApproval id st (p, w)))))).
Proof.
  rewrite store_accepts_1, store_accepts_4, store_accepts_3.
  unfold handleApproval, try_catch, bind, liftW, this.
  rewrite updateApproval_run.
  destruct (ipc (env w) (n_ipc w)) as [e|] eqn:E0; [split; [reflexivity|discriminate]|].
  split; [discriminate|].
  destruct (ipc (env w) (S (n_ipc w))) as [e|] eqn:E1; [discriminate|].
  destruct (ipc (env w) (S (S (n_ipc w)))) as [e|] eqn:E2; [discriminate|].
  destruct (ipc (env w) (S (S (S (n_ipc w))))) as [e|] eqn:E3; [discriminate|].
  intros _.
  destruct (String.eqb st "approved"); unfold now, read; rewrite addLog_run;
    cbn [n_ipc ipc_done env db]; rewrite E1; cbn [fst snd];
    match goal with
    | |- context [loadData (p, ?w1)] =>
        pose proof (loadData_shows p w1) as Hs;
        destruct (loadData_reads p w1) as (_ & Hd & _);
        rewrite store_accepts_2 in Hs; cbn [n_ipc ipc_done env] in Hs;
        rewrite E2, E3 in Hs;
        destruct (loadData (p, w1)) as [r [p2 w2]]
    end;
    cbn [fst snd] in *; destruct r; cbn [fst snd ret]; now rewrite Hs, Hd.
Qed.

(** A click whose log write or reload is rejected leaves the panel's copy
    of the items as it was. *)
Lemma handleApproval_stale (id : nat) (st : string) (p : LogsPanel) (w : World) :
  store_accepts 4 w = false ->
  approvals_state (fst (snd (handleApproval id st (p, w)))) = approvals_state p.
Proof.
  rewrite store_accepts_4, store_accepts_3.
  unfold handleApproval, try_catch, bind, liftW, this.
  rewrite updateApproval_run.
  destruct (ipc (env w) (n_ipc w)) as [e|] eqn:E0; [reflexivity|].
  destruct (String.eqb st "approved"); unfold now, read; rewrite addLog_run;
    cbn [n_ipc ipc_done env db];
    (destruct (ipc (env w) (S (n_ipc w))) as [e|] eqn:E1; [reflexivity|]);
    intros Hrej; cbn [fst snd];
    match goal with
    | |- context [loadData (p, ?w1)] =>
        pose proof (loadData_shows p w1) as Hs;
        rewrite store_accepts_2 in Hs; cbn [n_ipc ipc_done env] in Hs;
        destruct (loadData (p, w1)) as [r [p2 w2]]
    end;
    cbn [fst snd] in *; destruct r; cbn [fst snd ret]; rewrite Hs;
    destruct (ipc (env w) (S (S (n_ipc w)))); try reflexivity;
    destruct (ipc (env w) (S (S (S (n_ipc w))))); try reflexivity; discriminate.
Qed.

(** A status update the store accepts overwrites the status of the row,
    whatever it was. *)
Lemma handleApproval_overwrites (id : nat) (st : string) (p : LogsPanel) (w : World) :
  store_accepts 1 w = true ->
  forall a, In a (approvals (db (snd (snd (handleApproval id st (p, w)))))) ->
            Approval.id a = id -> Approval.status a = st.
Proof.
  rewrite store_accepts_1, handleApproval_table.
  destruct (ipc (env w) (n_ipc w)); [discriminate|]. intros _ a Ha Hid.
  apply in_map_iff in Ha as (a0 & <- & _).
  destruct (Approval.id a0 =? id) eqn:E; [reflexivity|].
  apply Nat.eqb_neq in E. contradiction.
Qed.

Lemma addApproval_extends (agentId actionType preview : string) (w : World) :
  exists rest,
    approvals (db (snd (addApproval agentId actionType preview w))) =
    approvals (db w) ++ rest.
Proof.
  rewrite addApproval_run. destruct (ipc (env w) (n_ipc w)).
  - exists []. cbn. now rewrite app_nil_r.
  - eexists [_]. reflexivity.
Qed.

Lemma addApproval_table (agentId actionType preview : string) (w : World) :
  ids_ok (approvals (db w)) ->
  later (approvals (db w)) (approvals (db (snd (addApproval agentId actionType preview w)))).
Proof.
  intros H. rewrite addApproval_run. destruct (ipc (env w) (n_ipc w)).
  - now apply later_refl.
  - now apply later_append.
Qed.

Lemma addLog_table (agentId action status output error : string) (w : World) :
  approvals (db (snd (addLog agentId action status output error w))) = approvals (db w).
Proof. rewrite addLog_run. now destruct (ipc (env w) (n_ipc w)). Qed.

Lemma handleRun_table (agent : Agent.t) (w : World) :
  ids_ok (approvals (db w)) ->
  later (approvals (db w)) (approvals (db (snd (handleRun agent w)))).
Proof.
  intros H. unfold handleRun, try_catch, dispatch.
  destruct (sandbox agent); [|destruct (includes (tools agent) "browser")];
    unfold bind, now, read;
    repeat (rewrite ?addApproval_run, ?addLog_run;
            cbn [n_ipc ipc_done env db fst snd approvals];
            try match goal with
                | |- context [match ipc ?e ?n with _ => _ end] => destruct (ipc e n)
                end);
    solve [now apply later_refl | now apply later_append].
Qed.

Lemma handleRun_extends (agent : Agent.t) (w : World) :
  exists rest, approvals (db (snd (handleRun agent w))) = approvals (db w) ++ rest.
Proof.
  unfold handleRun, try_catch, dispatch.
  destruct (sandbox agent); [|destruct (includes (tools agent) "browser")];
    unfold bind, now, read;
    repeat (rewrite ?addApproval_run, ?addLog_run;
            cbn [n_ipc ipc_done env db fst snd approvals];
            try match goal with
                | |- context [match ipc ?e ?n with _ => _ end] => destruct (ipc e n)
                end);
    solve [exists []; now rewrite app_nil_r | eexists [_]; reflexivity].
Qed.

(** One step, whatever the panel shows: no row is lost and no status
    returns to pending. *)
Lemma ui_step_comes_after (ok : LogsPanel * World -> Prop) (s s' : LogsPanel * World) :
  ui_step ok s s' -> ids_ok (approvals (db (snd s))) ->
  comes_after (approvals (db (snd s))) (approvals (db (snd s'))).
Proof.
  intros Hstep Hids. destruct Hstep as [p w id st _ Hoff|p w|p w a b c|p w agent];
    cbn [snd] in *.
  - rewrite handleApproval_table. destruct (ipc (env w) (n_ipc w)).
    + now apply later_comes_after, later_refl.
    + apply comes_after_settle; [exact Hids|].
      now apply offered_inv in Hoff as (_ & _ & _ & _ & Hst).
  - destruct (loadData_reads p w) as (_ & -> & _). now apply later_comes_after, later_refl.
  - now apply later_comes_after, addApproval_table.
  - now apply later_comes_after, handleRun_table.
Qed.

Lemma ui_run_comes_after (ok : LogsPanel * World -> Prop) (s s' : LogsPanel * World) :
  ui_run ok s s' -> ids_ok (approvals (db (snd s))) ->
  comes_after (approvals (db (snd s))) (approvals (db (snd s'))).
Proof.
  induction 1 as [s|s1 s2 s3 Hstep _ IH]; intros Hids.
  - now apply later_comes_after, later_refl.
  - pose proof (ui_step_comes_after _ _ _ Hstep Hids) as H12.
    eapply comes_after_trans; [exact H12|]. apply IH. exact (proj1 H12).
Qed.

(** One step in which a click, if it is one, completes: a pending row is
    resolved at most, and the panel still holds rows of the store only. *)
Lemma ui_step_later (s s' : LogsPanel * World) :
  ui_step click_completes s s' ->
  ids_ok (approvals (db (snd s))) -> shows_store s ->
  later (approvals (db (snd s))) (approvals (db (snd s'))) /\ shows_store s'.
Proof.
  intros Hstep Hids Hshows.
  destruct Hstep as [p w id st Hok Hoff|p w|p w a b c|p w agent];
    unfold shows_store in *; cbn [fst snd] in *.
  - destruct (handleApproval_shows id st p w) as [Hrej Hacc].
    pose proof (handleApproval_table id st p w) as Htab.
    destruct Hok as [Hok|Hok]; cbn [snd] in Hok.
    + rewrite (Hrej Hok). rewrite store_accepts_1 in Hok.
      destruct (ipc (env w) (n_ipc w)); [|discriminate].
      rewrite Htab. split; [now apply later_refl|exact Hshows].
    + rewrite (Hacc Hok). split; [|auto].
      rewrite Htab. destruct (ipc (env w) (n_ipc w)); [now apply later_refl|].
      apply later_resolve; [exact Hids|]. eapply offered_mono; eassumption.
  - rewrite loadData_shows. destruct (loadData_reads p w) as (_ & -> & _).
    split; [now apply later_refl|]. destruct (store_accepts 2 w); auto.
  - split; [now apply addApproval_table|].
    destruct (addApproval_extends a b c w) as [rest ->].
    intros x Hx. apply in_or_app. left. auto.
  - split; [now apply handleRun_table|].
    destruct (handleRun_extends agent w) as [rest ->].
    intros x Hx. apply in_or_app. left. auto.
Qed.

Lemma ui_run_later (s s' : LogsPanel * World) :
  ui_run click_completes s s' ->
  ids_ok (approvals (db (snd s))) -> shows_store s ->
  later (approvals (db (snd s))) (approvals (db (snd s'))) /\ shows_store s'.
Proof.
  induction 1 as [s|s1 s2 s3 Hstep _ IH]; intros Hids Hshows.
  - split; [now apply later_refl|exact Hshows].
  - destruct (ui_step_later _ _ Hstep Hids Hshows) as [H12 Hs2].
    destruct (IH (proj1 H12) Hs2) as [H23 Hs3].
    split; [eapply later_trans; eassumption|exact Hs3].
Qed.

(** In a table whose rows carry their position, a row is found by its
    identifier. *)
Lemma ids_ok_unique (t : list Approval.t) (i : nat) (a b : Approval.t) :
  ids_ok t -> t !! i = Some a -> In b t -> Approval.id b = Approval.id a -> b = a.
Proof.
  intros Hids Ha Hb Hid.
  apply list_elem_of_In, list_elem_of_lookup in Hb as [j Hj].
  pose proof (Hids j b Hj). pose proof (Hids i a Ha).
  assert (j = i) by congruence. subst j. congruence.
Qed.

(** C4, as amended.  An approval item is created with status pending.
    Whatever the panel shows, along any run (clicks on buttons the queue
    offers, reloads, new items queued, agents run) no row is lost and a
    status is only ever set to approved or rejected: a row that is no
    longer pending in the store is never pending there again.  Along a run
    in which every click completes (its status update is rejected, or its
    four store calls resolve), started with the panel holding rows of the
    store only, a row keeps its status or goes, once, from pending to
    approved or rejected: a row that is no longer pending keeps its status
    for good, the panel counts no item of that identifier as pending and
    the queue offers no button for it.  [pendingCount] counts the pending
    items the panel holds, a card has buttons only while the item it shows
    is pending, every button offered resolves to approved or rejected, and
    after a reload whose two reads resolve the panel holds the rows of the
    store.  A click whose log write or reload is rejected leaves the
    panel's copy as it was, so the buttons it offered are still offered;
    and a status update the store accepts overwrites the stored status,
    whatever it was. *)
Theorem approval_lifecycle :
  (forall agentId actionType preview w i w',
     addApproval agentId actionType preview w = (Ok i, w') ->
     exists a, approvals (db w') = approvals (db w) ++ [a] /\
               Approval.id a = i /\ Approval.status a = "pending") /\
  (forall s s', ui_run any_click s s' -> ids_ok (approvals (db (snd s))) ->
     forall i a, approvals (db (snd s)) !! i = Some a ->
       exists a', approvals (db (snd s')) !! i = Some a' /\ same_or_settled a a' /\
         (Approval.status a <> "pending" ->
            Approval.status a' <> "pending" /\
            ~ In a' (items_with "pending" (approvals (db (snd s')))))) /\
  (forall s s', ui_run click_completes s s' ->
     ids_ok (approvals (db (snd s))) -> shows_store s ->
     shows_store s' /\
     forall i a, approvals (db (snd s)) !! i = Some a ->
       exists a', approvals (db (snd s')) !! i = Some a' /\ same_or_resolved a a' /\
         (Approval.status a <> "pending" ->
            Approval.status a' = Approval.status a /\
            (forall b, In b (items_with "pending" (approvals_state (fst s'))) ->
                       Approval.id b <> Approval.id a) /\
            forall st, ~ In (Approval.id a, st) (offered (approvals_state (fst s'))))) /\
  (forall p, pendingCount p = length (items_with "pending" (approvals_state p))) /\
  (forall a, Approval.status a <> "pending" -> buttons (card a) = []) /\
  (forall l id st, In (id, st) (offered l) ->
     exists a, In a l /\ Approval.id a = id /\ Approval.status a = "pending" /\
               (st = "approved" \/ st = "rejected")) /\
  (forall p w, store_accepts 2 w = true ->
     approvals_state (fst (snd (loadData (p, w)))) = approvals (db w) /\
     db (snd (snd (loadData (p, w)))) = db w) /\
  (forall id st p w, store_accepts 4 w = false ->
     approvals_state (fst (snd (handleApproval id st (p, w)))) = approvals_state p /\
     offered (approvals_state (fst (snd (handleApproval id st (p, w))))) =
       offered (approvals_state p)) /\
  (forall id st p w, store_accepts 1 w = true ->
     forall a, In a (approvals (db (snd (snd (handleApproval id st (p, w)))))) ->
               Approval.id a = id -> Approval.status a = st).
Proof.
  split; [|split; [|split; [|split; [|split; [|split; [|split; [|split]]]]]]].
  - intros agentId actionType preview w i w' H. rewrite addApproval_run in H.
    destruct (ipc (env w) (n_ipc w)); [discriminate|].
    injection H as <- <-. eexists. cbn. repeat split.
  - intros s s' Hrun Hids i a Ha.
    destruct (ui_run_comes_after _ s s' Hrun Hids) as [Hids' Hrows].
    destruct (Hrows i a Ha) as (a' & Ha' & Hrel).
    exists a'. split; [exact Ha'|]. split; [exact Hrel|].
    intros Hterm.
    assert (Hst : Approval.status a' <> "pending").
    { destruct Hrel as (_ & _ & _ & _ & [H|[H|H]]); rewrite H; [exact Hterm|discriminate..]. }
    split; [exact Hst|].
    unfold items_with. rewrite filter_In. intros [_ H].
    now apply String.eqb_eq in H.
  - intros s s' Hrun Hids Hshows.
    destruct (ui_run_later s s' Hrun Hids Hshows) as [[Hids' Hrows] Hshows'].
    split; [exact Hshows'|]. intros i a Ha.
    destruct (Hrows i a Ha) as (a' & Ha' & Hrel).
    exists a'. split; [exact Ha'|]. split; [exact Hrel|].
    intros Hterm.
    assert (Hst : Approval.status a' = Approval.status a).
    { destruct Hrel as (_ & _ & _ & _ & [H|[H _]]); [exact H|contradiction]. }
    assert (Hid : Approval.id a' = Approval.id a) by apply Hrel.
    assert (Hrow : forall b, In b (approvals_state (fst s')) ->
                     Approval.id b = Approval.id a -> Approval.status b <> "pending").
    { intros b Hb Hbid. apply Hshows' in Hb.
      rewrite (ids_ok_unique _ i a' b Hids' Ha' Hb) by congruence. congruence. }
    split; [exact Hst|]. split.
    + intros b Hb Hbid. unfold items_with in Hb. apply filter_In in Hb as [Hb Hp].
      apply String.eqb_eq in Hp. exact (Hrow b Hb Hbid Hp).
    + intros st Hoff. apply offered_inv in Hoff as (b & Hb & Hbid & Hbst & _).
      exact (Hrow b Hb Hbid Hbst).
  - reflexivity.
  - apply terminal_has_no_buttons.
  - apply offered_inv.
  - intros p w H. rewrite loadData_shows, H. split; [reflexivity|].
    apply loadData_reads.
  - intros id st p w H. rewrite (handleApproval_stale id st p w H). split; reflexivity.
  - apply handleApproval_overwrites.
Qed.

Lemma ui_click (ok : LogsPanel * World -> Prop) (s : LogsPanel * World)
      (id : nat) (status : string) :
  ok s -> In (id, status) (offered (approvals_state (fst s))) ->
  ui_step ok s (snd (handleApproval id status s)).
Proof. destruct s as [p w]. apply step_click. Qed.

Lemma ui_handleRun (ok : LogsPanel * World -> Prop) (s : LogsPanel * World)
      (agent : Agent.t) :
  ui_step ok s (fst s, snd (handleRun agent (snd s))).
Proof. destruct s as [p w]. apply step_run. Qed.

(** Agent "Y" is run twice and the panel reloaded; the first item is
    approved, the store answering.  Then the second item is rejected and
    another agent is run: the first item stays approved, and the panel
    neither counts it nor offers a button for it. *)
Lemma approval_lifecycle_witness :
  let s1 := snd (loadData (mounted,
                   snd (handleRun agent_y (snd (handleRun agent_y (boot quiet_env)))))) in
  let s2 := snd (handleApproval 0 "approved" s1) in
  let s3 := snd (handleApproval 1 "rejected" s2) in
  let s4 := (fst s3, snd (handleRun agent_x (snd s3))) in
  map Approval.status (approvals (db (snd s1))) = ["pending"; "pending"] /\
  offered (approvals_state (fst s1)) =
    [(0, "approved"); (0, "rejected"); (1, "approved"); (1, "rejected")] /\
  map Approval.status (approvals (db (snd s2))) = ["approved"; "pending"] /\
  offered (approvals_state (fst s2)) = [(1, "approved"); (1, "rejected")] /\
  map Approval.status (approvals (db (snd s4))) = ["approved"; "rejected"] /\
  pendingCount (fst s4) = 0 /\
  exists a', approvals (db (snd s4)) !! 0 = Some a' /\ Approval.status a' = "approved" /\
             forall st, ~ In (0, st) (offered (approvals_state (fst s4))).
Proof.
  intros s1 s2 s3 s4.
  do 6 (split; [vm_compute; reflexivity|]).
  assert (Hrun : ui_run click_completes s2 s4).
  { eapply run_step; [apply (ui_click click_completes s2 1 "rejected")|].
    - right. vm_compute. reflexivity.
    - vm_compute. auto.
    - eapply run_step; [apply ui_handleRun|apply run_nil]. }
  assert (Hids : ids_ok (approvals (db (snd s2)))).
  { intros [|[|[|i]]] a; vm_compute; intros H; now inversion H. }
  assert (Hshows : shows_store s2).
  { intros a Ha. vm_compute in Ha. vm_compute. exact Ha. }
  assert (Hrow : approvals (db (snd s2)) !! 0 =
                 Some (set_status "approved"
                         (approval_row 0 "2" "agent_execution"
                            "[Agent] Y: Post the summary" "11/2/2026, 9:00:00 AM")))
    by (vm_compute; reflexivity).
  destruct (proj2 (proj1 (proj2 (proj2 approval_lifecycle)) s2 s4 Hrun Hids Hshows) 0 _ Hrow)
    as (a' & Ha' & _ & Hterm).
  exists a'. split; [exact Ha'|].
  destruct (Hterm ltac:(discriminate)) as (Hst & _ & Hoff).
  split; [exact Hst|exact Hoff].
Defined.

(** A panel left stale resolves an item twice.  The store rejects the log
    write of the approval, so the reload is skipped: the store holds the
    item as approved while the panel still shows it as pending, counts it
    and offers both buttons; the click on Reject then overwrites approved
    with rejected. *)
Lemma stale_panel_resolves_twice :
  let s1 := snd (loadData (mounted, snd (handleRun agent_y (boot locked_once_env)))) in
  let s2 := snd (handleApproval 0 "approved" s1) in
  let s3 := snd (handleApproval 0 "rejected" s2) in
  ui_run any_click s1 s3 /\
  map Approval.status (approvals (db (snd s1))) = ["pending"] /\
  map Approval.status (approvals (db (snd s2))) = ["approved"] /\
  pendingCount (fst s2) = 1 /\
  offered (approvals_state (fst s2)) = [(0, "approved"); (0, "rejected")] /\
  map Approval.status (approvals (db (snd s3))) = ["rejected"].
Proof.
  intros s1 s2 s3. split.
  - eapply run_step; [apply (ui_click any_click s1 0 "approved")|].
    + exact I.
    + vm_compute. auto.
    + eapply run_step; [apply (ui_click any_click s2 0 "rejected")|apply run_nil].
      * exact I.
      * vm_compute. auto.
  - repeat split; vm_compute; reflexivity.
Qed.

(** ** Footprints

    What a computation leaves alone is proved once for each primitive and
    carried through sequencing and [try]/[catch]. *)

Section Keeps.
Context {S : Type} (R : S -> S -> Prop).
Hypothesis R_refl : forall s, R s s.
Hypothesis R_trans : forall a b c, R a b -> R b c -> R a c.

Lemma keeps_ret {A : Type} (a : A) : keeps R (ret a).
Proof using R_refl. intros s. apply R_refl. Qed.

Lemma keeps_throw {A : Type} (e : Thrown) : keeps R (@throw S A e).
Proof using R_refl. intros s. apply R_refl. Qed.

Lemma keeps_bind {A B : Type} (m : M S A) (k : A -> M S B) :
  keeps R m -> (forall a, keeps R (k a)) -> keeps R (bind m k).
Proof using R_trans.
  intros Hm Hk s. unfold bind. specialize (Hm s).
  destruct (m s) as [[a|e] s1]; cbn [snd] in *; [|exact Hm].
  eapply R_trans; [exact Hm|apply Hk].
Qed.

Lemma keeps_try_catch {A : Type} (m : M S A) (h : Thrown -> M S A) :
  keeps R m -> (forall e, keeps R (h e)) -> keeps R (try_catch m h).
Proof using R_trans.
  intros Hm Hh s. unfold try_catch. specialize (Hm s).
  destruct (m s) as [[a|e] s1]; cbn [snd] in *; [exact Hm|].
  eapply R_trans; [exact Hm|apply Hh].
Qed.
End Keeps.

Section KeepsOnObject.
Context {T : Type} (RT : T -> T -> Prop) (RW : World -> World -> Prop).
Hypothesis RT_refl : forall t, RT t t.
Hypothesis RW_refl : forall w, RW w w.

Lemma keeps_liftW {A : Type} (m : M World A) :
  keeps RW m -> keeps (both RT RW) (liftW m).
Proof using RT_refl.
  intros Hm [t w]. unfold liftW. specialize (Hm w).
  destruct (m w) as [r w1]. split; [apply RT_refl|exact Hm].
Qed.

Lemma keeps_this : keeps (both RT RW) (@this T).
Proof using RT_refl RW_refl. intros [t w]. split; [apply RT_refl|apply RW_refl]. Qed.

Lemma keeps_assign (f : T -> T) :
  (forall t, RT t (f t)) -> keeps (both RT RW) (assign f).
Proof using RW_refl. intros Hf [t w]. split; [apply Hf|apply RW_refl]. Qed.
End KeepsOnObject.

Lemma both_refl {T : Type} (RT : T -> T -> Prop) (RW : World -> World -> Prop) :
  (forall t, RT t t) -> (forall w, RW w w) -> forall s, both RT RW s s.
Proof. intros HT HW s. split; auto. Qed.

Lemma both_trans {T : Type} (RT : T -> T -> Prop) (RW : World -> World -> Prop) :
  (forall a b c, RT a b -> RT b c -> RT a c) ->
  (forall a b c, RW a b -> RW b c -> RW a c) ->
  forall a b c, both RT RW a b -> both RT RW b c -> both RT RW a c.
Proof. intros HT HW a b c [H1 H2] [G1 G2]. split; eauto. Qed.

(** *** No remote request *)

Lemma no_remote_refl (w : World) : no_remote w w.
Proof. split; reflexivity. Qed.

Lemma no_remote_trans (a b c : World) : no_remote a b -> no_remote b c -> no_remote a c.
Proof. intros [H1 H2] [G1 G2]. split; congruence. Qed.

Lemma same_mode_refl (t : LLMService) : same_mode t t.
Proof. reflexivity. Qed.

Lemma same_mode_trans (a b c : LLMService) : same_mode a b -> same_mode b c -> same_mode a c.
Proof. unfold same_mode. congruence. Qed.

Lemma remote_calls_emit (w : World) (e : Event) :
  is_fetch e = false -> List.filter is_fetch (trace w ++ [e]) = remote_calls w.
Proof.
  intros H. unfold remote_calls. rewrite List.filter_app. cbn. rewrite H. apply app_nil_r.
Qed.

Lemma invoke_no_remote {A : Type} (c : Command) (f : World -> Db -> A * Db) :
  keeps no_remote (invoke c f).
Proof.
  intros w. unfold invoke. destruct (ipc (env w) (n_ipc w)); [|destruct (f w (db w))];
    (split; [reflexivity|now apply remote_calls_emit]).
Qed.

Lemma executeCommand_no_remote (program : string) (args : list string) :
  keeps no_remote (executeCommand program args).
Proof.
  intros w. unfold executeCommand. destruct (shell (env w) (n_shell w));
    (split; [reflexivity|now apply remote_calls_emit]).
Qed.

Lemma startGateway_no_remote (port : N) : keeps no_remote (startGateway port).
Proof.
  intros w. unfold startGateway. split; [reflexivity|now apply remote_calls_emit].
Qed.

Lemma delay_no_remote (ms : N) : keeps no_remote (delay ms).
Proof. intros w. split; [reflexivity|now apply remote_calls_emit]. Qed.

Create HintDb footprint discriminated.

#[local] Hint Resolve keeps_ret keeps_throw keeps_bind keeps_try_catch
  keeps_liftW keeps_this keeps_assign both_refl both_trans
  no_remote_refl no_remote_trans same_mode_refl same_mode_trans
  invoke_no_remote executeCommand_no_remote startGateway_no_remote delay_no_remote
  : footprint.
#[local] Hint Extern 1 (keeps _ (if ?c then _ else _)) => destruct c : footprint.
#[local] Hint Extern 1 (keeps _ (match ?x with Some _ => _ | None => _ end)) =>
  destruct x : footprint.

Lemma read_no_remote {A : Type} (f : World -> A) : keeps no_remote (read f).
Proof. intros w. apply no_remote_refl. Qed.

#[local] Hint Resolve read_no_remote : footprint.

(** Walks down a computation, leaving the primitives to the hints. *)
Ltac footprint :=
  repeat (intros; cbv zeta;
          lazymatch goal with
          | |- keeps _ (bind _ _) =>
              apply keeps_bind; [solve [eauto 6 with footprint] | |]
          | |- keeps _ (try_catch _ _) =>
              apply keeps_try_catch; [solve [eauto 6 with footprint] | |]
          | |- keeps _ (if ?c then _ else _) => destruct c
          | |- keeps _ (match ?x with Some _ => _ | None => _ end) => destruct x
          | |- keeps _ _ => solve [eauto 6 with footprint]
          end).

Lemma _executeSetup_no_remote : keeps no_remote _executeSetup.
Proof.
  unfold _executeSetup, checkNodeInstalled, installOpenClaw, runOpenClawOnboard, addLog.
  footprint.
Qed.

#[local] Hint Resolve _executeSetup_no_remote : footprint.
#[local] Hint Extern 1 (same_mode _ _) => reflexivity : footprint.

Lemma _localInference_no_remote (message : string) :
  keeps (both same_mode no_remote) (_localInference message).
Proof.
  unfold _localInference, createAgent, addLog, addApproval.
  footprint.
Qed.

Lemma sendMessage_local (text : string) (s : Sys) :
  mode (fst s) = "local" -> both same_mode no_remote s (snd (sendMessage text s)).
Proof.
  intros Hmode. destruct s as [t w]. cbn [fst] in Hmode.
  unfold sendMessage.
  assert (Hsend : keeps (both same_mode no_remote)
            (try_catch
               (response <- _localInference text ;;
                assign (push "assistant" response) ;; ret response)
               (fun _ => fallback <- _localInference text ;;
                         assign (push "assistant" fallback) ;; ret fallback))).
  { pose proof (_localInference_no_remote text). footprint. }
  unfold bind at 1. unfold assign at 1. cbn iota beta.
  unfold try_catch at 1. unfold bind at 1. unfold this at 1. cbn iota beta.
  cbn [mode push set_conversationHistory]. rewrite Hmode. cbn [String.eqb Ascii.eqb Bool.eqb andb].
  specialize (Hsend (push "user" text t, w)).
  unfold try_catch at 1 in Hsend.
  destruct Hsend as [H1 H2]. split; [|exact H2].
  cbn [fst] in *. exact H1.
Qed.


Lemma send_all_local (texts : list string) (s : Sys) :
  mode (fst s) = "local" -> both same_mode no_remote s (send_all texts s).
Proof.
  revert s. induction texts as [|text texts IH]; intros s Hmode.
  - split; [reflexivity|apply no_remote_refl].
  - cbn [send_all fold_left]. fold (send_all texts (snd (sendMessage text s))).
    pose proof (sendMessage_local text s Hmode) as H1.
    assert (Hmode' : mode (fst (snd (sendMessage text s))) = "local").
    { destruct H1 as [H1 _]. unfold same_mode in H1. congruence. }
    eapply both_trans; [exact same_mode_trans|exact no_remote_trans|exact H1|].
    apply IH. exact Hmode'.
Qed.

(** ** Switching back to the local backend *)

Lemma deleteSetting_run (key : string) (w : World) :
  deleteSetting key w =
  match ipc (env w) (n_ipc w) with
  | None =>
      (Ok tt,
       ipc_done (delete_setting key) true
         {| settings := delete key (settings (db w)); agents := agents (db w);
            logs := logs (db w); approvals := approvals (db w) |} w)
  | Some e => (Throw e, ipc_done (delete_setting key) false (db w) w)
  end.
Proof. unfold deleteSetting, invoke. now destruct (ipc (env w) (n_ipc w)). Qed.

(** The engine [switchToLocal] leaves, whatever the store answers. *)
Lemma switchToLocal_engine (t : LLMService) (w : World) :
  fst (snd (switchToLocal (t, w))) =
  set_model (Some "phi-3-mini") (set_apiKey None (set_mode "local" t)).
Proof.
  unfold switchToLocal, bind, try_catch, assign, liftW, ret.
  repeat (cbn beta iota; cbn [n_ipc ipc_done env db fst snd];
          rewrite ?deleteSetting_run, ?addLog_run;
          try match goal with
              | |- context [match ipc ?e ?n with _ => _ end] => destruct (ipc e n)
              end);
    reflexivity.
Qed.

Lemma switchToLocal_no_remote (t : LLMService) (w : World) :
  no_remote w (snd (snd (switchToLocal (t, w)))).
Proof.
  unfold switchToLocal, bind, try_catch, assign, liftW, ret.
  repeat (cbn beta iota; cbn [n_ipc ipc_done env db fst snd];
          rewrite ?deleteSetting_run, ?addLog_run;
          try match goal with
              | |- context [match ipc ?e ?n with _ => _ end] => destruct (ipc e n)
              end);
    (split; [reflexivity|]); unfold remote_calls; cbn [trace ipc_done];
    rewrite !List.filter_app; cbn; now rewrite ?app_nil_r.
Qed.

(** C7.  Once [switchToLocal] has run, from any engine and any world
    (whatever key the engine held and whatever the settings table holds),
    [getMode] answers "local"; and after any number of messages sent from
    there the mode is still "local" and no remote request has been made:
    the count of HTTP calls and the requests in the trace are those of the
    world [switchToLocal] started in. *)
Theorem switchToLocal_then_local (t : LLMService) (w : World) (texts : list string) :
  let s1 := snd (switchToLocal (t, w)) in
  let s2 := send_all texts s1 in
  getMode (fst s1) = "local" /\
  getMode (fst s2) = "local" /\
  n_http (snd s2) = n_http w /\
  remote_calls (snd s2) = remote_calls w.
Proof.
  intros s1 s2.
  assert (H1 : getMode (fst s1) = "local").
  { subst s1. now rewrite switchToLocal_engine. }
  destruct (send_all_local texts s1 H1) as [Hm [Hn Hr]].
  destruct (switchToLocal_no_remote t w) as [Hn1 Hr1].
  fold s1 in Hn1, Hr1. fold s2 in Hm, Hn, Hr.
  unfold same_mode, getMode in *. repeat split; congruence.
Qed.

(** An engine on the first provider, its key in memory, is switched back;
    a greeting, a setup request and its confirmation follow. *)
Lemma switchToLocal_then_local_witness :
  n_http (snd (send_all ["hello"; "setup please"; "yes"]
                 (snd (switchToLocal (remote_engine, boot offline_env))))) = 0 /\
  n_http (snd (send_all ["hello"] (remote_engine, boot offline_env))) = 1.
Proof.
  split; [|vm_compute; reflexivity].
  apply (switchToLocal_then_local remote_engine (boot offline_env)
           ["hello"; "setup please"; "yes"]).
Defined.

(** C8, as amended.  [switchToLocal] sets the mode to "local", clears the
    key in memory and sets the model in memory to "phi-3-mini"; the rest
    of the engine is untouched.  It sends the deletions of [llm_provider],
    [llm_api_key] and [llm_model], in this order, up to the first one the
    store rejects: with [k] the number of deletions that resolve before
    the first rejection, exactly the first [k] settings are deleted, the
    trace holds those [k] deletions as resolved, then the rejected one if
    [k < 3], and no later deletion is sent; that rejection is swallowed.
    Its last effect is one [add_log] call for the system entry that records
    the switch, which is the next call into the store: when the store
    accepts it the entry is appended and the call returns; when the store
    rejects it nothing is appended and the value the store rejected it
    with is thrown to the caller.  Agents and approvals are untouched. *)
Theorem switchToLocal_effects (t : LLMService) (w : World) :
  let r := fst (switchToLocal (t, w)) in
  let t' := fst (snd (switchToLocal (t, w))) in
  let w' := snd (snd (switchToLocal (t, w))) in
  let keys := ["llm_provider"; "llm_api_key"; "llm_model"] in
  let k := resolving (env w) (n_ipc w) 3 in
  let sent := Nat.min 3 (S k) in
  let entry := add_log "system" "LLM switched to local (Phi-3)" "success"
                       EmptyString EmptyString in
  (mode t' = "local" /\ apiKey t' = None /\ model t' = Some "phi-3-mini" /\
   conversationHistory t' = conversationHistory t /\
   _pendingSetup t' = _pendingSetup t /\
   _lastSuggestedAgent t' = _lastSuggestedAgent t) /\
  settings (db w') = fold_left (fun m key => delete key m) (firstn k keys) (settings (db w)) /\
  agents (db w') = agents (db w) /\ approvals (db w') = approvals (db w) /\
  n_ipc w' = S (n_ipc w + sent) /\
  match ipc (env w) (n_ipc w + sent) with
  | None =>
      r = Ok tt /\
      trace w' = trace w ++ sent_until k (map delete_setting keys) ++ [EInvoke entry true] /\
      logs (db w') =
        logs (db w) ++
        [log_row (length (logs (db w))) "system" "LLM switched to local (Phi-3)" "success"
                 EmptyString EmptyString (clock (env w))]
  | Some e =>
      r = Throw e /\
      trace w' = trace w ++ sent_until k (map delete_setting keys) ++ [EInvoke entry false] /\
      logs (db w') = logs (db w)
  end.
Proof.
  intros r t' w' keys k sent entry. split.
  { subst t'. rewrite switchToLocal_engine. repeat split. }
  subst r w' keys k sent entry.
  unfold switchToLocal, bind, try_catch, assign, liftW, ret.
  cbn beta iota. rewrite deleteSetting_run. cbn [resolving].
  destruct (ipc (env w) (n_ipc w)) as [e0|] eqn:E0.
  { cbn beta iota. cbn [fst snd Nat.min]. rewrite addLog_run. cbn [n_ipc ipc_done env db].
    rewrite Nat.add_1_r.
    destruct (ipc (env w) (S (n_ipc w))) as [e|];
      cbn [fst snd trace ipc_done db logs settings agents approvals n_ipc firstn fold_left
           sent_until map nth_error app];
      rewrite <- ?app_assoc; repeat split. }
  cbn beta iota. cbn [fst snd n_ipc ipc_done env db]. rewrite deleteSetting_run.
  cbn [n_ipc ipc_done env db].
  destruct (ipc (env w) (S (n_ipc w))) as [e1|] eqn:E1.
  { cbn beta iota. cbn [fst snd Nat.min]. rewrite addLog_run. cbn [n_ipc ipc_done env db].
    replace (n_ipc w + 2) with (S (S (n_ipc w))) by lia.
    destruct (ipc (env w) (S (S (n_ipc w)))) as [e|];
      cbn [fst snd trace ipc_done db logs settings agents approvals n_ipc firstn fold_left
           sent_until map nth_error app];
      rewrite <- ?app_assoc; repeat split. }
  cbn beta iota. cbn [fst snd n_ipc ipc_done env db]. rewrite deleteSetting_run.
  cbn [n_ipc ipc_done env db].
  replace (n_ipc w + Nat.min 3 (S (S (S (match ipc (env w) (S (S (n_ipc w))) with
                                          | Some _ => 0
                                          | None => 1
                                          end)))))
    with (S (S (S (n_ipc w)))) by (destruct (ipc (env w) (S (S (n_ipc w)))); cbn; lia).
  destruct (ipc (env w) (S (S (n_ipc w)))) as [e2|] eqn:E2;
    cbn beta iota; cbn [fst snd]; rewrite addLog_run; cbn [n_ipc ipc_done env db];
    destruct (ipc (env w) (S (S (S (n_ipc w))))) as [e|];
    cbn [fst snd trace ipc_done db logs settings agents approvals n_ipc firstn fold_left
         sent_until map nth_error app];
    rewrite <- ?app_assoc; repeat split.
Qed.

(** An engine on the first provider, with the three settings stored, is
    switched back while the store works; and while the store rejects the
    second deletion, so that the key and the model stay stored. *)
Lemma switchToLocal_effects_witness :
  let s := snd (switchToAPI "openai" "sk-test" None (constructor, boot quiet_env)) in
  let s1 := snd (switchToAPI "openai" "sk-test" None (constructor, boot locked_once_env)) in
  settings (db (snd s)) !! "llm_api_key" = Some "sk-test" /\
  settings (db (snd (snd (switchToLocal s)))) = ∅ /\
  mode (fst (snd (switchToLocal s))) = "local" /\
  apiKey (fst (snd (switchToLocal s))) = None /\
  settings (db (snd (snd (switchToLocal s1)))) = delete "llm_provider" (settings (db (snd s1))) /\
  fst (switchToLocal s1) = Ok tt.
Proof.
  intros s s1. split; [vm_compute; reflexivity|]. split; [vm_compute; reflexivity|].
  pose proof (switchToLocal_effects (fst s) (snd s)) as H.
  pose proof (switchToLocal_effects (fst s1) (snd s1)) as H1.
  cbv zeta in H, H1. rewrite <- !surjective_pairing in H, H1.
  destruct H as ((Hm & Hk & _) & _).
  destruct H1 as (_ & Hset & _ & _ & _ & Hlog).
  split; [exact Hm|]. split; [exact Hk|]. split.
  - rewrite Hset. reflexivity.
  - change (ipc (env (snd s1)) (n_ipc (snd s1) + Nat.min 3 (S (resolving (env (snd s1)) (n_ipc (snd s1)) 3))))
      with (@None Thrown) in Hlog.
    apply Hlog.
Defined.

(** The model is not left absent: it is set to the name of the local
    model. *)
Lemma switchToLocal_sets_model :
  model (fst (snd (switchToLocal (remote_engine, boot quiet_env)))) = Some "phi-3-mini" /\
  apiKey (fst (snd (switchToLocal (remote_engine, boot quiet_env)))) = None /\
  fst (switchToLocal (remote_engine, boot quiet_env)) = Ok tt.
Proof. repeat split; vm_compute; reflexivity. Qed.

(** ** The setup sequence *)

(** Each collaborator step ends the same way whatever the command did. *)
Lemma check_node_step (w : World) :
  try_catch checkNodeInstalled (fun _ => ret false) w =
  (Ok (node_detected w), shell_done "node" ["--version"] w).
Proof.
  unfold try_catch, checkNodeInstalled, bind, executeCommand, node_detected, ret.
  now destruct (shell (env w) (n_shell w)).
Qed.

Lemma install_step (report : string) (w : World) :
  try_catch
    (installResult <- installOpenClaw ;;
     if success installResult
     then ret (report +:+ setup_installed)
     else ret (report +:+ setup_installed))
    (fun _ => ret (report +:+ setup_installed)) w =
  (Ok (report +:+ setup_installed),
   shell_done "npm" ["install"; "-g"; "openclaw@latest"] w).
Proof.
  unfold try_catch, installOpenClaw, bind, executeCommand, ret.
  destruct (shell (env w) (n_shell w)) as [c out err|e]; cbn [success];
    [destruct (c =? 0)%Z|]; reflexivity.
Qed.

Lemma onboard_step (w : World) :
  try_catch (runOpenClawOnboard ;; ret tt) (fun _ => ret tt) w =
  (Ok tt, shell_done "openclaw" ["onboard"; "--non-interactive"] w).
Proof.
  unfold try_catch, runOpenClawOnboard, bind, executeCommand, ret.
  now destruct (shell (env w) (n_shell w)).
Qed.

Lemma gateway_step (w : World) :
  try_catch (startGateway 18789%N ;; ret tt) (fun _ => ret tt) w =
  (Ok tt, shell_done "openclaw" ["gateway"; "--port"; string_of_N 18789%N] w).
Proof.
  unfold try_catch, bind, startGateway, ret. reflexivity.
Qed.

Lemma bind_run {S A B : Type} (m : M S A) (k : A -> M S B) (s : S) :
  bind m k s =
  match m s with
  | (Ok a, s') => k a s'
  | (Throw e, s') => (Throw e, s')
  end.
Proof. reflexivity. Qed.

Lemma ret_run {S A : Type} (a : A) (s : S) : ret a s = (Ok a, s).
Proof. reflexivity. Qed.

Lemma read_run {A : Type} (f : World -> A) (w : World) : read f w = (Ok (f w), w).
Proof. reflexivity. Qed.

Lemma delay_run (ms : N) (w : World) : delay ms w = (Ok tt, emit (EDelay ms) w).
Proof. reflexivity. Qed.

(** Runs the sequence one step further, reading the store's answers from
    the hypotheses. *)
Ltac setup_run :=
  repeat first
    [ rewrite bind_run
    | progress cbv beta iota zeta
    | progress cbn [n_ipc ipc_done shell_done emit env db settings agents logs approvals]
    | rewrite addLog_run
    | match goal with H : ipc _ _ = _ |- _ => rewrite H end
    | rewrite delay_run | rewrite ret_run
    | rewrite check_node_step | rewrite install_step | rewrite onboard_step
    | rewrite gateway_step | rewrite read_run ].

Lemma this_run {T : Type} (t : T) (w : World) : @this T (t, w) = (Ok t, (t, w)).
Proof. reflexivity. Qed.

Lemma assign_run {T : Type} (f : T -> T) (t : T) (w : World) :
  assign f (t, w) = (Ok tt, (f t, w)).
Proof. reflexivity. Qed.

(** *** No shell command *)

Lemma no_shell_refl (w : World) : no_shell w w.
Proof. split; reflexivity. Qed.

Lemma no_shell_trans (a b c : World) : no_shell a b -> no_shell b c -> no_shell a c.
Proof. intros [H1 H2] [G1 G2]. split; congruence. Qed.

Lemma invoke_no_shell {A : Type} (c : Command) (f : World -> Db -> A * Db) :
  keeps no_shell (invoke c f).
Proof.
  intros w. unfold invoke. destruct (ipc (env w) (n_ipc w)); [|destruct (f w (db w))];
    (split; [reflexivity|]); cbn [snd trace ipc_done];
    rewrite List.filter_app; cbn; apply app_nil_r.
Qed.

#[local] Hint Resolve no_shell_refl no_shell_trans invoke_no_shell : footprint.

(** The complete run of the sequence, when the store accepts the five
    log writes. *)
Lemma _executeSetup_complete (w : World) :
  (forall k, k < 5 -> ipc (env w) (n_ipc w + k) = None) ->
  exists w' new,
    _executeSetup w = (Ok (setup_report (detectOS w) (node_detected w)), w') /\
    logs (db w') = logs (db w) ++ new /\
    map Log.action new = setup_actions /\
    Forall (fun e => Log.status e = "success" /\ Log.agent_id e = "system") new.
Proof.
  intros H.
  pose proof (H 0 ltac:(lia)) as H0. pose proof (H 1 ltac:(lia)) as H1.
  pose proof (H 2 ltac:(lia)) as H2. pose proof (H 3 ltac:(lia)) as H3.
  pose proof (H 4 ltac:(lia)) as H4. clear H.
  rewrite ?Nat.add_succ_r, ?Nat.add_0_r in *.
  unfold _executeSetup. setup_run.
  eexists _, _. split; [reflexivity|].
  cbn [db ipc_done logs]. rewrite <- !app_assoc.
  split; [reflexivity|]. cbn. split; [reflexivity|]. repeat constructor.
Qed.

(** The run that stops at the first log write the store rejects. *)
Lemma _executeSetup_aborted (w : World) (k : nat) (e : Thrown) :
  k < 5 ->
  (forall j, j < k -> ipc (env w) (n_ipc w + j) = None) ->
  ipc (env w) (n_ipc w + k) = Some e ->
  exists w' new,
    _executeSetup w = (Throw e, w') /\
    logs (db w') = logs (db w) ++ new /\
    map Log.action new = firstn k setup_actions /\
    Forall (fun e => Log.status e = "success" /\ Log.agent_id e = "system") new.
Proof.
  intros Hk H He.
  destruct k as [|[|[|[|[|k]]]]]; [| | | | |lia].
  - rewrite ?Nat.add_succ_r, ?Nat.add_0_r in *.
    unfold _executeSetup. setup_run.
    eexists _, []. split; [reflexivity|]. cbn [db ipc_done logs shell_done].
    rewrite app_nil_r. repeat split. constructor.
  - pose proof (H 0 ltac:(lia)) as H0. clear H.
    rewrite ?Nat.add_succ_r, ?Nat.add_0_r in *.
    unfold _executeSetup. setup_run.
    eexists _, _. split; [reflexivity|]. cbn [db ipc_done logs]. rewrite <- ?app_assoc.
    split; [reflexivity|]. cbn. split; [reflexivity|]. repeat constructor.
  - pose proof (H 0 ltac:(lia)) as H0. pose proof (H 1 ltac:(lia)) as H1. clear H.
    rewrite ?Nat.add_succ_r, ?Nat.add_0_r in *.
    unfold _executeSetup. setup_run.
    eexists _, _. split; [reflexivity|]. cbn [db ipc_done logs]. rewrite <- ?app_assoc.
    split; [reflexivity|]. cbn. split; [reflexivity|]. repeat constructor.
  - pose proof (H 0 ltac:(lia)) as H0. pose proof (H 1 ltac:(lia)) as H1.
    pose proof (H 2 ltac:(lia)) as H2. clear H.
    rewrite ?Nat.add_succ_r, ?Nat.add_0_r in *.
    unfold _executeSetup. setup_run.
    eexists _, _. split; [reflexivity|]. cbn [db ipc_done logs]. rewrite <- ?app_assoc.
    split; [reflexivity|]. cbn. split; [reflexivity|]. repeat constructor.
  - pose proof (H 0 ltac:(lia)) as H0. pose proof (H 1 ltac:(lia)) as H1.
    pose proof (H 2 ltac:(lia)) as H2. pose proof (H 3 ltac:(lia)) as H3. clear H.
    rewrite ?Nat.add_succ_r, ?Nat.add_0_r in *.
    unfold _executeSetup. setup_run.
    eexists _, _. split; [reflexivity|]. cbn [db ipc_done logs]. rewrite <- ?app_assoc.
    split; [reflexivity|]. cbn. split; [reflexivity|]. repeat constructor.
Qed.

(** Outside rule 1 the local inference runs no shell command. *)
Lemma _localInference_other_rules (message : string) (t : LLMService) (w : World) :
  _pendingSetup t && says_go (trim (toLowerCase message)) = false ->
  no_shell w (snd (snd (_localInference message (t, w)))).
Proof.
  intros H. unfold _localInference. cbv zeta. rewrite bind_run, this_run, H.
  match goal with
  | |- no_shell _ (snd (snd (?m _))) =>
      assert (Hm : keeps (both same_mode no_shell) m)
  end.
  { unfold createAgent, addLog, addApproval. footprint. }
  exact (proj2 (Hm (t, w))).
Qed.


Lemma report_has_fragments (os : string) (nodeDetected : bool) :
  includes (setup_report os nodeDetected) "✅ OpenClaw v2.1.0 installed successfully!" = true /\
  includes (setup_report os nodeDetected) "✅ Configuration files created" = true /\
  includes (setup_report os nodeDetected) "✅ Gateway started on port 18789" = true /\
  includes (setup_report os nodeDetected) "🎉 **Setup Complete!**" = true.
Proof.
  unfold setup_report. repeat split.
  - do 5 apply includes_append_l. apply includes_append_r.
    apply prefix_includes. vm_compute. reflexivity.
  - do 3 apply includes_append_l. apply includes_append_r.
    apply prefix_includes. vm_compute. reflexivity.
  - do 1 apply includes_append_l. apply includes_append_r.
    apply prefix_includes. vm_compute. reflexivity.
  - apply includes_append_r. apply prefix_includes. vm_compute. reflexivity.
Qed.

(** C9, as amended.  The setup sequence runs exactly when rule 1 fires
    (the confirmation is pending and the message holds an affirmation
    word); under every other rule no shell command is run.  When the store
    accepts its log writes the sequence returns its report and has
    appended five entries, one per step and the closing one, all of status
    success; the report is made of the fixed fragments, which depend on the
    detected OS and on the Node.js check only, so the install, onboarding
    and gateway fragments announce success whatever the three commands
    did.  When the store rejects one of the log writes the sequence stops
    there: the entries written before stay, the rejection is thrown and no
    report is returned. *)
Theorem setup_sequence_effects (message : string) (t : LLMService) (w : World) :
  let go := _pendingSetup t && says_go (trim (toLowerCase message)) in
  (go = true ->
   _localInference message (t, w) = liftW _executeSetup (set_pendingSetup false t, w)) /\
  (go = false -> no_shell w (snd (snd (_localInference message (t, w))))) /\
  ((forall k, k < 5 -> ipc (env w) (n_ipc w + k) = None) ->
   exists w' new,
     _executeSetup w = (Ok (setup_report (detectOS w) (node_detected w)), w') /\
     logs (db w') = logs (db w) ++ new /\
     map Log.action new = setup_actions /\
     Forall (fun e => Log.status e = "success" /\ Log.agent_id e = "system") new) /\
  (forall k e, k < 5 ->
   (forall j, j < k -> ipc (env w) (n_ipc w + j) = None) ->
   ipc (env w) (n_ipc w + k) = Some e ->
   exists w' new,
     _executeSetup w = (Throw e, w') /\
     logs (db w') = logs (db w) ++ new /\
     map Log.action new = firstn k setup_actions /\
     Forall (fun e => Log.status e = "success" /\ Log.agent_id e = "system") new) /\
  length setup_actions = 5 /\
  forall os nodeDetected,
    includes (setup_report os nodeDetected) "✅ OpenClaw v2.1.0 installed successfully!" = true /\
    includes (setup_report os nodeDetected) "✅ Configuration files created" = true /\
    includes (setup_report os nodeDetected) "✅ Gateway started on port 18789" = true /\
    includes (setup_report os nodeDetected) "🎉 **Setup Complete!**" = true.
Proof.
  intros go. split; [|split; [|split; [|split; [|split]]]].
  - intros Hgo. unfold _localInference. cbv zeta. rewrite bind_run, this_run.
    fold go. rewrite Hgo. reflexivity.
  - apply _localInference_other_rules.
  - apply _executeSetup_complete.
  - intros k e. apply _executeSetup_aborted.
  - reflexivity.
  - apply report_has_fragments.
Qed.

(** The confirmation "yes" while the shell plugin refuses every command,
    and while npm exits with an error: the report is the same but for the
    OS line and five entries are written. *)
Lemma setup_sequence_effects_witness :
  fst (_localInference "yes" (engine_awaiting_setup, boot no_shell_env))
  = Ok (setup_report "windows" false) /\
  fst (_localInference "yes" (engine_awaiting_setup, boot offline_env))
  = Ok (setup_report "linux" false) /\
  map Log.status
      (logs (db (snd (snd (_localInference "yes" (engine_awaiting_setup, boot offline_env))))))
  = ["success"; "success"; "success"; "success"; "success"].
Proof.
  rewrite (proj1 (setup_sequence_effects "yes" engine_awaiting_setup (boot no_shell_env))
             eq_refl).
  rewrite (proj1 (setup_sequence_effects "yes" engine_awaiting_setup (boot offline_env))
             eq_refl).
  split; [|split]; vm_compute; reflexivity.
Defined.

(** The store rejects the first log write: the sequence, which has run
    (it has checked Node.js), throws and leaves no entry. *)
Lemma setup_aborts_without_logs :
  _pendingSetup engine_awaiting_setup && says_go (trim (toLowerCase "yes")) = true /\
  fst (_localInference "yes" (engine_awaiting_setup, boot broken_env))
  = Throw (Rejected "database is locked") /\
  logs (db (snd (snd (_localInference "yes" (engine_awaiting_setup, boot broken_env))))) = [] /\
  trace (snd (snd (_localInference "yes" (engine_awaiting_setup, boot broken_env)))) =
    [EShell "node" ["--version"];
     EInvoke (add_log "system" "Setup — system check passed" "success"
                ("OS: linux" +:+ nl +:+ "Node.js: detected" +:+ nl +:+ "npm: detected")
                EmptyString) false].
Proof. repeat split; vm_compute; reflexivity. Qed.

(** ** Confirming a draft *)

Lemma createAgent_run (data : AgentConfig) (w : World) :
  createAgent data w =
  match ipc (env w) (n_ipc w) with
  | None =>
      (Ok (string_of_nat (S (length (agents (db w))))),
       ipc_done (create_agent (create_agent_args data)) true
         (snd (db_create_agent (create_agent_args data) (db w))) w)
  | Some e => (Throw e, ipc_done (create_agent (create_agent_args data)) false (db w) w)
  end.
Proof. unfold createAgent, invoke. now destruct (ipc (env w) (n_ipc w)). Qed.

Lemma try_catch_run {S A : Type} (m : M S A) (h : Thrown -> M S A) (s : S) :
  try_catch m h s =
  match m s with
  | (Ok a, s') => (Ok a, s')
  | (Throw e, s') => h e s'
  end.
Proof. reflexivity. Qed.

Lemma liftW_run {T A : Type} (m : M World A) (t : T) (w : World) :
  liftW m (t, w) = (fst (m w), (t, snd (m w))).
Proof. unfold liftW. now destruct (m w). Qed.

(** Rule 3 is reached and the draft is confirmed. *)
Lemma _localInference_rule3 (message : string) (t : LLMService) (w : World)
      (agent : AgentConfig) :
  _pendingSetup t && says_go (trim (toLowerCase message)) = false ->
  asks_setup (trim (toLowerCase message)) = false ->
  says_confirm (trim (toLowerCase message)) = true ->
  _lastSuggestedAgent t = Some agent ->
  _localInference message (t, w) =
  try_catch
    (liftW (createAgent agent) ;;
     liftW (addLog "system" ("Agent created via chat: " +:+ name agent) "success"
                   (json_agent agent) EmptyString) ;;
     (if includes (tools agent) "browser"
      then liftW (addApproval "system" "agent_creation"
                              ("Created: " +:+ name agent +:+ " — " +:+ goal agent)) ;;
           ret tt
      else ret tt) ;;
     assign (set_lastSuggestedAgent None) ;;
     ret (reply_agent_created agent))
    (fun e => ret (reply_create_failed e)) (t, w).
Proof.
  intros H1 H2 H3 H4. unfold _localInference. cbv zeta.
  rewrite bind_run, this_run, H1, H2, H3, H4. reflexivity.
Qed.

Lemma grows_refl (w : World) : grows w w.
Proof. exists []. now rewrite app_nil_r. Qed.

Lemma grows_trans (a b c : World) : grows a b -> grows b c -> grows a c.
Proof. intros [r1 H1] [r2 H2]. exists (r1 ++ r2). now rewrite H2, H1, app_assoc. Qed.

Lemma invoke_grows {A : Type} (c : Command) (f : World -> Db -> A * Db) :
  keeps grows (invoke c f).
Proof.
  intros w. unfold invoke. destruct (ipc (env w) (n_ipc w)); [|destruct (f w (db w))];
    eexists; reflexivity.
Qed.

#[local] Hint Resolve grows_refl grows_trans invoke_grows : footprint.

(** What follows the creation of the agent in rule 3 only adds to the trace. *)
Lemma rule3_tail_grows (agent : AgentConfig) :
  keeps (both same_mode grows)
    (liftW (addLog "system" ("Agent created via chat: " +:+ name agent) "success"
                   (json_agent agent) EmptyString) ;;
     (if includes (tools agent) "browser"
      then liftW (addApproval "system" "agent_creation"
                              ("Created: " +:+ name agent +:+ " — " +:+ goal agent)) ;;
           ret tt
      else ret tt) ;;
     assign (set_lastSuggestedAgent None) ;;
     ret (reply_agent_created agent)).
Proof. unfold addLog, addApproval. footprint. Qed.

(** C5, as amended.  When the creation of the drafted agent throws during
    the confirmation (rule 3), the reply is the failure message, which
    names what was thrown, and the engine is exactly as it was: the draft
    is kept.  So the same confirmation, sent again in any world, starts
    again by asking the store to create the same draft. *)
Theorem failed_creation_keeps_draft (message : string) (t : LLMService) (w : World)
        (agent : AgentConfig) (e : Thrown) :
  _pendingSetup t && says_go (trim (toLowerCase message)) = false ->
  asks_setup (trim (toLowerCase message)) = false ->
  says_confirm (trim (toLowerCase message)) = true ->
  _lastSuggestedAgent t = Some agent ->
  ipc (env w) (n_ipc w) = Some e ->
  _localInference message (t, w) =
    (Ok (reply_create_failed e),
     (t, ipc_done (create_agent (create_agent_args agent)) false (db w) w)) /\
  includes (reply_create_failed e) (message_or_self e) = true /\
  forall w2, exists resolved rest,
    trace (snd (snd (_localInference message (t, w2)))) =
    trace w2 ++ EInvoke (create_agent (create_agent_args agent)) resolved :: rest.
Proof.
  intros H1 H2 H3 H4 He. split; [|split].
  - rewrite (_localInference_rule3 message t w agent H1 H2 H3 H4).
    rewrite try_catch_run, bind_run, liftW_run, createAgent_run, He. reflexivity.
  - unfold reply_create_failed. apply includes_append_r, includes_append_l.
    apply prefix_includes, prefix_refl.
  - intros w2. rewrite (_localInference_rule3 message t w2 agent H1 H2 H3 H4).
    rewrite try_catch_run, bind_run, liftW_run, createAgent_run.
    destruct (ipc (env w2) (n_ipc w2)) as [e2|] eqn:E2; cbn [fst snd].
    + exists false, []. reflexivity.
    + match goal with
      | |- context [?m (t, ?w3)] =>
          lazymatch m with
          | bind _ _ =>
              destruct (rule3_tail_grows agent (t, w3)) as [_ [rest Hrest]];
              destruct (m (t, w3)) as [[r|e3] [t4 w4]]
          end
      end;
        cbn [fst snd ret] in *; exists true, rest; rewrite Hrest;
        cbn [trace ipc_done]; now rewrite <- app_assoc.
Qed.

(** A draft is held, the user confirms, the store is locked. *)
Lemma failed_creation_keeps_draft_witness :
  fst (_localInference "yes" (engine_with_draft, boot broken_env))
  = Ok (reply_create_failed (Rejected "database is locked")) /\
  _lastSuggestedAgent (fst (snd (_localInference "yes" (engine_with_draft, boot broken_env))))
  = Some trending_draft.
Proof.
  rewrite (proj1 (failed_creation_keeps_draft "yes" engine_with_draft (boot broken_env)
                    trending_draft (Rejected "database is locked")
                    eq_refl eq_refl eq_refl eq_refl eq_refl)).
  split; reflexivity.
Defined.

(** The claim has the draft cleared; it is still there, and a second "yes"
    asks the store for the same agent a second time. *)
Lemma failed_creation_does_not_clear :
  _lastSuggestedAgent engine_with_draft = Some trending_draft /\
  fst (_localInference "yes" (engine_with_draft, boot broken_env))
  = Ok (reply_create_failed (Rejected "database is locked")) /\
  _lastSuggestedAgent (fst (snd (_localInference "yes" (engine_with_draft, boot broken_env))))
  = Some trending_draft /\
  trace (snd (snd (_localInference "yes"
                     (snd (_localInference "yes" (engine_with_draft, boot broken_env))))))
  = [EInvoke (create_agent (create_agent_args trending_draft)) false;
     EInvoke (create_agent (create_agent_args trending_draft)) false].
Proof. repeat split; vm_compute; reflexivity. Qed.

(** ** Falling back to the local backend *)

(** *** What a computation does not depend on *)

Section Stable.
Context {S : Type} (R : S -> S -> Prop).

Lemma stable_ret {A : Type} (a : A) : stable R (ret a).
Proof. intros s1 s2 H. split; [reflexivity|exact H]. Qed.

Lemma stable_bind {A B : Type} (m : M S A) (k : A -> M S B) :
  stable R m -> (forall a, stable R (k a)) -> stable R (bind m k).
Proof.
  intros Hm Hk s1 s2 H. unfold bind. destruct (Hm s1 s2 H) as [Hr Hs].
  destruct (m s1) as [[a1|e1] s1'], (m s2) as [[a2|e2] s2']; cbn [fst snd] in *;
    try discriminate.
  - injection Hr as <-. now apply Hk.
  - injection Hr as <-. split; [reflexivity|exact Hs].
Qed.

Lemma stable_try_catch {A : Type} (m : M S A) (h : Thrown -> M S A) :
  stable R m -> (forall e, stable R (h e)) -> stable R (try_catch m h).
Proof.
  intros Hm Hh s1 s2 H. unfold try_catch. destruct (Hm s1 s2 H) as [Hr Hs].
  destruct (m s1) as [[a1|e1] s1'], (m s2) as [[a2|e2] s2']; cbn [fst snd] in *;
    try discriminate.
  - split; [exact Hr|exact Hs].
  - injection Hr as <-. now apply Hh.
Qed.
End Stable.

Section StableOnObject.
Context {T : Type} (RT : T -> T -> Prop) (RW : World -> World -> Prop).

Lemma stable_liftW {A : Type} (m : M World A) :
  stable RW m -> stable (both RT RW) (liftW m).
Proof.
  intros Hm [t1 w1] [t2 w2] [Ht Hw]. cbn [fst snd] in *. rewrite !liftW_run.
  destruct (Hm w1 w2 Hw) as [Hr Hs]. cbn [fst snd]. split; [exact Hr|]. split; assumption.
Qed.

Lemma stable_assign (f : T -> T) :
  (forall t1 t2, RT t1 t2 -> RT (f t1) (f t2)) -> stable (both RT RW) (assign f).
Proof.
  intros Hf [t1 w1] [t2 w2] [Ht Hw]. cbn [fst snd] in *. rewrite !assign_run.
  split; [reflexivity|]. split; cbn [fst snd]; auto.
Qed.
End StableOnObject.

Lemma invoke_stable {A : Type} (c : Command) (f : World -> Db -> A * Db) :
  (forall w1 w2, env w1 = env w2 -> f w1 = f w2) ->
  stable alike_world (invoke c f).
Proof.
  intros Hf w1 w2 (He & Hd & Hi & Hs). unfold invoke.
  rewrite He, Hi, Hd, (Hf w1 w2 He).
  destruct (ipc (env w2) (n_ipc w2)); [|destruct (f w2 (db w2))];
    cbn [fst snd]; (split; [reflexivity|]); unfold alike_world; cbn; auto.
Qed.

Lemma executeCommand_stable (program : string) (args : list string) :
  stable alike_world (executeCommand program args).
Proof.
  intros w1 w2 (He & Hd & Hi & Hs). unfold executeCommand. rewrite He, Hs.
  destruct (shell (env w2) (n_shell w2)); cbn [fst snd]; (split; [reflexivity|]);
    unfold alike_world; cbn; auto.
Qed.

Lemma startGateway_stable (port : N) : stable alike_world (startGateway port).
Proof.
  intros w1 w2 (He & Hd & Hi & Hs). unfold startGateway.
  cbn [fst snd]. split; [reflexivity|]. unfold alike_world; cbn; auto.
Qed.

Lemma delay_stable (ms : N) : stable alike_world (delay ms).
Proof.
  intros w1 w2 (He & Hd & Hi & Hs). split; [reflexivity|]. unfold alike_world; cbn; auto.
Qed.

Lemma detectOS_stable : stable alike_world (read detectOS).
Proof.
  intros w1 w2 H. split; [|exact H]. destruct H as (He & _).
  unfold read, detectOS. cbn [fst]. now rewrite He.
Qed.

Create HintDb stability discriminated.

#[local] Hint Resolve stable_ret stable_bind stable_try_catch stable_liftW stable_assign
  invoke_stable executeCommand_stable startGateway_stable delay_stable detectOS_stable
  : stability.
#[local] Hint Extern 1 (alike_engine _ _) =>
  unfold alike_engine in *; cbn; intuition congruence : stability.
#[local] Hint Extern 1 (_ = _) => congruence : stability.

(** Walks down a computation, leaving the primitives to the hints. *)
Ltac stability :=
  repeat (intros; cbv zeta;
          lazymatch goal with
          | |- stable _ (bind _ _) => apply stable_bind
          | |- stable _ (try_catch _ _) => apply stable_try_catch
          | |- stable _ (if ?c then _ else _) => destruct c
          | |- stable _ (match ?x with Some _ => _ | None => _ end) => destruct x
          | |- stable _ _ => solve [eauto 6 with stability]
          end).

Lemma _executeSetup_stable : stable alike_world _executeSetup.
Proof.
  unfold _executeSetup, checkNodeInstalled, installOpenClaw, runOpenClawOnboard, addLog.
  stability.
Qed.

#[local] Hint Resolve _executeSetup_stable : stability.

(** The local inference reads the two flags of the engine, the database
    and the answers of the store and of the shell, and nothing else:
    neither the history nor the remote requests made so far. *)
Lemma _localInference_alike (message : string) (t1 t2 : LLMService) (w1 w2 : World) :
  alike_engine t1 t2 -> alike_world w1 w2 ->
  fst (_localInference message (t1, w1)) = fst (_localInference message (t2, w2)) /\
  both alike_engine alike_world (snd (_localInference message (t1, w1)))
                                (snd (_localInference message (t2, w2))).
Proof.
  intros Ht Hw. pose proof Ht as (_ & _ & _ & Hp & Hl).
  unfold _localInference. cbv zeta. rewrite !bind_run, !this_run, Hp, Hl.
  match goal with
  | |- fst (?m _) = _ /\ _ => assert (Hm : stable (both alike_engine alike_world) m)
  end.
  { unfold createAgent, addLog, addApproval. stability. }
  apply Hm. split; assumption.
Qed.

(** A failing answer makes either remote call throw, after one request. *)
Lemma _callOpenAI_fails (message : string) (t : LLMService) (w : World) :
  http_fails (http (env w) (n_http w)) = true ->
  exists e url mdl msgs,
    _callOpenAI message (t, w) = (Throw e, (t, http_done url mdl msgs w)).
Proof.
  intros H. unfold _callOpenAI. rewrite bind_run, this_run, bind_run, liftW_run.
  unfold fetch. cbn [fst snd].
  destruct (http (env w) (n_http w)); try discriminate; eexists _, _, _, _; reflexivity.
Qed.

Lemma _callAnthropic_fails (message : string) (t : LLMService) (w : World) :
  http_fails (http (env w) (n_http w)) = true ->
  exists e url mdl msgs,
    _callAnthropic message (t, w) = (Throw e, (t, http_done url mdl msgs w)).
Proof.
  intros H. unfold _callAnthropic. rewrite bind_run, this_run, bind_run, liftW_run.
  unfold fetch. cbn [fst snd].
  destruct (http (env w) (n_http w)); try discriminate; eexists _, _, _, _; reflexivity.
Qed.

(** The turn of [sendMessage] whose remote call fails: the local inference
    runs on the engine with the user message pushed, in the world with the
    request recorded. *)
Lemma sendMessage_fallback (text : string) (t : LLMService) (w : World) :
  remote_selected t = true ->
  http_fails (http (env w) (n_http w)) = true ->
  exists url mdl msgs,
    sendMessage text (t, w) =
    match _localInference text (push "user" text t, http_done url mdl msgs w) with
    | (Ok reply, (t', w')) => (Ok reply, (push "assistant" reply t', w'))
    | (Throw e, s') => (Throw e, s')
    end.
Proof.
  intros Hsel Hfail. unfold remote_selected in Hsel.
  apply andb_true_iff in Hsel as [Hmode Hkey].
  unfold sendMessage.
  rewrite bind_run, assign_run, try_catch_run, bind_run, this_run.
  cbn [mode apiKey push set_conversationHistory]. rewrite Hkey, !andb_true_r.
  assert (Hcall : exists e url mdl msgs,
    (if String.eqb (mode t) "openai" then _callOpenAI text
     else if String.eqb (mode t) "anthropic" then _callAnthropic text
          else _localInference text) (push "user" text t, w)
    = (Throw e, (push "user" text t, http_done url mdl msgs w))).
  { destruct (String.eqb (mode t) "openai").
    - now apply _callOpenAI_fails.
    - destruct (String.eqb (mode t) "anthropic"); [|discriminate].
      now apply _callAnthropic_fails. }
  destruct Hcall as (e & url & mdl & msgs & Hcall).
  exists url, mdl, msgs. rewrite bind_run, Hcall. rewrite bind_run.
  destruct (_localInference text (push "user" text t, http_done url mdl msgs w))
    as [[reply|e'] [t' w']]; reflexivity.
Qed.

Lemma same_history_refl (t : LLMService) : same_history t t.
Proof. reflexivity. Qed.

Lemma same_history_trans (a b c : LLMService) :
  same_history a b -> same_history b c -> same_history a c.
Proof. unfold same_history. congruence. Qed.

#[local] Hint Resolve same_history_refl same_history_trans : footprint.
#[local] Hint Extern 1 (same_history _ _) => reflexivity : footprint.

Lemma _localInference_history (message : string) :
  keeps (both same_history no_remote) (_localInference message).
Proof. unfold _localInference, createAgent, addLog, addApproval. footprint. Qed.

(** C1, as amended.  When [sendMessage] takes a remote branch and the
    remote call fails, the turn ends exactly as [_localInference] ends on
    the same text in the same engine state: the same reply or the same
    thrown value, the same database, the same flags and draft, the same
    number of store and shell calls.  The remote failure itself never
    reaches the caller.  One remote request has been made; the history has
    gained the user message and, when the local inference returns a reply,
    that reply as the assistant message; when the local inference itself
    throws, that is what the caller gets and no assistant message is
    appended. *)
Theorem sendMessage_remote_failure (text : string) (t : LLMService) (w : World) :
  remote_selected t = true ->
  http_fails (http (env w) (n_http w)) = true ->
  let local := _localInference text (t, w) in
  let sent := sendMessage text (t, w) in
  fst sent = fst local /\
  alike_engine (fst (snd sent)) (fst (snd local)) /\
  alike_world (snd (snd sent)) (snd (snd local)) /\
  n_http (snd (snd sent)) = S (n_http w) /\
  conversationHistory (fst (snd sent)) =
    conversationHistory t ++
    {| Message.role := "user"; Message.content := text |} ::
    match fst local with
    | Ok reply => [{| Message.role := "assistant"; Message.content := reply |}]
    | Throw _ => []
    end.
Proof.
  intros Hsel Hfail local sent. subst local sent.
  destruct (sendMessage_fallback text t w Hsel Hfail) as (url & mdl & msgs & ->).
  assert (Ht : alike_engine (push "user" text t) t) by (unfold alike_engine; cbn; auto).
  assert (Hw : alike_world (http_done url mdl msgs w) w) by (unfold alike_world; cbn; auto).
  destruct (_localInference_alike text _ _ _ _ Ht Hw) as (Hr & Hte & Hwe).
  pose proof (_localInference_history text (push "user" text t, http_done url mdl msgs w))
    as (Hh & Hn & _).
  destruct (_localInference text (push "user" text t, http_done url mdl msgs w))
    as [[reply|e] [t' w']];
    cbn [fst snd] in *; rewrite <- Hr; unfold same_history in Hh;
    (split; [reflexivity|]); (split; [|split; [exact Hwe|split; [exact Hn|]]]).
  - unfold alike_engine in *. cbn. exact Hte.
  - cbn [push conversationHistory set_conversationHistory]. rewrite Hh. cbn.
    now rewrite <- app_assoc.
  - exact Hte.
  - rewrite Hh. reflexivity.
Qed.

(** The first provider answers 500 to a greeting: the reply is the local
    welcome message. *)
Lemma sendMessage_remote_failure_witness :
  fst (sendMessage "hello" (remote_engine, boot offline_env)) = Ok reply_greeting /\
  fst (_localInference "hello" (remote_engine, boot offline_env)) = Ok reply_greeting.
Proof.
  rewrite (proj1 (sendMessage_remote_failure "hello" remote_engine (boot offline_env)
                    eq_refl eq_refl)).
  split; vm_compute; reflexivity.
Defined.

(** The engine waits for the setup confirmation, the provider answers 500
    and the store is locked: the fallback runs the setup sequence, whose
    first log write is rejected, and [sendMessage] throws. *)
Lemma sendMessage_fallback_can_throw :
  remote_selected remote_engine_awaiting_setup = true /\
  http_fails (http (env (boot broken_env)) (n_http (boot broken_env))) = true /\
  fst (sendMessage "yes" (remote_engine_awaiting_setup, boot broken_env))
  = Throw (Rejected "database is locked") /\
  conversationHistory
    (fst (snd (sendMessage "yes" (remote_engine_awaiting_setup, boot broken_env))))
  = [{| Message.role := "user"; Message.content := "yes" |}].
Proof. repeat split; vm_compute; reflexivity. Qed.
(** ** More of the conversation engine *)

(** Runs a computation as far as its next call into the outside world. *)
Ltac run :=
  repeat first
    [ rewrite bind_run | rewrite try_catch_run | rewrite liftW_run | rewrite assign_run
    | rewrite ret_run | rewrite this_run
    | progress cbn [fst snd] | progress cbv beta iota ].


Lemma store_accepts_spec (k : nat) (w : World) :
  store_accepts k w = true <-> forall i, i < k -> ipc (env w) (n_ipc w + i) = None.
Proof.
  unfold store_accepts. rewrite forallb_forall. split.
  - intros H i Hi. specialize (H i). rewrite in_seq in H.
    destruct (ipc (env w) (n_ipc w + i)); [|reflexivity].
    discriminate H. lia.
  - intros H i Hi. rewrite in_seq in Hi. rewrite H by lia. reflexivity.
Qed.

Lemma _localInference_rule1 (message : string) (t : LLMService) (w : World) :
  _pendingSetup t && says_go (trim (toLowerCase message)) = true ->
  _localInference message (t, w) =
  (fst (_executeSetup w), (set_pendingSetup false t, snd (_executeSetup w))).
Proof.
  intros H. unfold _localInference. cbv zeta.
  rewrite bind_run, this_run, H, bind_run, assign_run, liftW_run. reflexivity.
Qed.

(** Outside rule 1 the local inference returns a reply. *)
Lemma _localInference_returns (message : string) (t : LLMService) (w : World) :
  _pendingSetup t && says_go (trim (toLowerCase message)) = false ->
  exists reply, fst (_localInference message (t, w)) = Ok reply.
Proof.
  intros H. unfold _localInference. cbv zeta. rewrite bind_run, this_run, H.
  destruct (asks_setup _).
  { rewrite bind_run, assign_run, ret_run. eexists; reflexivity. }
  destruct (if says_confirm _ then _ else _) as [agent|].
  { rewrite try_catch_run.
    match goal with |- context [match ?m with _ => _ end] => destruct m as [[a|e] s] end;
      eexists; reflexivity. }
  repeat match goal with
         | |- context [if ?c then _ else _] => destruct c
         end;
    rewrite ?bind_run, ?assign_run, ?ret_run; eexists; reflexivity.
Qed.

(** A local inference that throws has consumed the setup confirmation. *)
Lemma _localInference_throw_flag (message : string) (t : LLMService) (w : World) (e : Thrown) :
  fst (_localInference message (t, w)) = Throw e ->
  _pendingSetup (fst (snd (_localInference message (t, w)))) = false.
Proof.
  intros H. destruct (_pendingSetup t && says_go (trim (toLowerCase message))) eqn:Hgo.
  - rewrite _localInference_rule1 by exact Hgo. reflexivity.
  - destruct (_localInference_returns message t w Hgo) as [r Hr]. congruence.
Qed.

Lemma _callOpenAI_engine (message : string) (t : LLMService) (w : World) :
  fst (snd (_callOpenAI message (t, w))) = t.
Proof.
  unfold _callOpenAI. rewrite bind_run, this_run, bind_run, liftW_run. unfold fetch.
  cbn [fst snd]. now destruct (http (env w) (n_http w)).
Qed.

Lemma _callAnthropic_engine (message : string) (t : LLMService) (w : World) :
  fst (snd (_callAnthropic message (t, w))) = t.
Proof.
  unfold _callAnthropic. rewrite bind_run, this_run, bind_run, liftW_run. unfold fetch.
  cbn [fst snd]. now destruct (http (env w) (n_http w)).
Qed.

(** What a turn appends to the history. *)
Lemma sendMessage_appends (text : string) (t : LLMService) (w : World) :
  conversationHistory (fst (snd (sendMessage text (t, w)))) =
  conversationHistory t ++
  user_says text ::
  match fst (sendMessage text (t, w)) with
  | Ok reply => [assistant_says reply]
  | Throw _ => []
  end.
Proof.
  unfold sendMessage. rewrite bind_run, assign_run, try_catch_run, bind_run, this_run.
  set (t0 := push "user" text t).
  set (call := if String.eqb (mode t0) "openai" && truthy (apiKey t0) then _callOpenAI text
               else if String.eqb (mode t0) "anthropic" && truthy (apiKey t0)
                    then _callAnthropic text else _localInference text).
  assert (Hcall : conversationHistory (fst (snd (call (t0, w)))) = conversationHistory t0).
  { subst call. destruct (_ && _).
    - now rewrite _callOpenAI_engine.
    - destruct (_ && _).
      + now rewrite _callAnthropic_engine.
      + exact (proj1 (_localInference_history text (t0, w))). }
  assert (Ht0 : conversationHistory t0 = conversationHistory t ++ [user_says text])
    by reflexivity.
  rewrite bind_run. destruct (call (t0, w)) as [[response|e] [t1 w1]]; cbn [fst snd] in Hcall.
  - rewrite bind_run, assign_run, ret_run. cbn [fst snd push conversationHistory set_conversationHistory].
    rewrite Hcall, Ht0, <- app_assoc. reflexivity.
  - rewrite bind_run.
    pose proof (proj1 (_localInference_history text (t1, w1))) as Hloc.
    unfold same_history in Hloc.
    destruct (_localInference text (t1, w1)) as [[fallback|e'] [t2 w2]]; cbn [fst snd] in *.
    + rewrite bind_run, assign_run, ret_run. cbn [fst snd push conversationHistory set_conversationHistory].
      rewrite Hloc, Hcall, Ht0, <- app_assoc. reflexivity.
    + rewrite Hloc, Hcall, Ht0. reflexivity.
Qed.

(** X1.  Whatever the mode and whatever the outside world answers, a turn
    of [sendMessage] leaves the history it found, followed by the user
    message, followed by the assistant message that holds the reply
    returned; a turn that throws has appended the user message only. *)
Theorem sendMessage_history (text : string) (t : LLMService) (w : World) :
  let turn := sendMessage text (t, w) in
  (exists rest, conversationHistory (fst (snd turn)) =
                  conversationHistory t ++ user_says text :: rest /\
                length rest <= 1) /\
  (forall reply, fst turn = Ok reply ->
     conversationHistory (fst (snd turn)) =
       conversationHistory t ++ [user_says text; assistant_says reply]) /\
  (forall e, fst turn = Throw e ->
     conversationHistory (fst (snd turn)) = conversationHistory t ++ [user_says text]).
Proof.
  cbv zeta. pose proof (sendMessage_appends text t w) as Hh.
  split; [|split; intros x Hx; rewrite Hx in Hh; exact Hh].
  eexists. split; [exact Hh|]. destruct (fst (sendMessage text (t, w))); cbn; lia.
Qed.

(** X2.  Without a remote branch to take (the mode is not a remote one, or
    there is no key), [sendMessage] never throws and makes no remote
    request: a local inference that throws (the setup sequence stopped by
    the store) is caught and the local inference runs once more, now with
    the setup confirmation consumed, which returns. *)
Theorem sendMessage_local_returns (text : string) (t : LLMService) (w : World) :
  remote_selected t = false ->
  (exists reply, fst (sendMessage text (t, w)) = Ok reply) /\
  no_remote w (snd (snd (sendMessage text (t, w)))).
Proof.
  intros Hsel.
  unfold sendMessage. rewrite bind_run, assign_run, try_catch_run, bind_run, this_run.
  cbn [mode apiKey push set_conversationHistory].
  unfold remote_selected in Hsel.
  assert (H1 : String.eqb (mode t) "openai" && truthy (apiKey t) = false)
    by (destruct (String.eqb (mode t) "openai"), (truthy (apiKey t)); auto; discriminate).
  assert (H2 : String.eqb (mode t) "anthropic" && truthy (apiKey t) = false)
    by (destruct (String.eqb (mode t) "anthropic"), (truthy (apiKey t)),
                 (String.eqb (mode t) "openai"); auto; discriminate).
  rewrite H1, H2, bind_run.
  pose proof (proj2 (_localInference_no_remote text (push "user" text t, w))) as Hn1.
  destruct (_localInference text (push "user" text t, w)) as [[response|e] [t1 w1]] eqn:Hfirst;
    cbn [fst snd] in Hn1.
  - rewrite bind_run, assign_run, ret_run. split; [eexists; reflexivity|exact Hn1].
  - rewrite bind_run.
    assert (Hflag : _pendingSetup t1 = false).
    { pose proof (_localInference_throw_flag text (push "user" text t) w e) as H.
      rewrite Hfirst in H. apply H. reflexivity. }
    destruct (_localInference_returns text t1 w1) as [reply Hreply].
    { now rewrite Hflag. }
    pose proof (proj2 (_localInference_no_remote text (t1, w1))) as Hn2.
    destruct (_localInference text (t1, w1)) as [[fallback|e'] [t2 w2]];
      cbn [fst snd] in Hreply, Hn2; [|discriminate].
    rewrite bind_run, assign_run, ret_run. split; [eexists; reflexivity|].
    cbn [fst snd]. eapply no_remote_trans; eassumption.
Qed.

(** A local engine whose setup confirmation is pending, a store that is
    locked: the setup sequence throws at its first log write, and the reply
    is that of the second inference. *)
Lemma sendMessage_local_returns_witness :
  fst (sendMessage "yes" (engine_awaiting_setup, boot broken_env)) = Ok (reply_general "yes") /\
  no_remote (boot broken_env)
            (snd (snd (sendMessage "yes" (engine_awaiting_setup, boot broken_env)))).
Proof.
  split; [vm_compute; reflexivity|].
  apply (sendMessage_local_returns "yes" engine_awaiting_setup (boot broken_env)). reflexivity.
Defined.

(** ** Reading and writing the provider settings *)

Lemma getSetting_run (key : string) (w : World) :
  getSetting key w =
  match ipc (env w) (n_ipc w) with
  | None => (Ok (settings (db w) !! key), ipc_done (get_setting key) true (db w) w)
  | Some e => (Throw e, ipc_done (get_setting key) false (db w) w)
  end.
Proof. unfold getSetting, invoke. now destruct (ipc (env w) (n_ipc w)). Qed.

Lemma setSetting_run (key value : string) (w : World) :
  setSetting key value w =
  match ipc (env w) (n_ipc w) with
  | None =>
      (Ok tt, ipc_done (set_setting key value) true
                (snd (db_set_setting key value (db w))) w)
  | Some e => (Throw e, ipc_done (set_setting key value) false (db w) w)
  end.
Proof. unfold setSetting, invoke. now destruct (ipc (env w) (n_ipc w)). Qed.

(** What [initialize] leaves, by the answers of its three reads. *)
Lemma initialize_run (t : LLMService) (w : World) :
  let stored := fun key => settings (db w) !! key in
  let provider := or_else (stored "llm_provider") EmptyString in
  exists w',
    initialize (t, w) =
    (Ok tt,
     (if store_accepts 3 w && truthy (stored "llm_api_key") && truthy (stored "llm_provider")
      then set_model (Some (or_else (stored "llm_model") (_defaultModel provider)))
             (set_apiKey (stored "llm_api_key") (set_mode provider t))
      else set_mode "local" t,
      w')) /\
    db w' = db w /\ env w' = env w /\ n_shell w' = n_shell w /\ n_http w' = n_http w.
Proof.
  cbv zeta. rewrite store_accepts_3. unfold initialize.
  run. rewrite getSetting_run.
  destruct (ipc (env w) (n_ipc w)) as [e0|] eqn:H0; run.
  { eexists. repeat split; reflexivity. }
  rewrite getSetting_run. cbn [env n_ipc ipc_done db].
  destruct (ipc (env w) (S (n_ipc w))) as [e1|] eqn:H1; run.
  { eexists. repeat split; reflexivity. }
  rewrite getSetting_run. cbn [env n_ipc ipc_done db].
  destruct (ipc (env w) (S (S (n_ipc w)))) as [e2|] eqn:H2; run.
  { eexists. repeat split; reflexivity. }
  cbn [andb].
  destruct (truthy (settings (db w) !! "llm_api_key") &&
            truthy (settings (db w) !! "llm_provider")); run;
    eexists; repeat split; reflexivity.
Qed.

(** X3.  [initialize] never throws and only reads: the database, the shell
    and the network are left alone, and so are the history, the setup flag
    and the draft.  It restores a remote mode exactly when its three reads
    resolve and both a provider and a key are stored; the model is the
    stored one or, without one, the default of the provider.  In every
    other case the mode is "local" and the key and the model in memory are
    the ones the engine had. *)
Theorem initialize_effects (t : LLMService) (w : World) :
  let stored := fun key => settings (db w) !! key in
  let provider := or_else (stored "llm_provider") EmptyString in
  let t' := fst (snd (initialize (t, w))) in
  let w' := snd (snd (initialize (t, w))) in
  fst (initialize (t, w)) = Ok tt /\
  db w' = db w /\ n_shell w' = n_shell w /\ n_http w' = n_http w /\
  conversationHistory t' = conversationHistory t /\
  _pendingSetup t' = _pendingSetup t /\
  _lastSuggestedAgent t' = _lastSuggestedAgent t /\
  if store_accepts 3 w && truthy (stored "llm_api_key") && truthy (stored "llm_provider")
  then mode t' = provider /\ apiKey t' = stored "llm_api_key" /\
       model t' = Some (or_else (stored "llm_model") (_defaultModel provider))
  else mode t' = "local" /\ apiKey t' = apiKey t /\ model t' = model t.
Proof.
  cbv zeta. destruct (initialize_run t w) as (w' & -> & Hdb & _ & Hsh & Hhttp).
  cbn [fst snd]. repeat (split; [first [assumption | reflexivity | now destruct (_ && _)]|]).
  destruct (_ && _); repeat split; reflexivity.
Qed.

Lemma switchToAPI_run (provider key : string) (model : option string)
      (t : LLMService) (w : World) :
  exists w' k,
    snd (switchToAPI provider key model (t, w)) = (switched provider key model t, w') /\
    env w' = env w /\ n_shell w' = n_shell w /\ n_http w' = n_http w /\
    agents (db w') = agents (db w) /\ approvals (db w') = approvals (db w) /\
    settings (db w') = write_all (firstn k (api_settings provider key model)) (settings (db w)) /\
    (store_accepts 3 w = true -> k = 3) /\
    (ipc (env w) (n_ipc w) <> None -> k = 0) /\
    if store_accepts 4 w
    then fst (switchToAPI provider key model (t, w)) = Ok tt /\
         n_ipc w' = n_ipc w + 4 /\
         logs (db w') =
           logs (db w) ++
           [log_row (length (logs (db w))) "system" ("LLM switched to " +:+ provider) "success"
                    ("Model: " +:+ or_else model (_defaultModel provider)) EmptyString
                    (clock (env w))]
    else (exists e, fst (switchToAPI provider key model (t, w)) = Throw e) /\
         logs (db w') = logs (db w).
Proof.
  rewrite store_accepts_4, store_accepts_3. unfold switchToAPI, switched. cbv zeta.
  run. rewrite setSetting_run.
  destruct (ipc (env w) (n_ipc w)) as [e0|] eqn:H0; run.
  { eexists _, 0. split; [reflexivity|]. cbn. repeat split; try reflexivity; try discriminate.
    eexists; reflexivity. }
  rewrite setSetting_run. cbn [env n_ipc ipc_done db].
  destruct (ipc (env w) (S (n_ipc w))) as [e1|] eqn:H1; run.
  { eexists _, 1. split; [reflexivity|]. cbn. repeat split; try reflexivity; try discriminate;
      try congruence. eexists; reflexivity. }
  rewrite setSetting_run. cbn [env n_ipc ipc_done db].
  destruct (ipc (env w) (S (S (n_ipc w)))) as [e2|] eqn:H2; run.
  { eexists _, 2. split; [reflexivity|]. cbn. repeat split; try reflexivity; try discriminate;
      try congruence. eexists; reflexivity. }
  rewrite addLog_run. cbn [env n_ipc ipc_done db].
  destruct (ipc (env w) (S (S (S (n_ipc w))))) as [e3|] eqn:H3; run.
  { eexists _, 3. split; [reflexivity|]. cbn. repeat split; try reflexivity; try discriminate;
      try congruence. eexists; reflexivity. }
  eexists _, 3. split; [reflexivity|]. cbn. repeat split; try reflexivity; try congruence; lia.
Qed.

(** X4.  [switchToAPI] switches the engine in memory before it writes
    anything: whatever the store answers, the mode is the provider, the
    key is the one given and the model is the one given or, without one,
    the default of the provider.  Its four calls into the store (the
    writes of [llm_provider], [llm_api_key] and [llm_model], then the log
    entry) are sent in this order up to the first one the store rejects:
    with [k] the number of calls that resolve before the first rejection,
    exactly the first [k] settings are written, the trace holds those [k]
    calls as resolved, then the rejected one if [k < 4], and nothing is
    sent after it.  The value the store rejected that call with is what
    is thrown; the log entry is appended, and the call returns, only when
    all four calls resolve. *)
Theorem switchToAPI_effects (provider key : string) (mdl : option string)
        (t : LLMService) (w : World) :
  let r := fst (switchToAPI provider key mdl (t, w)) in
  let t' := fst (snd (switchToAPI provider key mdl (t, w))) in
  let w' := snd (snd (switchToAPI provider key mdl (t, w))) in
  let chosen := or_else mdl (_defaultModel provider) in
  let entry := add_log "system" ("LLM switched to " +:+ provider) "success"
                       ("Model: " +:+ chosen) EmptyString in
  let calls := map (fun kv => set_setting (fst kv) (snd kv))
                   (api_settings provider key mdl) ++ [entry] in
  let k := resolving (env w) (n_ipc w) 4 in
  (mode t' = provider /\ apiKey t' = Some key /\ model t' = Some chosen /\
   conversationHistory t' = conversationHistory t /\
   _pendingSetup t' = _pendingSetup t /\
   _lastSuggestedAgent t' = _lastSuggestedAgent t) /\
  settings (db w') =
    write_all (firstn k (api_settings provider key mdl)) (settings (db w)) /\
  agents (db w') = agents (db w) /\ approvals (db w') = approvals (db w) /\
  trace w' = trace w ++ sent_until k calls /\
  n_ipc w' = n_ipc w + Nat.min 4 (S k) /\
  (k =? 4) = store_accepts 4 w /\
  if k =? 4
  then r = Ok tt /\
       logs (db w') =
         logs (db w) ++
         [log_row (length (logs (db w))) "system" ("LLM switched to " +:+ provider) "success"
                  ("Model: " +:+ chosen) EmptyString (clock (env w))]
  else (exists e, ipc (env w) (n_ipc w + k) = Some e /\ r = Throw e) /\
       logs (db w') = logs (db w).
Proof.
  cbv zeta. rewrite store_accepts_4, store_accepts_3.
  unfold switchToAPI. cbv zeta. run. rewrite setSetting_run. cbn [resolving].
  destruct (ipc (env w) (n_ipc w)) as [e0|] eqn:H0; run.
  { cbn. rewrite Nat.add_0_r, Nat.add_1_r, H0. repeat split. eexists; split; reflexivity. }
  rewrite setSetting_run. cbn [env n_ipc ipc_done db].
  destruct (ipc (env w) (S (n_ipc w))) as [e1|] eqn:H1; run.
  { cbn. rewrite <- app_assoc, Nat.add_1_r, H1.
    replace (n_ipc w + 2) with (S (S (n_ipc w))) by lia.
    repeat split. eexists; split; reflexivity. }
  rewrite setSetting_run. cbn [env n_ipc ipc_done db].
  destruct (ipc (env w) (S (S (n_ipc w)))) as [e2|] eqn:H2; run.
  { cbn. rewrite <- !app_assoc.
    replace (n_ipc w + 2) with (S (S (n_ipc w))) by lia.
    replace (n_ipc w + 3) with (S (S (S (n_ipc w)))) by lia.
    rewrite H2. repeat split. eexists; split; reflexivity. }
  rewrite addLog_run. cbn [env n_ipc ipc_done db].
  destruct (ipc (env w) (S (S (S (n_ipc w))))) as [e3|] eqn:H3; run.
  { cbn. rewrite <- !app_assoc.
    replace (n_ipc w + 3) with (S (S (S (n_ipc w)))) by lia.
    replace (n_ipc w + 4) with (S (S (S (S (n_ipc w))))) by lia.
    rewrite H3. repeat split. eexists; split; reflexivity. }
  cbn. rewrite <- !app_assoc.
  replace (n_ipc w + 4) with (S (S (S (S (n_ipc w))))) by lia.
  repeat split.
Qed.

Lemma _defaultModel_truthy (provider : string) : _defaultModel provider <> EmptyString.
Proof.
  unfold _defaultModel.
  destruct (String.eqb provider "openai"); [discriminate|].
  destruct (String.eqb provider "anthropic"); discriminate.
Qed.

Lemma or_else_some (s d : string) : s <> EmptyString -> or_else (Some s) d = s.
Proof. destruct s; [congruence|reflexivity]. Qed.

Lemma or_else_truthy (x : option string) (d : string) :
  d <> EmptyString -> or_else x d <> EmptyString.
Proof. destruct x as [[|c s]|]; cbn; congruence. Qed.

Lemma truthy_some (s : string) : s <> EmptyString -> truthy (Some s) = true.
Proof. destruct s; [congruence|reflexivity]. Qed.

(** X5.  What [switchToAPI] persists is what [initialize] restores: after a
    switch that the store accepted, an engine that starts afresh (any
    engine, the store answering its three reads) is in the mode of the
    provider, with the key and with the model the switch chose. *)
Theorem provider_survives_restart (provider key : string) (mdl : option string)
        (t t2 : LLMService) (w : World) :
  provider <> EmptyString -> key <> EmptyString ->
  store_accepts 7 w = true ->
  let w1 := snd (snd (switchToAPI provider key mdl (t, w))) in
  let restarted := fst (snd (initialize (t2, w1))) in
  mode restarted = provider /\
  apiKey restarted = Some key /\
  model restarted = Some (or_else mdl (_defaultModel provider)).
Proof.
  intros Hp Hk H7. cbv zeta.
  rewrite store_accepts_spec in H7.
  assert (H4 : store_accepts 4 w = true) by (apply store_accepts_spec; intros; apply H7; lia).
  destruct (switchToAPI_run provider key mdl t w)
    as (w' & k & Hs & Henv & _ & _ & _ & _ & Hset & Hk3 & _ & Hlog).
  rewrite H4 in Hlog. destruct Hlog as (_ & Hn & _).
  rewrite Hs. cbn [fst snd].
  assert (H3 : store_accepts 3 w = true) by (apply store_accepts_spec; intros; apply H7; lia).
  rewrite (Hk3 H3) in Hset. cbn in Hset.
  assert (H3' : store_accepts 3 w' = true).
  { apply store_accepts_spec. intros i Hi. rewrite Henv, Hn, <- Nat.add_assoc. apply H7. lia. }
  destruct (initialize_run t2 w') as (w2 & -> & _).
  rewrite H3', Hset. cbn [fst snd andb].
  repeat first [rewrite lookup_insert_eq | rewrite lookup_insert_ne by discriminate].
  rewrite !truthy_some by assumption. cbn [andb mode apiKey model set_model set_apiKey set_mode].
  rewrite !or_else_some by (try assumption; apply or_else_truthy, _defaultModel_truthy).
  repeat split.
Qed.

Lemma provider_survives_restart_witness :
  mode (fst (snd (initialize
                    (constructor,
                     snd (snd (switchToAPI "anthropic" "sk-ant" None
                                           (constructor, boot quiet_env)))))))
  = "anthropic".
Proof.
  apply (provider_survives_restart "anthropic" "sk-ant" None constructor constructor
           (boot quiet_env)); [discriminate|discriminate|reflexivity].
Defined.

(** The world [switchToLocal] leaves when its first deletion resolves, and
    when it is rejected. *)
Lemma switchToLocal_deleted (t : LLMService) (w : World) :
  ipc (env w) (n_ipc w) = None ->
  settings (db (snd (snd (switchToLocal (t, w))))) !! "llm_provider" = None.
Proof.
  intros H0. unfold switchToLocal. run. rewrite deleteSetting_run, H0. run.
  rewrite deleteSetting_run. cbn [env n_ipc ipc_done db].
  destruct (ipc (env w) (S (n_ipc w))); run.
  2: rewrite deleteSetting_run; cbn [env n_ipc ipc_done db];
     destruct (ipc (env w) (S (S (n_ipc w)))); run.
  all: rewrite addLog_run; cbn [env n_ipc ipc_done db];
    match goal with |- context [match ipc ?e ?n with _ => _ end] => destruct (ipc e n) end;
    cbn [snd db ipc_done settings];
    repeat first [rewrite lookup_delete_eq | rewrite lookup_delete_ne by discriminate];
    reflexivity.
Qed.

Lemma switchToLocal_blocked (t : LLMService) (w : World) (e : Thrown) :
  ipc (env w) (n_ipc w) = Some e ->
  let w' := snd (snd (switchToLocal (t, w))) in
  env w' = env w /\ n_ipc w' = n_ipc w + 2 /\ settings (db w') = settings (db w).
Proof.
  intros H0. cbv zeta. unfold switchToLocal. run. rewrite deleteSetting_run, H0. run.
  rewrite addLog_run. cbn [env n_ipc ipc_done db].
  destruct (ipc (env w) (S (n_ipc w))); cbn; repeat split; lia.
Qed.

(** X6.  The first deletion of [switchToLocal] decides what the next start
    finds.  Once it has resolved, the provider is no longer stored, and an
    engine that starts afresh is in local mode whatever the store answers
    from then on.  When the store rejects it, the rejection is swallowed
    and the three settings stay: the engine is in local mode until the
    application restarts, and an engine that starts afresh (the store
    answering its three reads) is back in the mode of the stored provider,
    with the stored key. *)
Theorem first_deletion_decides_restart (t t2 : LLMService) (w : World) :
  let s1 := snd (switchToLocal (t, w)) in
  let restarted := fst (snd (initialize (t2, snd s1))) in
  mode (fst s1) = "local" /\
  (ipc (env w) (n_ipc w) = None -> mode restarted = "local") /\
  (ipc (env w) (n_ipc w) <> None ->
   truthy (settings (db w) !! "llm_provider") = true ->
   truthy (settings (db w) !! "llm_api_key") = true ->
   (forall i, i < 3 -> ipc (env w) (n_ipc w + 2 + i) = None) ->
   Some (mode restarted) = settings (db w) !! "llm_provider" /\
   apiKey restarted = settings (db w) !! "llm_api_key").
Proof.
  cbv zeta. split; [now rewrite switchToLocal_engine|].
  destruct (initialize_run t2 (snd (snd (switchToLocal (t, w))))) as (w2 & -> & _).
  split.
  - intros H0. rewrite (switchToLocal_deleted t w H0). cbn [truthy]. rewrite andb_false_r.
    reflexivity.
  - intros H0 Hp Hk Hreads.
    destruct (ipc (env w) (n_ipc w)) as [e|] eqn:E0; [|congruence].
    destruct (switchToLocal_blocked t w e E0) as (Henv & Hn & Hset).
    assert (H3 : store_accepts 3 (snd (snd (switchToLocal (t, w)))) = true).
    { apply store_accepts_spec. intros i Hi. rewrite Henv, Hn. now apply Hreads. }
    rewrite H3, Hset, Hp, Hk. cbn [fst snd andb mode apiKey set_model set_apiKey set_mode].
    split; [|reflexivity].
    destruct (settings (db w) !! "llm_provider") as [[|c s]|]; try discriminate. reflexivity.
Qed.

(** The store rejects the first deletion: local now, the first provider
    again after the restart; it accepts it: local after the restart. *)
Lemma first_deletion_decides_restart_witness :
  mode (fst (snd (switchToLocal (remote_engine, configured hiccup_env)))) = "local" /\
  mode (fst (snd (initialize
                    (constructor,
                     snd (snd (switchToLocal (remote_engine, configured hiccup_env)))))))
  = "openai".
Proof.
  destruct (first_deletion_decides_restart remote_engine constructor (configured hiccup_env))
    as (H1 & _ & H2).
  split; [exact H1|].
  destruct H2 as [H2 _].
  - vm_compute; discriminate.
  - vm_compute; reflexivity.
  - vm_compute; reflexivity.
  - intros i Hi. do 3 (destruct i as [|i]; [vm_compute; reflexivity|]). lia.
  - assert (Hs : settings (db (configured hiccup_env)) !! "llm_provider" = Some "openai")
      by (vm_compute; reflexivity).
    rewrite Hs in H2. congruence.
Defined.

(** ** The rule table *)



(** Runs rule 3 through its calls into the store, by their answers. *)
Ltac run_store :=
  repeat first
    [ progress run
    | rewrite createAgent_run | rewrite addLog_run | rewrite addApproval_run
    | progress cbn [n_ipc ipc_done env db settings agents logs approvals]
    | match goal with
      | H : ipc ?e ?n = _ |- context [ipc ?e ?n] => rewrite H
      end ].

(** X8.  The setup confirmation is armed by a setup request and by nothing
    else, and consumed by the run of the setup sequence and by nothing
    else: after a message, the flag is off when the flag was on and the
    message held an affirmation word, and otherwise it is on exactly when
    it was on before or the message asks for the setup.  So an armed
    confirmation waits through any number of other messages. *)
Theorem _pendingSetup_dynamics (message : string) (t : LLMService) (w : World) :
  let msg := trim (toLowerCase message) in
  _pendingSetup (fst (snd (_localInference message (t, w)))) =
  if _pendingSetup t && says_go msg then false
  else asks_setup msg || _pendingSetup t.
Proof.
  cbv zeta. destruct (_pendingSetup t && says_go (trim (toLowerCase message))) eqn:Hgo.
  { now rewrite _localInference_rule1. }
  unfold _localInference. cbv zeta. run. rewrite Hgo.
  destruct (asks_setup _); run; [reflexivity|]. cbn [orb].
  destruct (if says_confirm _ then _ else _) as [agent|].
  - run_store.
    destruct (ipc (env w) (n_ipc w)); run_store; [reflexivity|].
    destruct (ipc (env w) (S (n_ipc w))); run_store; [reflexivity|].
    destruct (includes (tools agent) "browser"); run_store; [|reflexivity].
    destruct (ipc (env w) (S (S (n_ipc w)))); run_store; reflexivity.
  - repeat match goal with
           | |- context [if ?c then _ else _] => destruct c
           end;
      run; reflexivity.
Qed.

(** The run of rule 3 on a store that accepts its calls. *)
Lemma rule3_accepted (message : string) (t : LLMService) (w : World) (agent : AgentConfig) :
  _pendingSetup t && says_go (trim (toLowerCase message)) = false ->
  asks_setup (trim (toLowerCase message)) = false ->
  says_confirm (trim (toLowerCase message)) = true ->
  _lastSuggestedAgent t = Some agent ->
  store_accepts 3 w = true ->
  exists w',
    _localInference message (t, w) =
      (Ok (reply_agent_created agent), (set_lastSuggestedAgent None t, w')) /\
    env w' = env w /\
    agents (db w') =
      agents (db w) ++
      [{| Agent.id := string_of_nat (S (length (agents (db w))));
          Agent.config := create_agent_args agent |}] /\
    logs (db w') =
      logs (db w) ++
      [log_row (length (logs (db w))) "system" ("Agent created via chat: " +:+ name agent)
               "success" (json_agent agent) EmptyString (clock (env w))] /\
    approvals (db w') =
      approvals (db w) ++
      (if includes (tools agent) "browser"
       then [approval_row (length (approvals (db w))) "system" "agent_creation"
                          ("Created: " +:+ name agent +:+ " — " +:+ goal agent)
                          (clock (env w))]
       else []) /\
    settings (db w') = settings (db w).
Proof.
  intros H1 H2 H3 H4 Hstore.
  rewrite store_accepts_3 in Hstore.
  destruct (ipc (env w) (n_ipc w)) eqn:E0; [discriminate|].
  destruct (ipc (env w) (S (n_ipc w))) eqn:E1; [discriminate|].
  destruct (ipc (env w) (S (S (n_ipc w)))) eqn:E2; [discriminate|].
  rewrite (_localInference_rule3 message t w agent H1 H2 H3 H4).
  destruct (includes (tools agent) "browser");
    (eexists; split; [run_store; reflexivity|]);
    cbn [env db ipc_done agents logs approvals settings db_create_agent snd];
    rewrite ?app_nil_r; repeat split; reflexivity.
Qed.

(** X9.  A confirmed draft that the store accepts: the agent is stored
    with the arguments of the draft under the identifier the store gives,
    one log entry of status success records it with the draft as JSON, a
    draft whose tools hold "browser" also gets one pending approval item of
    type [agent_creation], the draft is dropped, and the reply is the
    confirmation message. *)
Theorem confirmed_creation_effects (message : string) (t : LLMService) (w : World)
        (agent : AgentConfig) :
  _pendingSetup t && says_go (trim (toLowerCase message)) = false ->
  asks_setup (trim (toLowerCase message)) = false ->
  says_confirm (trim (toLowerCase message)) = true ->
  _lastSuggestedAgent t = Some agent ->
  store_accepts 3 w = true ->
  let r := fst (_localInference message (t, w)) in
  let t' := fst (snd (_localInference message (t, w))) in
  let w' := snd (snd (_localInference message (t, w))) in
  r = Ok (reply_agent_created agent) /\
  t' = set_lastSuggestedAgent None t /\
  agents (db w') =
    agents (db w) ++
    [{| Agent.id := string_of_nat (S (length (agents (db w))));
        Agent.config := create_agent_args agent |}] /\
  logs (db w') =
    logs (db w) ++
    [log_row (length (logs (db w))) "system" ("Agent created via chat: " +:+ name agent)
             "success" (json_agent agent) EmptyString (clock (env w))] /\
  approvals (db w') =
    approvals (db w) ++
    (if includes (tools agent) "browser"
     then [approval_row (length (approvals (db w))) "system" "agent_creation"
                        ("Created: " +:+ name agent +:+ " — " +:+ goal agent)
                        (clock (env w))]
     else []) /\
  settings (db w') = settings (db w).
Proof.
  intros H1 H2 H3 H4 Hstore. cbv zeta.
  destruct (rule3_accepted message t w agent H1 H2 H3 H4 Hstore)
    as (w' & -> & _ & Ha & Hl & Hp & Hs).
  cbn [fst snd]. repeat split; assumption.
Qed.

Lemma confirmed_creation_effects_witness :
  fst (_localInference "yes, create it" (engine_with_draft, boot quiet_env))
  = Ok (reply_agent_created trending_draft) /\
  length (agents (db (snd (snd (_localInference "yes, create it"
                                                (engine_with_draft, boot quiet_env)))))) = 1.
Proof.
  destruct (confirmed_creation_effects "yes, create it" engine_with_draft (boot quiet_env)
              trending_draft)
    as (Hr & _ & Ha & _); [vm_compute; reflexivity .. |].
  split; [exact Hr|]. rewrite Ha. reflexivity.
Defined.

(** X10.  The creation of a confirmed draft is not one transaction.  When
    the store accepts the agent and rejects the log entry that records it,
    the agent stays stored, nothing is logged or queued, the reply is the
    failure message and the draft is kept: the engine is as it was, so the
    same confirmation would store the same agent once more. *)
Theorem creation_is_not_atomic (message : string) (t : LLMService) (w : World)
        (agent : AgentConfig) (e : Thrown) :
  _pendingSetup t && says_go (trim (toLowerCase message)) = false ->
  asks_setup (trim (toLowerCase message)) = false ->
  says_confirm (trim (toLowerCase message)) = true ->
  _lastSuggestedAgent t = Some agent ->
  ipc (env w) (n_ipc w) = None ->
  ipc (env w) (S (n_ipc w)) = Some e ->
  let r := fst (_localInference message (t, w)) in
  let t' := fst (snd (_localInference message (t, w))) in
  let w' := snd (snd (_localInference message (t, w))) in
  r = Ok (reply_create_failed e) /\
  t' = t /\
  agents (db w') =
    agents (db w) ++
    [{| Agent.id := string_of_nat (S (length (agents (db w))));
        Agent.config := create_agent_args agent |}] /\
  logs (db w') = logs (db w) /\
  approvals (db w') = approvals (db w).
Proof.
  intros H1 H2 H3 H4 E0 E1. cbv zeta.
  rewrite (_localInference_rule3 message t w agent H1 H2 H3 H4).
  run_store. cbn [db_create_agent snd agents logs approvals]. repeat split; reflexivity.
Qed.

(** The store stumbles on the log entry; the confirmation is sent twice
    and the table holds the agent twice. *)
Lemma creation_is_not_atomic_witness :
  let s1 := snd (_localInference "yes" (engine_with_draft, boot stumble_env)) in
  let s2 := snd (_localInference "yes" s1) in
  fst s1 = engine_with_draft /\
  map Agent.config (agents (db (snd s2)))
  = [create_agent_args trending_draft; create_agent_args trending_draft].
Proof.
  cbv zeta.
  destruct (creation_is_not_atomic "yes" engine_with_draft (boot stumble_env) trending_draft
              (Rejected "database is locked"))
    as (_ & Ht & _); [vm_compute; reflexivity .. |].
  split; [exact Ht|]. vm_compute; reflexivity.
Defined.

(** ** The commands of the setup sequence *)

(** X11.  When the store accepts its five log writes, the setup sequence
    runs its four commands, each once and in this order, whatever each of
    them answers (exit code or throw): a failed check or install does not
    stop the steps after it.  It pauses 1500, 1200 and 800 ms and makes no
    remote request. *)
Theorem _executeSetup_commands (w : World) :
  store_accepts 5 w = true ->
  let w' := snd (_executeSetup w) in
  List.filter is_shell (trace w') = List.filter is_shell (trace w) ++ setup_commands /\
  List.filter is_delay (trace w') =
    List.filter is_delay (trace w) ++ [EDelay 1500; EDelay 1200; EDelay 800] /\
  n_shell w' = n_shell w + 4 /\
  n_ipc w' = n_ipc w + 5 /\
  no_remote w w'.
Proof.
  intros H. rewrite store_accepts_spec in H. cbv zeta.
  cut (List.filter is_shell (trace (snd (_executeSetup w))) =
         List.filter is_shell (trace w) ++ setup_commands /\
       List.filter is_delay (trace (snd (_executeSetup w))) =
         List.filter is_delay (trace w) ++ [EDelay 1500; EDelay 1200; EDelay 800] /\
       n_shell (snd (_executeSetup w)) = n_shell w + 4 /\
       n_ipc (snd (_executeSetup w)) = n_ipc w + 5).
  { intros (Ha & Hb & Hc & Hd). repeat (split; [assumption|]).
    apply _executeSetup_no_remote. }
  pose proof (H 0 ltac:(lia)) as H0. pose proof (H 1 ltac:(lia)) as H1.
  pose proof (H 2 ltac:(lia)) as H2. pose proof (H 3 ltac:(lia)) as H3.
  pose proof (H 4 ltac:(lia)) as H4. clear H.
  rewrite ?Nat.add_succ_r, ?Nat.add_0_r in *.
  assert (Hrun : exists w', snd (_executeSetup w) = w' /\
            trace w' = trace w ++ skipn (length (trace w)) (trace w') /\
            n_shell w' = n_shell w + 4 /\ n_ipc w' = n_ipc w + 5 /\
            List.filter is_shell (skipn (length (trace w)) (trace w')) = setup_commands /\
            List.filter is_delay (skipn (length (trace w)) (trace w')) =
              [EDelay 1500; EDelay 1200; EDelay 800]).
  { eexists. split; [unfold _executeSetup; setup_run; reflexivity|].
    cbn [snd trace n_shell n_ipc ipc_done shell_done emit].
    rewrite <- !app_assoc, skipn_app, skipn_all, Nat.sub_diag. cbn [app skipn].
    repeat split; try reflexivity; lia. }
  destruct Hrun as (w' & -> & Ht & Hs & Hi & Hc & Hd).
  rewrite Ht, !List.filter_app, Hc, Hd.
  repeat split; first [assumption | lia].
Qed.

Lemma _executeSetup_commands_witness :
  List.filter is_shell (trace (snd (_executeSetup (boot no_shell_env)))) = setup_commands.
Proof.
  apply (_executeSetup_commands (boot no_shell_env)). reflexivity.
Defined.

(** ** The remote call *)

Lemma slice_last_length {A : Type} (n : nat) (l : list A) : length (slice_last n l) <= n.
Proof. unfold slice_last. rewrite length_skipn. lia. Qed.

Lemma slice_last_last {A : Type} (n : nat) (l : list A) (x d : A) :
  0 < n -> List.last (slice_last n (l ++ [x])) d = x.
Proof.
  intros Hn. unfold slice_last. rewrite length_app. cbn [length].
  rewrite skipn_app.
  replace (length l + 1 - n - length l) with 0 by lia. cbn [skipn].
  apply last_last.
Qed.

(** X12.  A remote turn that succeeds.  When a remote branch is taken and
    the provider answers with a reply, [sendMessage] returns that reply and
    appends the user message and the reply to the history; it makes one
    request and nothing else: no call into the store or the shell, the
    setup flag and the draft untouched.  The request carries the last 20
    messages of the history at most (after the system prompt, for
    the first provider), the user message being the last of them. *)
Theorem sendMessage_remote_success (text content : string) (t : LLMService) (w : World) :
  remote_selected t = true ->
  http (env w) (n_http w) = HttpOk content ->
  let turn := sendMessage text (t, w) in
  let openai := String.eqb (mode t) "openai" in
  let sent :=
    (if openai then [{| Message.role := "system"; Message.content := SYSTEM_PROMPT |}] else [])
    ++ slice_last 20 (conversationHistory t ++ [user_says text]) in
  fst turn = Ok content /\
  fst (snd turn) = push "assistant" content (push "user" text t) /\
  snd (snd turn) =
    http_done (if openai then "https://api.openai.com/v1/chat/completions"
               else "https://api.anthropic.com/v1/messages")
              (or_else (model t)
                       (if openai then "gpt-4o-mini" else "claude-3-haiku-20240307"))
              sent w /\
  List.last sent (user_says EmptyString) = user_says text /\
  length sent <= 21.
Proof.
  intros Hsel Hhttp. cbv zeta.
  unfold remote_selected in Hsel. apply andb_true_iff in Hsel as [Hmode Hkey].
  split; [|split; [|split; [|split]]].
  1-3: unfold sendMessage; run;
    cbn [mode apiKey model push set_conversationHistory conversationHistory];
    rewrite Hkey, !andb_true_r;
    destruct (String.eqb (mode t) "openai");
      [unfold _callOpenAI | cbn [orb] in Hmode; rewrite Hmode; unfold _callAnthropic];
      run; unfold fetch; cbn [fst snd]; rewrite Hhttp; run; reflexivity.
  - destruct (String.eqb (mode t) "openai"); cbn [app].
    + assert (Hne : slice_last 20 (conversationHistory t ++ [user_says text]) <> []).
      { unfold slice_last. rewrite length_app. cbn [length].
        intros Hnil. apply (f_equal (@length _)) in Hnil.
        rewrite length_skipn, length_app in Hnil. cbn in Hnil. lia. }
      pose proof (slice_last_last 20 (conversationHistory t) (user_says text)
                    (user_says EmptyString) ltac:(lia)) as Hlast.
      destruct (slice_last 20 (conversationHistory t ++ [user_says text])); [congruence|].
      exact Hlast.
    + apply slice_last_last. lia.
  - pose proof (slice_last_length 20 (conversationHistory t ++ [user_says text])).
    destruct (String.eqb (mode t) "openai"); cbn [app length]; lia.
Qed.

Lemma sendMessage_remote_success_witness :
  fst (sendMessage "hello" (remote_engine, boot quiet_env)) = Ok "Happy to help." /\
  n_ipc (snd (snd (sendMessage "hello" (remote_engine, boot quiet_env)))) = 0.
Proof.
  destruct (sendMessage_remote_success "hello" "Happy to help." remote_engine (boot quiet_env))
    as (Hr & _ & Hw & _); [reflexivity|reflexivity|].
  split; [exact Hr|]. rewrite Hw. reflexivity.
Defined.

(** ** The agent panel *)

Lemma listAgents_run (w : World) :
  listAgents w =
  match ipc (env w) (n_ipc w) with
  | None => (Ok (agents (db w)), ipc_done list_agents true (db w) w)
  | Some e => (Throw e, ipc_done list_agents false (db w) w)
  end.
Proof. unfold listAgents, invoke. now destruct (ipc (env w) (n_ipc w)). Qed.

Lemma deleteAgent_run (id : string) (w : World) :
  deleteAgent id w =
  match ipc (env w) (n_ipc w) with
  | None => (Ok tt, ipc_done (delete_agent id) true (snd (db_delete_agent id (db w))) w)
  | Some e => (Throw e, ipc_done (delete_agent id) false (db w) w)
  end.
Proof. unfold deleteAgent, invoke. now destruct (ipc (env w) (n_ipc w)). Qed.

Lemma loadAgents_run (p : AgentPanel) (w : World) :
  loadAgents (p, w) =
  match ipc (env w) (n_ipc w) with
  | None => (Ok tt, (setAgents (agents (db w)) p, ipc_done list_agents true (db w) w))
  | Some e => (Ok tt, (p, ipc_done list_agents false (db w) w))
  end.
Proof.
  unfold loadAgents. run. rewrite listAgents_run.
  destruct (ipc (env w) (n_ipc w)); run; reflexivity.
Qed.

(** X13.  A run that fails.  When the branch of the dispatcher throws (a
    call into the store was rejected), it has written no log entry, and
    at most, in the browser branch, queued the approval item; [handleRun]
    then asks the store for one entry of status error that carries the
    thrown value as text.  That write is not guarded: when the store
    accepts it [handleRun] returns, and when the store rejects it too,
    [handleRun] itself throws and the run has left no log entry at all. *)
Theorem handleRun_failure_effects (agent : Agent.t) (w w1 : World) (e : Thrown) :
  dispatch agent w = (Throw e, w1) ->
  let r := fst (handleRun agent w) in
  let w' := snd (handleRun agent w) in
  logs (db w1) = logs (db w) /\
  (approvals (db w1) = approvals (db w) \/
   sandbox agent = false /\ includes (tools agent) "browser" = true /\
   exists a, approvals (db w1) = approvals (db w) ++ [a] /\
             Approval.status a = "pending" /\ Approval.agent_id a = Agent.id agent) /\
  approvals (db w') = approvals (db w1) /\
  match ipc (env w1) (n_ipc w1) with
  | None =>
      r = Ok tt /\
      logs (db w') =
        logs (db w) ++
        [log_row (length (logs (db w))) (Agent.id agent) ("Error running: " +:+ name agent)
                 "error" EmptyString (toString e) (clock (env w))]
  | Some e2 => r = Throw e2 /\ db w' = db w1
  end.
Proof.
  intros Hd. cbv zeta.
  assert (H1 : logs (db w1) = logs (db w) /\ env w1 = env w /\
               (approvals (db w1) = approvals (db w) \/
                sandbox agent = false /\ includes (tools agent) "browser" = true /\
                exists a, approvals (db w1) = approvals (db w) ++ [a] /\
                          Approval.status a = "pending" /\
                          Approval.agent_id a = Agent.id agent)).
  { revert Hd. unfold dispatch, now.
    destruct (sandbox agent); [|destruct (includes (tools agent) "browser")].
    - rewrite bind_run, read_run, addLog_run.
      destruct (ipc (env w) (n_ipc w)); intros [= <- <-]; cbn; auto.
    - rewrite bind_run, addApproval_run.
      destruct (ipc (env w) (n_ipc w)); [intros [= <- <-]; cbn; auto|].
      rewrite addLog_run. cbn [env n_ipc ipc_done db].
      destruct (ipc (env w) (S (n_ipc w))); intros [= <- <-].
      cbn [db ipc_done logs approvals env]. repeat split. right. repeat split.
      eexists. split; [reflexivity|]. split; reflexivity.
    - rewrite bind_run, read_run, addLog_run.
      destruct (ipc (env w) (n_ipc w)); intros [= <- <-]; cbn; auto. }
  destruct H1 as (Hlogs & Henv & Happ).
  split; [exact Hlogs|]. split; [exact Happ|].
  unfold handleRun. rewrite try_catch_run, Hd, addLog_run.
  destruct (ipc (env w1) (n_ipc w1)); cbn [fst snd db ipc_done logs approvals].
  - repeat split.
  - rewrite Hlogs, Henv. repeat split.
Qed.

(** The store stumbles on the second call: the item of the browser agent
    is queued, the log entry that says so is rejected, and the run ends
    with an error entry. *)
Lemma handleRun_failure_effects_witness :
  let w' := snd (handleRun agent_y (boot stumble_env)) in
  map Approval.status (approvals (db w')) = ["pending"] /\
  map Log.status (logs (db w')) = ["error"].
Proof.
  cbv zeta.
  assert (Hd : dispatch agent_y (boot stumble_env) =
               (Throw (Rejected "database is locked"),
                snd (dispatch agent_y (boot stumble_env))))
    by (vm_compute; reflexivity).
  destruct (handleRun_failure_effects agent_y (boot stumble_env) _ _ Hd)
    as (_ & _ & _ & Hlog).
  split; [vm_compute; reflexivity|].
  assert (Hipc : ipc (env (snd (dispatch agent_y (boot stumble_env))))
                     (n_ipc (snd (dispatch agent_y (boot stumble_env)))) = None)
    by (vm_compute; reflexivity).
  rewrite Hipc in Hlog. destruct Hlog as [_ Hlog]. rewrite Hlog. reflexivity.
Defined.

(** X14.  [handleCreate] never throws.  With a blank name in the form it
    does nothing at all.  Otherwise its first call asks the store to create
    the agent of the form; when that call, or the log write after it, is
    rejected, the panel is left as it was, the form filled and the modal
    as it stood, and the list is not reloaded.  When both resolve the modal
    is closed, the form is reset to its initial values and the list is
    asked for again: the panel then shows the agents of the store, the new
    one last, unless that read is rejected, in which case it keeps showing
    the old list. *)
Theorem handleCreate_effects (p : AgentPanel) (w : World) :
  let r := fst (handleCreate (p, w)) in
  let p' := fst (snd (handleCreate (p, w))) in
  let w' := snd (snd (handleCreate (p, w))) in
  let new := {| Agent.id := string_of_nat (S (length (agents (db w))));
                Agent.config := create_agent_args (form p) |} in
  r = Ok tt /\
  if String.eqb (trim (name (form p))) EmptyString then p' = p /\ w' = w
  else if store_accepts 2 w then
    showModal p' = false /\ form p' = INITIAL_FORM /\
    agents (db w') = agents (db w) ++ [new] /\
    agents_state p' =
      (if store_accepts 3 w then agents (db w) ++ [new] else agents_state p)
  else
    p' = p /\ logs (db w') = logs (db w) /\
    (ipc (env w) (n_ipc w) <> None -> db w' = db w).
Proof.
  cbv zeta. unfold handleCreate. run.
  destruct (trim (name (form p))) as [|c s] eqn:Hname; cbn [String.eqb].
  { run. repeat split. }
  rewrite store_accepts_3. unfold store_accepts. cbn [seq forallb].
  replace (n_ipc w + 0) with (n_ipc w) by lia.
  replace (n_ipc w + 1) with (S (n_ipc w)) by lia.
  run. rewrite createAgent_run.
  destruct (ipc (env w) (n_ipc w)) eqn:E0; run.
  { repeat split. }
  rewrite addLog_run. cbn [env n_ipc ipc_done db].
  destruct (ipc (env w) (S (n_ipc w))) eqn:E1; run.
  { cbn. repeat split. congruence. }
  rewrite loadAgents_run. cbn [env n_ipc ipc_done db agents db_create_agent snd].
  destruct (ipc (env w) (S (S (n_ipc w)))) eqn:E2; cbn; repeat split.
Qed.

(** X15.  [handleDelete] never throws.  Its first call asks the store to
    delete the agent; when it is rejected nothing else happens: no log
    entry, no reload.  When it resolves, no agent with that identifier is
    left in the store and one log write of status info follows; the list
    is reloaded only when that write resolves too, and then (the read
    resolving) the panel shows no agent with that identifier. *)
Theorem handleDelete_effects (id name : string) (p : AgentPanel) (w : World) :
  let r := fst (handleDelete id name (p, w)) in
  let p' := fst (snd (handleDelete id name (p, w))) in
  let w' := snd (snd (handleDelete id name (p, w))) in
  r = Ok tt /\
  match ipc (env w) (n_ipc w) with
  | Some _ => p' = p /\ db w' = db w /\ n_ipc w' = S (n_ipc w)
  | None =>
      Forall (fun a => Agent.id a <> id) (agents (db w')) /\
      (forall a, In a (agents (db w)) -> Agent.id a <> id -> In a (agents (db w'))) /\
      if store_accepts 2 w then
        (exists e, logs (db w') = logs (db w) ++ [e] /\ Log.status e = "info" /\
                   Log.action e = "Deleted agent: " +:+ name) /\
        (store_accepts 3 w = true ->
         agents_state p' = agents (db w') /\
         Forall (fun a => Agent.id a <> id) (agents_state p'))
      else p' = p /\ logs (db w') = logs (db w)
  end.
Proof.
  cbv zeta. unfold handleDelete. run. rewrite deleteAgent_run.
  rewrite store_accepts_3. unfold store_accepts. cbn [seq forallb].
  replace (n_ipc w + 0) with (n_ipc w) by lia.
  replace (n_ipc w + 1) with (S (n_ipc w)) by lia.
  assert (Hgone : Forall (fun a => Agent.id a <> id)
                    (List.filter (fun a => negb (String.eqb (Agent.id a) id)) (agents (db w)))).
  { apply List.Forall_forall. intros a Ha. apply filter_In in Ha as [_ Ha].
    apply negb_true_iff, String.eqb_neq in Ha. exact Ha. }
  assert (Hkept : forall a, In a (agents (db w)) -> Agent.id a <> id ->
                    In a (List.filter (fun a => negb (String.eqb (Agent.id a) id))
                                      (agents (db w)))).
  { intros a Ha Hne. apply filter_In. split; [exact Ha|].
    now apply negb_true_iff, String.eqb_neq. }
  destruct (ipc (env w) (n_ipc w)) eqn:E0; run.
  { repeat split. }
  rewrite addLog_run. cbn [env n_ipc ipc_done db db_delete_agent snd].
  destruct (ipc (env w) (S (n_ipc w))) eqn:E1; run.
  { cbn. repeat split; assumption. }
  rewrite loadAgents_run. cbn [env n_ipc ipc_done db agents db_delete_agent snd].
  destruct (ipc (env w) (S (S (n_ipc w)))) eqn:E2; cbn [fst snd db ipc_done agents logs];
    (split; [reflexivity|]); (split; [exact Hgone|]); (split; [exact Hkept|]);
    (split; [eexists; repeat split|]); intros; try discriminate.
  split; [reflexivity|exact Hgone].
Qed.




(** X17.  What the card of an agent announces and what a run does.  For an
    agent that is not in sandbox mode, the card says "Approval Required"
    exactly when a run the store accepts queues an approval item, and
    "Auto-execute" exactly when it queues none.  For a sandbox agent the
    label is the same function of the tools, but a run never queues an
    item.  The running button reads "Queued" for every agent that is not
    in sandbox mode, the auto-executed ones included. *)
Theorem card_label_vs_dispatch (agent : Agent.t) (w : World) :
  store_accepts 2 w = true ->
  let w' := snd (handleRun agent w) in
  let view := AgentCard agent true in
  (execution_label view = "Approval Required" \/ execution_label view = "Auto-execute") /\
  (sandbox agent = false ->
   (execution_label view = "Approval Required" <->
    length (approvals (db w')) = S (length (approvals (db w))))) /\
  (sandbox agent = true -> approvals (db w') = approvals (db w)) /\
  run_button view = (if sandbox agent then "Simulated" else "Queued").
Proof.
  intros H. cbv zeta. rewrite store_accepts_spec in H.
  pose proof (H 0 ltac:(lia)) as E0. pose proof (H 1 ltac:(lia)) as E1.
  rewrite Nat.add_0_r in E0. rewrite Nat.add_1_r in E1.
  unfold AgentCard, handleRun, dispatch, now. cbn [execution_label run_button].
  rewrite try_catch_run.
  destruct (sandbox agent); [|destruct (includes (tools agent) "browser")].
  - rewrite bind_run, read_run, addLog_run, E0. cbn.
    repeat split; try discriminate; destruct (includes (tools agent) "browser"); auto.
  - rewrite bind_run, addApproval_run, E0, addLog_run. cbn [env n_ipc ipc_done db].
    rewrite E1. cbn. rewrite length_app. cbn.
    repeat split; try discriminate; auto. lia.
  - rewrite bind_run, read_run, addLog_run, E0. cbn.
    repeat split; try discriminate; auto. intros Hl. lia.
Qed.

Lemma card_label_vs_dispatch_witness :
  execution_label (AgentCard agent_y true) = "Approval Required" /\
  length (approvals (db (snd (handleRun agent_y (boot quiet_env))))) = 1.
Proof.
  destruct (card_label_vs_dispatch agent_y (boot quiet_env)) as (_ & H & _);
    [reflexivity|].
  split; [reflexivity|]. apply (proj1 (H eq_refl)). reflexivity.
Defined.

(** ** The log is append-only and holds known statuses *)

Lemma appends_known_refl (w : World) : appends_known w w.
Proof. exists []. split; [now rewrite app_nil_r|constructor]. Qed.

Lemma appends_known_trans (a b c : World) :
  appends_known a b -> appends_known b c -> appends_known a c.
Proof.
  intros (n1 & H1 & F1) (n2 & H2 & F2). exists (n1 ++ n2). split.
  - now rewrite H2, H1, app_assoc.
  - apply Forall_app. split; assumption.
Qed.

Lemma same_log_appends (w w' : World) : logs (db w') = logs (db w) -> appends_known w w'.
Proof. intros H. exists []. split; [now rewrite app_nil_r|constructor]. Qed.

(** A call into the store that is not [add_log] leaves the log alone. *)
Lemma invoke_keeps_log {A : Type} (c : Command) (f : World -> Db -> A * Db) :
  (forall w d, logs (snd (f w d)) = logs d) -> keeps appends_known (invoke c f).
Proof.
  intros Hf w. unfold invoke. destruct (ipc (env w) (n_ipc w)).
  - now apply same_log_appends.
  - specialize (Hf w (db w)). destruct (f w (db w)) as [a d]. now apply same_log_appends.
Qed.

Lemma addLog_appends_known (agentId action status output error : string) :
  known_status status = true -> keeps appends_known (addLog agentId action status output error).
Proof.
  intros Hs w. rewrite addLog_run. destruct (ipc (env w) (n_ipc w)).
  - now apply same_log_appends.
  - eexists. split; [reflexivity|]. repeat constructor. exact Hs.
Qed.

Lemma createAgent_keeps_log (data : AgentConfig) : keeps appends_known (createAgent data).
Proof. now apply invoke_keeps_log. Qed.

Lemma listAgents_keeps_log : keeps appends_known listAgents.
Proof. now apply invoke_keeps_log. Qed.

Lemma deleteAgent_keeps_log (id : string) : keeps appends_known (deleteAgent id).
Proof. now apply invoke_keeps_log. Qed.

Lemma getLogs_keeps_log (limit : nat) : keeps appends_known (getLogs limit).
Proof. now apply invoke_keeps_log. Qed.

Lemma getSetting_keeps_log (key : string) : keeps appends_known (getSetting key).
Proof. now apply invoke_keeps_log. Qed.

Lemma setSetting_keeps_log (key value : string) : keeps appends_known (setSetting key value).
Proof. now apply invoke_keeps_log. Qed.

Lemma deleteSetting_keeps_log (key : string) : keeps appends_known (deleteSetting key).
Proof. now apply invoke_keeps_log. Qed.

Lemma addApproval_keeps_log (agentId actionType preview : string) :
  keeps appends_known (addApproval agentId actionType preview).
Proof. now apply invoke_keeps_log. Qed.

Lemma updateApproval_keeps_log (id : nat) (status : string) :
  keeps appends_known (updateApproval id status).
Proof. now apply invoke_keeps_log. Qed.

Lemma getApprovals_keeps_log : keeps appends_known getApprovals.
Proof. now apply invoke_keeps_log. Qed.

Lemma executeCommand_keeps_log (program : string) (args : list string) :
  keeps appends_known (executeCommand program args).
Proof.
  intros w. unfold executeCommand. destruct (shell (env w) (n_shell w));
    now apply same_log_appends.
Qed.

Lemma startGateway_keeps_log (port : N) : keeps appends_known (startGateway port).
Proof.
  intros w. unfold startGateway. now apply same_log_appends.
Qed.

Lemma delay_keeps_log (ms : N) : keeps appends_known (delay ms).
Proof. intros w. now apply same_log_appends. Qed.

Lemma read_keeps_log {A : Type} (f : World -> A) : keeps appends_known (read f).
Proof. intros w. apply appends_known_refl. Qed.

Lemma fetch_keeps_log (url mdl : string) (messages : list Message.t) :
  keeps appends_known (fetch url mdl messages).
Proof. intros w. now apply same_log_appends. Qed.

Lemma anything_refl {T : Type} (t : T) : anything t t.
Proof. exact I. Qed.

Lemma anything_trans {T : Type} (a b c : T) : anything a b -> anything b c -> anything a c.
Proof. intros _ _. exact I. Qed.

Lemma keeps_liftE {P A : Type} (RW : World -> World -> Prop) (m : M Sys A) :
  keeps (both anything RW) m -> keeps (both (@anything (P * LLMService)) RW) (liftE m).
Proof.
  intros Hm [[p t] w]. unfold liftE. specialize (Hm (t, w)).
  destruct (m (t, w)) as [r [t' w']]. split; [exact I|exact (proj2 Hm)].
Qed.

Lemma keeps_promise_all {S A B : Type} (R : S -> S -> Prop) (m1 : M S A) (m2 : M S B) :
  (forall a b c, R a b -> R b c -> R a c) ->
  keeps R m1 -> keeps R m2 -> keeps R (promise_all m1 m2).
Proof.
  intros Ht H1 H2 s. unfold promise_all. specialize (H1 s).
  destruct (m1 s) as [r1 s1]. specialize (H2 s1). destruct (m2 s1) as [r2 s2].
  cbn [snd] in *. destruct r1, r2; cbn [snd]; eapply Ht; eassumption.
Qed.

Lemma keeps_promise_all3 {S A B C : Type} (R : S -> S -> Prop)
      (m1 : M S A) (m2 : M S B) (m3 : M S C) :
  (forall a b c, R a b -> R b c -> R a c) ->
  keeps R m1 -> keeps R m2 -> keeps R m3 -> keeps R (promise_all3 m1 m2 m3).
Proof.
  intros Ht H1 H2 H3 s. unfold promise_all3. specialize (H1 s).
  destruct (m1 s) as [r1 s1]. specialize (H2 s1). destruct (m2 s1) as [r2 s2].
  specialize (H3 s2). destruct (m3 s2) as [r3 s3].
  cbn [snd] in *.
  assert (R s s3) by (eapply Ht; [eassumption|eapply Ht; eassumption]).
  destruct r1, r2, r3; exact H.
Qed.

#[local] Hint Resolve appends_known_refl appends_known_trans
  createAgent_keeps_log listAgents_keeps_log deleteAgent_keeps_log getLogs_keeps_log
  getSetting_keeps_log setSetting_keeps_log deleteSetting_keeps_log
  addApproval_keeps_log updateApproval_keeps_log getApprovals_keeps_log
  executeCommand_keeps_log startGateway_keeps_log delay_keeps_log read_keeps_log
  fetch_keeps_log addLog_appends_known anything_refl anything_trans
  keeps_liftE keeps_promise_all keeps_promise_all3 : footprint.
#[local] Hint Extern 1 (anything _ _) => exact I : footprint.
#[local] Hint Extern 1 (known_status _ = true) => reflexivity : footprint.

Lemma _executeSetup_appends_known : keeps appends_known _executeSetup.
Proof.
  unfold _executeSetup, checkNodeInstalled, installOpenClaw, runOpenClawOnboard.
  footprint.
Qed.

#[local] Hint Resolve _executeSetup_appends_known : footprint.

Lemma _localInference_appends_known (message : string) :
  keeps (both anything appends_known) (_localInference message).
Proof. unfold _localInference. footprint. Qed.

#[local] Hint Resolve _localInference_appends_known : footprint.

Lemma sendMessage_appends_known (text : string) :
  keeps (both anything appends_known) (sendMessage text).
Proof.
  unfold sendMessage, _callOpenAI, _callAnthropic. footprint.
  all: intros r; destruct r; footprint.
Qed.

Lemma initialize_appends_known : keeps (both anything appends_known) initialize.
Proof. unfold initialize. footprint. Qed.

Lemma switchToAPI_appends_known (provider key : string) (mdl : option string) :
  keeps (both anything appends_known) (switchToAPI provider key mdl).
Proof. unfold switchToAPI. footprint. Qed.

Lemma switchToLocal_appends_known : keeps (both anything appends_known) switchToLocal.
Proof. unfold switchToLocal. footprint. Qed.

Lemma handleRun_appends_known (agent : Agent.t) : keeps appends_known (handleRun agent).
Proof. unfold handleRun, dispatch, now. footprint. Qed.

Lemma loadAgents_appends_known : keeps (both anything appends_known) loadAgents.
Proof. unfold loadAgents. footprint. Qed.

#[local] Hint Resolve loadAgents_appends_known switchToAPI_appends_known
  switchToLocal_appends_known : footprint.

Lemma handleCreate_appends_known : keeps (both anything appends_known) handleCreate.
Proof.
  unfold handleCreate. footprint.
Qed.

Lemma handleDelete_appends_known (id name : string) :
  keeps (both anything appends_known) (handleDelete id name).
Proof. unfold handleDelete. footprint. Qed.

Lemma createDemoAgent_appends_known (type : string) :
  keeps (both anything appends_known) (createDemoAgent type).
Proof. unfold createDemoAgent. footprint. Qed.

Lemma loadData_appends_known : keeps (both anything appends_known) loadData.
Proof. unfold loadData. footprint. Qed.

#[local] Hint Resolve loadData_appends_known : footprint.

Lemma handleApproval_appends_known (id : nat) (status : string) :
  keeps (both anything appends_known) (handleApproval id status).
Proof. unfold handleApproval, now. footprint. Qed.

Lemma loadSchedules_appends_known :
  keeps (both anything appends_known) SchedulePanel.loadData.
Proof. unfold SchedulePanel.loadData. footprint. Qed.

Lemma loadSettings_appends_known : keeps (both anything appends_known) loadSettings.
Proof.
  unfold loadSettings, setState, checkOpenClawInstalled. footprint.
  destruct a as [[provider key] mod_]. footprint.
Qed.

Lemma handleSave_appends_known : keeps (both anything appends_known) handleSave.
Proof. unfold handleSave, setState, state. footprint. Qed.

Lemma handleRemoveKey_appends_known : keeps (both anything appends_known) handleRemoveKey.
Proof. unfold handleRemoveKey, setState. footprint. Qed.

Lemma handleRunDoctor_appends_known : keeps (both anything appends_known) handleRunDoctor.
Proof.
  unfold handleRunDoctor, setState, openClawDoctor. footprint.
  intros _. apply keeps_liftW; try (intros; exact I).
  apply addLog_appends_known. now destruct (success _).
Qed.

Lemma checkOpenClawInstalled_keeps_log : keeps appends_known checkOpenClawInstalled.
Proof. unfold checkOpenClawInstalled. footprint. Qed.

Lemma checkNodeInstalled_keeps_log : keeps appends_known checkNodeInstalled.
Proof. unfold checkNodeInstalled. footprint. Qed.

Lemma handleSend_appends_known (newId : string) (nowMs : Z) :
  keeps (both anything appends_known) (handleSend newId nowMs).
Proof.
  pose proof sendMessage_appends_known.
  unfold handleSend, setState, state. footprint.
Qed.

Lemma operation_appends_known (w w' : World) : operation w w' -> appends_known w w'.
Proof.
  intros [o w0].
  destruct o as [ t | provider apiKey model t | t | text t | agent | p | p | id name p
                | type p | p | id status p | rows | s | s | s | s | newId nowMs s
                | | | | | | port | name cronExpr message opts | | message ];
    cbn [perform].
  - exact (proj2 (initialize_appends_known (t, w0))).
  - exact (proj2 (switchToAPI_appends_known provider apiKey model (t, w0))).
  - exact (proj2 (switchToLocal_appends_known (t, w0))).
  - exact (proj2 (sendMessage_appends_known text (t, w0))).
  - exact (handleRun_appends_known agent w0).
  - exact (proj2 (loadAgents_appends_known (p, w0))).
  - exact (proj2 (handleCreate_appends_known (p, w0))).
  - exact (proj2 (handleDelete_appends_known id name (p, w0))).
  - exact (proj2 (createDemoAgent_appends_known type (p, w0))).
  - exact (proj2 (loadData_appends_known (p, w0))).
  - exact (proj2 (handleApproval_appends_known id status (p, w0))).
  - exact (proj2 (loadSchedules_appends_known (rows, w0))).
  - exact (proj2 (loadSettings_appends_known (s, w0))).
  - exact (proj2 (handleSave_appends_known (s, w0))).
  - exact (proj2 (handleRemoveKey_appends_known (s, w0))).
  - exact (proj2 (handleRunDoctor_appends_known (s, w0))).
  - exact (proj2 (handleSend_appends_known newId nowMs (s, w0))).
  - apply checkOpenClawInstalled_keeps_log.
  - apply checkNodeInstalled_keeps_log.
  - apply executeCommand_keeps_log.
  - apply executeCommand_keeps_log.
  - apply executeCommand_keeps_log.
  - apply startGateway_keeps_log.
  - apply executeCommand_keeps_log.
  - apply executeCommand_keeps_log.
  - apply executeCommand_keeps_log.
Qed.

(** X18.  The log is append-only, and every entry has one of the three
    statuses the log table filters by.  Along any session of the
    application (methods of the engine, handlers and loaders of the
    panels, in any order, in any state of the components, whatever the
    store, the shell and the network answer), the entries that were in the
    log are still there, unchanged and in the same positions, and every
    entry added has status success, error or info. *)
Theorem log_is_append_only (w w' : World) :
  session_run w w' ->
  exists new,
    logs (db w') = logs (db w) ++ new /\
    Forall (fun e => known_status (Log.status e) = true) new.
Proof.
  intros H. induction H as [w|w1 w2 w3 Hop _ IH].
  - apply appends_known_refl.
  - eapply appends_known_trans; [apply operation_appends_known; exact Hop|exact IH].
Qed.

Lemma log_is_append_only_witness :
  exists new,
    logs (db (snd (handleRun agent_y (snd (handleRun agent_x (boot quiet_env)))))) =
    logs (db (boot quiet_env)) ++ new /\
    Forall (fun e => known_status (Log.status e) = true) new.
Proof.
  apply log_is_append_only.
  eapply session_step; [apply (operation_intro (HandleRun agent_x))|].
  eapply session_step; [apply (operation_intro (HandleRun agent_y))|].
  apply session_nil.
Defined.

(** ** The log table *)

Lemma loadData_run (p : LogsPanel) (w : World) :
  exists w',
    loadData (p, w) =
      (Ok tt,
       (setLoading false
          (if store_accepts 2 w
           then setApprovals (approvals (db w))
                  (setLogs (firstn 200 (rev (logs (db w)))) (setLoading true p))
           else setLoading true p),
        w')) /\
    db w' = db w /\ env w' = env w /\ n_ipc w' = n_ipc w + 2 /\
    n_shell w' = n_shell w /\ n_http w' = n_http w.
Proof.
  rewrite store_accepts_2.
  unfold loadData, promise_all, getLogs, getApprovals, invoke. run.
  destruct (ipc (env w) (n_ipc w)); cbn [env n_ipc ipc_done db];
    destruct (ipc (env w) (S (n_ipc w))); run;
    (eexists; split; [reflexivity|]); cbn; repeat split; lia.
Qed.

(** X19.  [loadData] of the Logs panel never throws and only reads.  Both
    reads are started whatever the first one answers.  The panel's two
    lists are replaced together, by the latest 200 log entries and by the
    approval items of the store, when both reads resolve; when either is
    rejected both lists stay as they were, so the panel never shows new
    logs beside old approvals.  In both cases the loading flag ends off
    and the filter is untouched. *)
Theorem loadData_effects (p : LogsPanel) (w : World) :
  let r := fst (loadData (p, w)) in
  let p' := fst (snd (loadData (p, w))) in
  let w' := snd (snd (loadData (p, w))) in
  r = Ok tt /\
  db w' = db w /\ n_ipc w' = n_ipc w + 2 /\ n_shell w' = n_shell w /\ n_http w' = n_http w /\
  loading p' = false /\ filter p' = filter p /\
  if store_accepts 2 w
  then logs_state p' = firstn 200 (rev (logs (db w))) /\
       approvals_state p' = approvals (db w)
  else logs_state p' = logs_state p /\ approvals_state p' = approvals_state p.
Proof.
  cbv zeta. destruct (loadData_run p w) as (w' & -> & Hdb & _ & Hn & Hs & Hh).
  cbn [fst snd]. repeat (split; [first [assumption | reflexivity
                                        | now destruct (store_accepts 2 w)]|]).
  destruct (store_accepts 2 w); split; reflexivity.
Qed.

Lemma in_firstn {A : Type} (n : nat) (l : list A) (x : A) : In x (firstn n l) -> In x l.
Proof. intros H. rewrite <- (firstn_skipn n l). apply in_or_app. now left. Qed.

Lemma entries_with_known_length (l : list Log.t) :
  Forall (fun e => known_status (Log.status e) = true) l ->
  length (entries_with "success" l) + length (entries_with "error" l) +
  length (entries_with "info" l) = length l.
Proof.
  induction 1 as [|e l He _ IH]; [reflexivity|].
  unfold entries_with in *. cbn [List.filter].
  unfold known_status in He.
  destruct (String.eqb (Log.status e) "success") eqn:E1.
  - apply String.eqb_eq in E1. rewrite E1. cbn [String.eqb Ascii.eqb Bool.eqb length].
    cbn. lia.
  - destruct (String.eqb (Log.status e) "error") eqn:E2.
    + apply String.eqb_eq in E2. rewrite E2. cbn. lia.
    + destruct (String.eqb (Log.status e) "info") eqn:E3; [|discriminate].
      cbn. lia.
Qed.

(** X20.  The filters of the log table.  Under "all" the table shows every
    entry the panel holds; under any other value it shows the entries of
    that status, in the order the panel holds them.  When the log of the
    store holds the three known statuses only, then after a reload the
    store answered, every entry shown is found under the filter of its
    own status, and the three filters together show each entry once. *)
Theorem filters_partition_the_log (p : LogsPanel) (w : World) :
  Forall (fun e => known_status (Log.status e) = true) (logs (db w)) ->
  store_accepts 2 w = true ->
  let p' := fst (snd (loadData (p, w))) in
  filtered (setFilter "all" p') = logs_state p' /\
  (forall f, f <> "all" -> filtered (setFilter f p') = entries_with f (logs_state p')) /\
  (forall e, In e (logs_state p') -> In e (filtered (setFilter (Log.status e) p'))) /\
  length (filtered (setFilter "success" p')) + length (filtered (setFilter "error" p')) +
  length (filtered (setFilter "info" p')) = length (logs_state p').
Proof.
  intros Hknown Hstore. cbv zeta.
  destruct (loadData_run p w) as (w' & -> & _). rewrite Hstore. cbn [fst snd].
  set (shown := firstn 200 (rev (logs (db w)))).
  assert (Hshown : Forall (fun e => known_status (Log.status e) = true) shown).
  { apply List.Forall_forall. intros e He. apply in_firstn, in_rev in He.
    rewrite List.Forall_forall in Hknown. now apply Hknown. }
  assert (Hf : forall f, f <> "all" ->
            filtered (setFilter f (setLoading false (setApprovals (approvals (db w))
                        (setLogs shown (setLoading true p)))))
            = entries_with f shown).
  { intros f Hne. unfold filtered. cbn [filter setFilter logs_state setLoading setApprovals setLogs].
    apply String.eqb_neq in Hne. now rewrite Hne. }
  split; [reflexivity|]. split; [exact Hf|]. split.
  - intros e He. cbn [logs_state setLoading setApprovals setLogs] in He.
    rewrite List.Forall_forall in Hshown. specialize (Hshown e He).
    rewrite Hf.
    + apply filter_In. split; [exact He|apply String.eqb_refl].
    + intros Hall. rewrite Hall in Hshown. discriminate.
  - rewrite !Hf by discriminate. cbn [logs_state setLoading setApprovals setLogs].
    now apply entries_with_known_length.
Qed.

Lemma filters_partition_the_log_witness :
  let w := snd (handleRun agent_y (snd (handleRun agent_x (boot quiet_env)))) in
  let p' := fst (snd (loadData (mounted, w))) in
  map Log.status (filtered (setFilter "info" p')) = ["info"] /\
  length (filtered (setFilter "success" p')) + length (filtered (setFilter "error" p')) +
  length (filtered (setFilter "info" p')) = 2.
Proof.
  cbv zeta.
  destruct (filters_partition_the_log mounted
              (snd (handleRun agent_y (snd (handleRun agent_x (boot quiet_env))))))
    as (_ & _ & _ & Hlen).
  - vm_compute. repeat constructor.
  - vm_compute; reflexivity.
  - split; [vm_compute; reflexivity|]. rewrite Hlen. vm_compute; reflexivity.
Defined.

(** ** From the dispatcher to the approved report *)

Lemma toLowerCase_append (a b : string) :
  toLowerCase (a +:+ b) = toLowerCase a +:+ toLowerCase b.
Proof.
  induction a as [|c a IH]; [reflexivity|].
  rewrite append_cons. cbn [toLowerCase]. now rewrite IH, append_cons.
Qed.

(** The preview of a browser agent names the agent and its goal. *)
Lemma preview_holds_name_and_goal (label name goal word : string) :
  includes (toLowerCase name) word || includes (toLowerCase goal) word = true ->
  includes (toLowerCase (label +:+ " " +:+ name +:+ ": " +:+ goal)) word = true.
Proof.
  intros H. rewrite !toLowerCase_append. apply orb_true_iff in H as [H|H].
  - apply includes_append_r, includes_append_r, includes_append_l. exact H.
  - apply includes_append_r, includes_append_r, includes_append_r, includes_append_r.
    exact H.
Qed.

Lemma find_last_id (l : list Approval.t) (a : Approval.t) :
  ids_ok l -> Approval.id a = length l ->
  find (fun x => Approval.id x =? length l) (l ++ [a]) = Some a.
Proof.
  intros Hids Ha.
  assert (Hnone : forall k l0, (forall i x, l0 !! i = Some x -> Approval.id x = k + i) ->
                    find (fun x => Approval.id x =? k + length l0) (l0 ++ [a]) =
                    (if Approval.id a =? k + length l0 then Some a else None)).
  { intros k l0. revert k. induction l0 as [|x l0 IH]; intros k Hl0; [reflexivity|].
    cbn [app find length]. rewrite (Hl0 0 x eq_refl).
    replace (k + 0 =? k + S (length l0)) with false by (symmetry; apply Nat.eqb_neq; lia).
    replace (k + S (length l0)) with (S k + length l0) by lia.
    apply IH. intros i y Hy. rewrite (Hl0 (S i) y Hy). lia. }
  specialize (Hnone 0 l). cbn [Nat.add] in Hnone. rewrite Hnone.
  - now rewrite Ha, Nat.eqb_refl.
  - intros i x Hx. now apply Hids.
Qed.

(** X21.  From the run to the approved report.  A browser agent that is not
    in sandbox mode is run, the Logs panel reloads and the user approves
    the item (the table numbering its rows by position, the store
    accepting the calls).  When the name or the goal of the agent holds
    "trending", the entry written on approval is attributed to the agent
    (to "system" for an agent without identifier), has status success and carries the trending report: the report is
    chosen from the stored preview, which holds the goal, although the
    label of the preview was chosen from the name alone. *)
Theorem approved_report_follows_preview (agent : Agent.t) (p : LogsPanel) (w : World) :
  sandbox agent = false ->
  includes (tools agent) "browser" = true ->
  includes (toLowerCase (name agent)) "trending" ||
  includes (toLowerCase (goal agent)) "trending" = true ->
  ids_ok (approvals (db w)) ->
  store_accepts 6 w = true ->
  let w1 := snd (handleRun agent w) in
  let s2 := snd (loadData (p, w1)) in
  let s3 := snd (handleApproval (length (approvals (db w))) "approved" s2) in
  exists e,
    logs (db (snd s3)) = logs (db w1) ++ [e] /\
    Log.status e = "success" /\
    Log.agent_id e = or_else (Some (Agent.id agent)) "system" /\
    Log.action e = "Approved & Executed" /\
    Log.output e = buildTrendingOutput (clock (env w)).
Proof.
  intros Hsb Hbr Hword Hids Hstore. cbv zeta.
  rewrite store_accepts_spec in Hstore.
  pose proof (Hstore 0 ltac:(lia)) as E0. pose proof (Hstore 1 ltac:(lia)) as E1.
  pose proof (Hstore 2 ltac:(lia)) as E2. pose proof (Hstore 3 ltac:(lia)) as E3.
  pose proof (Hstore 4 ltac:(lia)) as E4. pose proof (Hstore 5 ltac:(lia)) as E5.
  rewrite ?Nat.add_succ_r, ?Nat.add_0_r in *. clear Hstore.
  set (preview := preview_prefix (detectAgentType (Some (name agent))) +:+ " " +:+
                  name agent +:+ ": " +:+ goal agent).
  set (item := approval_row (length (approvals (db w))) (Agent.id agent) "agent_execution"
                            preview (clock (env w))).
  (* the run *)
  assert (Hrun : exists w1, handleRun agent w = (Ok tt, w1) /\
            env w1 = env w /\ n_ipc w1 = S (S (n_ipc w)) /\
            approvals (db w1) = approvals (db w) ++ [item]).
  { unfold handleRun, dispatch. rewrite Hsb, Hbr, try_catch_run, bind_run, addApproval_run, E0.
    rewrite addLog_run. cbn [env n_ipc ipc_done db]. rewrite E1.
    eexists. split; [reflexivity|]. cbn. repeat split. }
  destruct Hrun as (w1 & -> & Henv1 & Hn1 & Happ1). cbn [snd].
  (* the reload *)
  destruct (loadData_run p w1) as (w2 & -> & Hdb2 & Henv2 & Hn2 & _).
  assert (H2 : store_accepts 2 w1 = true).
  { rewrite store_accepts_2, Henv1, Hn1, E2, E3. reflexivity. }
  rewrite H2. cbn [snd].
  (* the click *)
  assert (Hfind : find (fun a => Approval.id a =? length (approvals (db w)))
                       (approvals (db w1)) = Some item).
  { rewrite Happ1. now apply find_last_id. }
  assert (Htype : detectAgentType (Some preview) = "trending").
  { unfold detectAgentType. rewrite toLowerCase_or_else.
    unfold preview. now rewrite preview_holds_name_and_goal. }
  unfold handleApproval, now. run. rewrite updateApproval_run.
  rewrite Henv2, Hn2, Henv1, Hn1. cbn [Nat.add]. rewrite ?Nat.add_succ_r, ?Nat.add_0_r, E4.
  run. cbn [approvals_state setLoading setApprovals setLogs String.eqb Ascii.eqb Bool.eqb].
  rewrite Hfind. cbn [fmap option_fmap option_map Approval.content_preview Approval.agent_id item
                      approval_row].
  destruct (String.eqb_spec "approved" "approved") as [_|Hne]; [|congruence].
  rewrite ?read_run. run.
  assert (Hprev : or_else (Some preview) EmptyString = preview).
  { unfold preview, preview_prefix.
    destruct (String.eqb _ "trending"); [reflexivity|].
    destruct (String.eqb _ "hashtag"); reflexivity. }
  rewrite Hprev, Htype. cbn [String.eqb Ascii.eqb Bool.eqb].
  run. rewrite ?read_run. run.
  rewrite addLog_run. cbn [env n_ipc ipc_done db]. rewrite Henv2, Hn2, Henv1, Hn1.
  cbn [Nat.add]. rewrite ?Nat.add_succ_r, ?Nat.add_0_r, E5. run.
  match goal with
  | |- context [loadData ?s] => destruct (loadData_run (fst s) (snd s)) as (w4 & Hl & Hdb4 & _)
  end.
  cbn [fst snd] in Hl. rewrite Hl. cbn [fst snd]. rewrite Hdb4.
  cbn [db ipc_done logs]. rewrite Hdb2.
  eexists. split; [reflexivity|]. cbn [Log.status Log.agent_id Log.action Log.output log_row].
  repeat split.
Qed.

(** The agent whose goal, not its name, speaks of trending topics: its
    preview is labelled as a plain agent, and its approval writes the
    trending report. *)
Lemma approved_report_follows_preview_witness :
  let w1 := snd (handleRun agent_poster (boot quiet_env)) in
  let s2 := snd (loadData (mounted, w1)) in
  let s3 := snd (handleApproval 0 "approved" s2) in
  map Approval.content_preview (approvals (db w1)) = ["[Agent] Poster: find trending topics"] /\
  exists e, logs (db (snd s3)) = logs (db w1) ++ [e] /\
            Log.output e = buildTrendingOutput "11/2/2026, 9:00:00 AM".
Proof.
  cbv zeta. split; [vm_compute; reflexivity|].
  destruct (approved_report_follows_preview agent_poster mounted (boot quiet_env))
    as (e & Hl & _ & _ & _ & Ho).
  - reflexivity.
  - reflexivity.
  - vm_compute; reflexivity.
  - intros i a Hi. cbn in Hi. rewrite lookup_nil in Hi. discriminate.
  - reflexivity.
  - exists e. split; [exact Hl|exact Ho].
Defined.

(** ** The settings panel *)

Lemma liftE_run {P A : Type} (m : M Sys A) (p : P) (t : LLMService) (w : World) :
  liftE m ((p, t), w) =
  (fst (m (t, w)), ((p, fst (snd (m (t, w)))), snd (snd (m (t, w))))).
Proof. unfold liftE. now destruct (m (t, w)) as [r [t' w']]. Qed.

Lemma setState_run {P : Type} (f : P -> P) (p : P) (t : LLMService) (w : World) :
  setState f ((p, t), w) = (Ok tt, ((f p, t), w)).
Proof. reflexivity. Qed.

Lemma state_run {P : Type} (p : P) (t : LLMService) (w : World) :
  @state P ((p, t), w) = (Ok p, ((p, t), w)).
Proof. reflexivity. Qed.

(** X22.  [handleSave] never throws and ends with the saving flag off.  It
    makes one call to the engine and nothing else to the outside world:
    [switchToAPI] with the provider, the key as typed (not trimmed) and the
    model of the form when the trimmed key is not empty and the provider
    is not "local", and [switchToLocal] otherwise.  When that call returns
    the saved flag is set, and after [switchToLocal] the three fields of
    the form are reset; when it throws, the form and the saved flag are
    left as they were, although the engine has already switched in
    memory. *)
Theorem handleSave_effects (p : SettingsPanel.t) (t : LLMService) (w : World) :
  let remote := truthy (Some (trim (SettingsPanel.apiKey p))) &&
                negb (String.eqb (SettingsPanel.llmProvider p) "local") in
  let call := if remote
              then switchToAPI (SettingsPanel.llmProvider p) (SettingsPanel.apiKey p)
                               (Some (SettingsPanel.model p))
              else switchToLocal in
  let r := fst (handleSave ((p, t), w)) in
  let p' := fst (fst (snd (handleSave ((p, t), w)))) in
  let t' := snd (fst (snd (handleSave ((p, t), w)))) in
  let w' := snd (snd (handleSave ((p, t), w))) in
  r = Ok tt /\
  t' = fst (snd (call (t, w))) /\
  w' = snd (snd (call (t, w))) /\
  SettingsPanel.saving p' = false /\
  SettingsPanel.doctorOutput p' = SettingsPanel.doctorOutput p /\
  match fst (call (t, w)) with
  | Ok _ =>
      SettingsPanel.saved p' = true /\
      if remote
      then SettingsPanel.llmProvider p' = SettingsPanel.llmProvider p /\
           SettingsPanel.apiKey p' = SettingsPanel.apiKey p /\
           SettingsPanel.model p' = SettingsPanel.model p
      else SettingsPanel.llmProvider p' = "local" /\
           SettingsPanel.apiKey p' = EmptyString /\
           SettingsPanel.model p' = EmptyString
  | Throw _ =>
      SettingsPanel.saved p' = SettingsPanel.saved p /\
      SettingsPanel.llmProvider p' = SettingsPanel.llmProvider p /\
      SettingsPanel.apiKey p' = SettingsPanel.apiKey p /\
      SettingsPanel.model p' = SettingsPanel.model p
  end.
Proof.
  cbv zeta. unfold handleSave.
  rewrite bind_run, state_run, bind_run, setState_run, bind_run, try_catch_run, bind_run.
  destruct (truthy (Some (trim (SettingsPanel.apiKey p))) &&
            negb (String.eqb (SettingsPanel.llmProvider p) "local")).
  - rewrite liftE_run.
    destruct (switchToAPI _ _ _ (t, w)) as [[[]|e] [t1 w1]]; cbn [fst snd];
      rewrite ?setState_run, ?ret_run; cbn [fst snd]; repeat split.
  - rewrite bind_run, liftE_run.
    destruct (switchToLocal (t, w)) as [[[]|e] [t1 w1]]; cbn [fst snd];
      rewrite ?bind_run, ?setState_run; cbn [fst snd];
      rewrite ?bind_run, ?setState_run; cbn [fst snd];
      rewrite ?bind_run, ?setState_run, ?ret_run; cbn [fst snd];
      rewrite ?setState_run, ?ret_run; cbn [fst snd]; repeat split.
Qed.

(** A key typed with a space before and after it is stored as typed. *)
Lemma handleSave_effects_witness :
  let typed := SettingsPanel.setApiKey " sk-test "
                 (SettingsPanel.setLlmProvider "openai" SettingsPanel.mounted) in
  let after := snd (handleSave ((typed, constructor), boot quiet_env)) in
  apiKey (snd (fst after)) = Some " sk-test " /\
  settings (db (snd after)) !! "llm_api_key" = Some " sk-test ".
Proof.
  cbv zeta.
  destruct (handleSave_effects
              (SettingsPanel.setApiKey " sk-test "
                 (SettingsPanel.setLlmProvider "openai" SettingsPanel.mounted))
              constructor (boot quiet_env)) as (_ & Ht & Hw & _).
  rewrite Ht, Hw. split; vm_compute; reflexivity.
Defined.

(** X23.  [handleRunDoctor] never throws and leaves the engine alone.  It
    runs one command, [openclaw doctor], and then asks the store for one
    log entry, whose status is success exactly when the command exited
    with code 0 and error otherwise (a throw of the shell included), with
    the command's output and error text.  The panel shows the output, or
    the error text when there is no output, or "No output"; but when the
    store rejects the log entry the panel shows that rejection instead of
    what the doctor said. *)
Theorem handleRunDoctor_effects (p : SettingsPanel.t) (t : LLMService) (w : World) :
  let result := match shell (env w) (n_shell w) with
                | Exit c out err =>
                    {| success := (c =? 0)%Z; stdout := out; stderr := err; code := c |}
                | ShellThrows e =>
                    {| success := false; stdout := EmptyString; stderr := toString e;
                       code := (-1)%Z |}
                end in
  let r := fst (handleRunDoctor ((p, t), w)) in
  let p' := fst (fst (snd (handleRunDoctor ((p, t), w)))) in
  let t' := snd (fst (snd (handleRunDoctor ((p, t), w)))) in
  let w' := snd (snd (handleRunDoctor ((p, t), w))) in
  r = Ok tt /\ t' = t /\
  (exists resolved,
     trace w' = trace w ++
       [EShell "openclaw" ["doctor"];
        EInvoke (add_log "system" "Ran openclaw doctor"
                         (if success result then "success" else "error")
                         (stdout result) (stderr result)) resolved]) /\
  (success result = true <->
   exists out err, shell (env w) (n_shell w) = Exit 0 out err) /\
  match ipc (env w) (n_ipc w) with
  | None =>
      SettingsPanel.doctorOutput p' =
        or_else (Some (stdout result)) (or_else (Some (stderr result)) "No output") /\
      logs (db w') =
        logs (db w) ++
        [log_row (length (logs (db w))) "system" "Ran openclaw doctor"
                 (if success result then "success" else "error")
                 (stdout result) (stderr result) (clock (env w))]
  | Some e =>
      SettingsPanel.doctorOutput p' = "Failed: " +:+ toString e /\ db w' = db w
  end.
Proof.
  cbv zeta. unfold handleRunDoctor, openClawDoctor.
  rewrite bind_run, setState_run, try_catch_run, bind_run, liftW_run.
  unfold executeCommand.
  destruct (shell (env w) (n_shell w)) as [c out err|e0]; cbn [fst snd];
    rewrite bind_run, setState_run, liftW_run, addLog_run;
    cbn [env n_ipc shell_done db success stdout stderr];
    destruct (ipc (env w) (n_ipc w)) as [e|]; cbn [fst snd];
    rewrite ?setState_run; cbn [fst snd SettingsPanel.doctorOutput SettingsPanel.setDoctorOutput
                                  db ipc_done shell_done logs trace];
    rewrite <- ?app_assoc; cbn [app].
  all: split; [reflexivity|]; split; [reflexivity|]; split; [eexists; reflexivity|].
  all: split; [|split; reflexivity].
  1,2: split; [intros Hc; apply Z.eqb_eq in Hc; subst c; eauto
              |intros (o & e' & [= -> _ _]); reflexivity].
  all: split; [discriminate|intros (o & e' & [=])].
Qed.

(** ** The schedule panel *)

Lemma split_length (sep : ascii) (s : string) :
  length (split sep s) = S (count_char sep s).
Proof.
  induction s as [|c s IH]; [reflexivity|]. cbn [split count_char].
  destruct (Ascii.eqb c sep).
  - cbn [length]. now rewrite IH.
  - destruct (split sep s) as [|field rest]; [discriminate IH|]. exact IH.
Qed.

(** X24.  [calculateNextRun] answers "Invalid cron" exactly for the
    expressions that do not have five fields, that is, that do not hold
    exactly four spaces; what the fields hold is not looked at.  For every
    other expression the answer is the text of the next-run table when the
    expression is one of its four keys, and "Cron: " followed by the
    expression otherwise. *)
Theorem calculateNextRun_invalid_iff (cron : string) :
  (SchedulePanel.calculateNextRun cron = "Invalid cron" <-> count_char " " cron <> 4) /\
  (count_char " " cron = 4 ->
   SchedulePanel.calculateNextRun cron =
     match SchedulePanel.lookup_key cron SchedulePanel.NEXT_RUN_MAP with
     | Some text => text
     | None => "Cron: " +:+ cron
     end).
Proof.
  unfold SchedulePanel.calculateNextRun. rewrite split_length.
  assert (Hval : count_char " " cron = 4 ->
            or_else (SchedulePanel.lookup_key cron SchedulePanel.NEXT_RUN_MAP)
                    ("Cron: " +:+ cron) =
            match SchedulePanel.lookup_key cron SchedulePanel.NEXT_RUN_MAP with
            | Some text => text
            | None => "Cron: " +:+ cron
            end /\
            or_else (SchedulePanel.lookup_key cron SchedulePanel.NEXT_RUN_MAP)
                    ("Cron: " +:+ cron) <> "Invalid cron").
  { intros _. unfold SchedulePanel.lookup_key, SchedulePanel.NEXT_RUN_MAP. cbn [find fst snd].
    repeat match goal with
           | |- context [if String.eqb ?a ?b then _ else _] => destruct (String.eqb a b)
           end; cbn; split; try reflexivity; discriminate. }
  split; [split|].
  - intros H Hc. rewrite Hc in H. cbn [Nat.eqb negb] in H.
    now apply (proj2 (Hval Hc)).
  - intros Hc. replace (S (count_char " " cron) =? 5) with false; [reflexivity|].
    symmetry. apply Nat.eqb_neq. lia.
  - intros Hc. rewrite Hc. cbn [Nat.eqb negb]. exact (proj1 (Hval Hc)).
Qed.

(** Four fields are refused; five are accepted whatever they hold. *)
Lemma calculateNextRun_invalid_iff_witness :
  SchedulePanel.calculateNextRun "0 9 * *" = "Invalid cron" /\
  SchedulePanel.calculateNextRun "every day at nine o'clock" = "Cron: every day at nine o'clock".
Proof.
  split.
  - apply (proj1 (calculateNextRun_invalid_iff "0 9 * *")). vm_compute. lia.
  - rewrite (proj2 (calculateNextRun_invalid_iff "every day at nine o'clock"));
      [reflexivity|vm_compute; reflexivity].
Defined.

Lemma derived_rows (agents : list Agent.t) :
  map SchedulePanel.id (SchedulePanel.derived agents) =
    map Agent.id (List.filter has_schedule agents) /\
  Forall (fun row =>
            trim (SchedulePanel.schedule_cron row) <> EmptyString /\
            SchedulePanel.enabled row = true /\
            SchedulePanel.nextRun row =
              SchedulePanel.calculateNextRun (SchedulePanel.schedule_cron row))
         (SchedulePanel.derived agents).
Proof.
  unfold SchedulePanel.derived.
  assert (Hsame : forall a : Agent.t,
            truthy (Some (schedule a)) && truthy (Some (trim (schedule a))) = has_schedule a).
  { intros a. unfold has_schedule. destruct (schedule a) as [|c s] eqn:Hs; [reflexivity|].
    cbn [truthy andb]. now destruct (trim (String c s)). }
  rewrite (List.filter_ext _ _ Hsame). split.
  - now rewrite map_map.
  - apply Forall_map. apply List.Forall_forall. intros a Ha.
    apply filter_In in Ha as [_ Ha]. unfold has_schedule in Ha.
    cbn [SchedulePanel.schedule_cron SchedulePanel.enabled SchedulePanel.nextRun].
    repeat split. intros Hblank. rewrite Hblank in Ha. discriminate.
Qed.

(** X25.  The table of the schedule panel.  [loadData] never throws and
    only reads.  When the store rejects the read the rows stay as they
    were.  When it answers, there is one row for each agent whose schedule
    is not blank, in the order of the store, and none for an agent without
    schedule or with a schedule of white space only; every row is enabled
    and its next run is what [calculateNextRun] says of its expression. *)
Theorem schedule_rows (rows : list SchedulePanel.Schedule) (w : World) :
  let r := fst (SchedulePanel.loadData (rows, w)) in
  let rows' := fst (snd (SchedulePanel.loadData (rows, w))) in
  let w' := snd (snd (SchedulePanel.loadData (rows, w))) in
  r = Ok tt /\ db w' = db w /\
  match ipc (env w) (n_ipc w) with
  | Some _ => rows' = rows
  | None =>
      map SchedulePanel.id rows' = map Agent.id (List.filter has_schedule (agents (db w))) /\
      Forall (fun row =>
                trim (SchedulePanel.schedule_cron row) <> EmptyString /\
                SchedulePanel.enabled row = true /\
                SchedulePanel.nextRun row =
                  SchedulePanel.calculateNextRun (SchedulePanel.schedule_cron row))
             rows'
  end.
Proof.
  cbv zeta. unfold SchedulePanel.loadData. run. rewrite listAgents_run.
  destruct (ipc (env w) (n_ipc w)); run.
  - repeat split.
  - split; [reflexivity|]. split; [reflexivity|]. apply derived_rows.
Qed.

(** ** Titles and relative times *)

Lemma substring_prefix (n : nat) (s : string) :
  n <= String.length s ->
  String.length (String.substring 0 n s) = n /\
  String.prefix (String.substring 0 n s) s = true.
Proof.
  revert s. induction n as [|n IH]; intros s Hn.
  - destruct s; split; reflexivity.
  - destruct s as [|c s]; [cbn in Hn; lia|].
    cbn [String.substring String.length String.prefix].
    destruct (IH s ltac:(cbn in Hn; lia)) as [H1 H2]. rewrite H1. split; [reflexivity|].
    destruct (ascii_dec c c) as [_|Hc]; [exact H2|now destruct Hc].
Qed.

Lemma find_first_user (pre post : list Message.t) (m : Message.t) :
  Forall (fun x => Message.role x <> "user") pre ->
  Message.role m = "user" ->
  find (fun x => String.eqb (Message.role x) "user") pre = None /\
  find (fun x => String.eqb (Message.role x) "user") (pre ++ m :: post) = Some m.
Proof.
  intros Hpre Hm. induction Hpre as [|x pre Hx _ IH]; cbn [app find].
  - rewrite Hm. split; reflexivity.
  - apply String.eqb_neq in Hx. rewrite Hx. exact IH.
Qed.

(** X26.  The title of a chat is "New Chat" as long as the conversation
    holds no user message, and otherwise it is made from the first user
    message alone, whatever comes before or after it: the trimmed text
    when it has at most [maxLen] characters, and its first [maxLen]
    characters followed by an ellipsis when it is longer. *)
Theorem getChatTitle_first_user (pre post : list Message.t) (m : Message.t) (maxLen : nat) :
  Forall (fun x => Message.role x <> "user") pre ->
  Message.role m = "user" ->
  let text := trim (Message.content m) in
  let title := getChatTitle (pre ++ m :: post) maxLen in
  getChatTitle pre maxLen = "New Chat" /\
  title = getChatTitle [m] maxLen /\
  (String.length text <= maxLen -> title = text) /\
  (maxLen < String.length text ->
   exists head, title = head +:+ "…" /\ String.length head = maxLen /\
                String.prefix head text = true).
Proof.
  intros Hpre Hm. cbv zeta. unfold getChatTitle.
  destruct (find_first_user pre post m Hpre Hm) as [-> ->].
  cbn [find]. rewrite Hm. cbn [String.eqb Ascii.eqb Bool.eqb].
  split; [reflexivity|]. split; [reflexivity|]. split.
  - intros Hlen. apply Nat.ltb_ge in Hlen. now rewrite Hlen.
  - intros Hlen. pose proof Hlen as Hlt. apply Nat.ltb_lt in Hlt. rewrite Hlt.
    destruct (substring_prefix maxLen (trim (Message.content m)) ltac:(lia)) as [H1 H2].
    eexists. split; [reflexivity|]. split; assumption.
Qed.

Lemma getChatTitle_first_user_witness :
  getChatTitle [assistant_says "Welcome!"; user_says "  Create a trending agent  ";
                assistant_says "Here is a draft."; user_says "yes"] 35
  = "Create a trending agent".
Proof.
  destruct (getChatTitle_first_user [assistant_says "Welcome!"]
              [assistant_says "Here is a draft."; user_says "yes"]
              (user_says "  Create a trending agent  ") 35) as (_ & _ & H & _).
  - repeat constructor. discriminate.
  - reflexivity.
  - cbn [app] in H. rewrite H; [reflexivity|]. vm_compute. lia.
Defined.

(** X27.  The relative time of [formatTimeAgo], by the age of the timestamp
    in milliseconds.  Less than a minute, a timestamp in the future
    included, is "Just now"; then whole minutes up to 59, whole hours up to
    23 (the hours counted from the milliseconds come out the same as the
    hours the code counts from the minutes), whole days up to 6; from seven
    days on, the date of the timestamp. *)
Theorem formatTimeAgo_thresholds (toLocaleDateString : Z -> string) (now timestamp : Z) :
  let diff := (now - timestamp)%Z in
  let shown := formatTimeAgo toLocaleDateString now timestamp in
  ((diff < 60000)%Z -> shown = "Just now") /\
  ((60000 <= diff < 3600000)%Z ->
   shown = string_of_Z (diff / 60000) +:+ "m ago" /\ (1 <= diff / 60000 <= 59)%Z) /\
  ((3600000 <= diff < 86400000)%Z ->
   shown = string_of_Z (diff / 3600000) +:+ "h ago" /\ (1 <= diff / 3600000 <= 23)%Z) /\
  ((86400000 <= diff < 604800000)%Z ->
   shown = string_of_Z (diff / 86400000) +:+ "d ago" /\ (1 <= diff / 86400000 <= 6)%Z) /\
  ((604800000 <= diff)%Z -> shown = toLocaleDateString timestamp).
Proof.
  cbv zeta. unfold formatTimeAgo. set (diff := (now - timestamp)%Z). clearbody diff.
  assert (Hh : (diff / 60000 / 60 = diff / 3600000)%Z)
    by (rewrite Z.div_div by lia; reflexivity).
  assert (Hd : (diff / 60000 / 60 / 24 = diff / 86400000)%Z)
    by (rewrite !Z.div_div by lia; reflexivity).
  rewrite Hd, Hh.
  destruct (Z.ltb_spec (diff / 60000) 1) as [E1|E1];
    [|destruct (Z.ltb_spec (diff / 60000) 60) as [E2|E2];
      [|destruct (Z.ltb_spec (diff / 3600000) 24) as [E3|E3];
        [|destruct (Z.ltb_spec (diff / 86400000) 7) as [E4|E4]]]].
  all: repeat split; intros; try reflexivity;
    try (exfalso; Z.to_euclidean_division_equations; lia);
    Z.to_euclidean_division_equations; lia.
Qed.

Lemma formatTimeAgo_thresholds_witness :
  formatTimeAgo (fun _ => "Oct 1") 1793610000000 1793602000000 = "2h ago".
Proof.
  destruct (formatTimeAgo_thresholds (fun _ => "Oct 1") 1793610000000 1793602000000)
    as (_ & _ & H & _).
  destruct H as [H _]; [lia|]. rewrite H. vm_compute. reflexivity.
Defined.

(** ** The chat panel *)

(** X28.  [handleSend] never throws.  With a blank input, or while a turn is
    running, it does nothing.  Otherwise it sends the trimmed input to the
    engine, and what it does to the engine and to the outside world is that
    one [sendMessage]; it ends with the input empty and the loading flag
    off; the first message of a chat opens a session under the new
    identifier, titled after the text, at the head of the list.  The panel
    shows two more messages: the text, and the reply or, when [sendMessage]
    throws, an error message made from what was thrown.  When the turn
    returns, the two messages the panel added are the two messages the
    engine added to its history. *)
Theorem handleSend_effects (newId : string) (nowMs : Z)
        (p : ChatPanel) (t : LLMService) (w : World) :
  let text := trim (input p) in
  let turn := sendMessage text (t, w) in
  let after := snd (handleSend newId nowMs ((p, t), w)) in
  let p' := fst (fst after) in
  fst (handleSend newId nowMs ((p, t), w)) = Ok tt /\
  if negb (truthy (Some text)) || isLoading p then after = ((p, t), w)
  else
    snd (fst after) = fst (snd turn) /\
    snd after = snd (snd turn) /\
    isLoading p' = false /\ input p' = EmptyString /\
    messages p' =
      messages p ++
      [user_says text;
       assistant_says
         match fst turn with
         | Ok reply => reply
         | Throw e => "❌ Error: " +:+ message_text e +:+ nl +:+ nl +:+ "Please try again."
         end] /\
    (forall reply, fst turn = Ok reply ->
       skipn (length (messages p)) (messages p') =
       skipn (length (conversationHistory t)) (conversationHistory (fst (snd turn)))) /\
    if truthy (activeSessionId p)
    then activeSessionId p' = activeSessionId p /\ sessions p' = sessions p
    else activeSessionId p' = Some newId /\
         exists s, sessions p' = s :: sessions p /\
                   Session.id s = newId /\
                   Session.title s = getChatTitle [user_says text] 35 /\
                   Session.messages s = messages p ++ [user_says text].
Proof.
  cbv zeta. unfold handleSend. rewrite bind_run, state_run.
  destruct (negb (truthy (Some (trim (input p)))) || isLoading p); [split; reflexivity|].
  pose proof (sendMessage_appends (trim (input p)) t w) as Hh.
  destruct (truthy (activeSessionId p)); cbn [negb];
    rewrite ?bind_run, ?ret_run, ?setState_run; cbn [fst snd];
    rewrite ?bind_run, ?setState_run; cbn [fst snd];
    rewrite ?bind_run, ?setState_run; cbn [fst snd];
    rewrite ?bind_run, ?setState_run; cbn [fst snd];
    rewrite ?bind_run, ?setState_run; cbn [fst snd];
    rewrite ?bind_run, ?try_catch_run, ?bind_run, ?liftE_run;
    destruct (sendMessage (trim (input p)) (t, w)) as [[reply|e] [t1 w1]];
    cbn [fst snd] in *; rewrite ?setState_run; cbn [fst snd];
    rewrite ?setState_run; cbn [fst snd messages input isLoading activeSessionId sessions
                                    setMessages setIsLoading setInput setActiveSessionId
                                    setSessions];
    rewrite <- ?app_assoc; cbn [app].
  all: split; [reflexivity|]; repeat (split; [reflexivity|]).
  all: split; [intros r Hr; try discriminate; rewrite Hh, !skipn_app, !skipn_all,
                 !Nat.sub_diag; injection Hr as <-; reflexivity|].
  all: try (split; reflexivity).
  all: split; [reflexivity|]; eexists; repeat split; reflexivity.
Qed.

(** The first message of a chat, on a store that is locked and with the
    setup confirmation pending on a remote engine: the turn throws and the
    panel shows the error message. *)
Lemma handleSend_effects_witness :
  let typed := setInput "  yes " (ChatPanel_mounted []) in
  let after := snd (handleSend "k1" 1793610000000
                               ((typed, remote_engine_awaiting_setup), boot broken_env)) in
  map Message.content (skipn 1 (messages (fst (fst after)))) =
    ["yes"; "❌ Error: undefined" +:+ nl +:+ nl +:+ "Please try again."] /\
  map Session.title (sessions (fst (fst after))) = ["yes"].
Proof.
  cbv zeta.
  destruct (handleSend_effects "k1" 1793610000000 (setInput "  yes " (ChatPanel_mounted []))
              remote_engine_awaiting_setup (boot broken_env)) as (_ & H).
  assert (Hgo : negb (truthy (Some (trim (input (setInput "  yes " (ChatPanel_mounted []))))))
                || isLoading (setInput "  yes " (ChatPanel_mounted [])) = false)
    by (vm_compute; reflexivity).
  rewrite Hgo in H. destruct H as (_ & _ & _ & _ & Hm & _ & Hs).
  assert (Hnone : truthy (activeSessionId (setInput "  yes " (ChatPanel_mounted []))) = false)
    by reflexivity.
  rewrite Hnone in Hs. destruct Hs as (_ & s & Hs & _ & Ht & _).
  rewrite Hm, Hs. split; [vm_compute; reflexivity|].
  cbn [map sessions setInput ChatPanel_mounted]. rewrite Ht. vm_compute. reflexivity.
Defined.

(** *** Changing the session *)

Lemma handleSend_turn (newId : string) (nowMs : Z) (p : ChatPanel) (t : LLMService)
      (w : World) :
  negb (truthy (Some (trim (input p)))) || isLoading p = false ->
  snd (snd (handleSend newId nowMs ((p, t), w))) =
  snd (snd (sendMessage (trim (input p)) (t, w))).
Proof.
  intros Hgo. unfold handleSend. rewrite bind_run, state_run, Hgo.
  destruct (truthy (activeSessionId p)); cbn [negb];
    rewrite ?bind_run, ?ret_run, ?setState_run; cbn [fst snd];
    rewrite ?bind_run, ?setState_run; cbn [fst snd];
    rewrite ?bind_run, ?setState_run; cbn [fst snd];
    rewrite ?bind_run, ?setState_run; cbn [fst snd];
    rewrite ?bind_run, ?setState_run; cbn [fst snd];
    rewrite ?bind_run, ?try_catch_run, ?bind_run, ?liftE_run;
    destruct (sendMessage (trim (input p)) (t, w)) as [[reply|e] [t1 w1]];
    cbn [fst snd]; rewrite ?setState_run; cbn [fst snd];
    rewrite ?setState_run; reflexivity.
Qed.

Lemma executeCommand_grows (program : string) (args : list string) :
  keeps grows (executeCommand program args).
Proof.
  intros w. unfold executeCommand. destruct (shell (env w) (n_shell w)); eexists; reflexivity.
Qed.

Lemma startGateway_grows (port : N) : keeps grows (startGateway port).
Proof.
  intros w. unfold startGateway. eexists; reflexivity.
Qed.

Lemma delay_grows (ms : N) : keeps grows (delay ms).
Proof. intros w. eexists; reflexivity. Qed.

Lemma read_grows {A : Type} (f : World -> A) : keeps grows (read f).
Proof. intros w. apply grows_refl. Qed.

#[local] Hint Resolve executeCommand_grows startGateway_grows delay_grows read_grows
  : footprint.

Lemma _executeSetup_grows : keeps grows _executeSetup.
Proof.
  unfold _executeSetup, checkNodeInstalled, installOpenClaw, runOpenClawOnboard, addLog.
  footprint.
Qed.

#[local] Hint Resolve _executeSetup_grows : footprint.

Lemma _localInference_grows (message : string) :
  keeps (both anything grows) (_localInference message).
Proof. unfold _localInference, createAgent, addLog, addApproval. footprint. Qed.

(** A remote turn starts with its request. *)
Lemma sendMessage_remote_request (text : string) (t : LLMService) (w : World) :
  remote_selected t = true ->
  exists url mdl rest,
    trace (snd (snd (sendMessage text (t, w)))) =
    trace w ++
    EFetch url mdl
      ((if String.eqb (mode t) "openai"
        then [{| Message.role := "system"; Message.content := SYSTEM_PROMPT |}] else []) ++
       slice_last 20 (conversationHistory t ++ [user_says text])) :: rest.
Proof.
  intros Hsel. unfold remote_selected in Hsel. apply andb_true_iff in Hsel as [Hmode Hkey].
  unfold sendMessage. run.
  cbn [mode apiKey model push set_conversationHistory conversationHistory].
  rewrite Hkey, !andb_true_r.
  destruct (String.eqb (mode t) "openai");
    [unfold _callOpenAI | cbn [orb] in Hmode; rewrite Hmode; unfold _callAnthropic];
    run; unfold fetch; cbn [fst snd];
    cbn [mode apiKey model push set_conversationHistory conversationHistory];
    (destruct (http (env w) (n_http w)); unfold throw; run;
     [ | | eexists _, _, []; cbn [trace http_done app]; reflexivity | ]);
    match goal with
    | |- context [_localInference text (?t1, ?w1)] =>
        destruct (proj2 (_localInference_grows text (t1, w1))) as [rest Hrest];
        destruct (_localInference text (t1, w1)) as [[reply|e] [t2 w2]]; run;
        cbn [fst snd] in Hrest; rewrite Hrest; cbn [trace http_done];
        rewrite <- app_assoc; eexists _, _, rest; reflexivity
    end.
Qed.

(** X30.  Switching to another session shows its messages and resets the
    engine: the history is emptied and the setup confirmation and the draft
    are dropped.  So the first remote request sent from the session
    switched to carries nothing of what the session shows: only the new
    message (after the system prompt, for the first provider).  Deleting a
    session that is not the active one leaves the engine and the messages
    shown as they are, and "new chat" on a session that has no user message
    yet only shows the welcome message again. *)
Theorem switched_session_starts_blank (session : Session.t) (text newId : string)
        (nowMs : Z) (p : ChatPanel) (t : LLMService) (w : World) :
  let s1 := onSwitch session (p, t) in
  snd s1 = clearHistory t /\
  messages (fst s1) = Session.messages session /\
  activeSessionId (fst s1) = Some (Session.id session) /\
  (remote_selected t = true -> trim text <> EmptyString -> isLoading p = false ->
   exists url mdl rest,
     trace (snd (snd (handleSend newId nowMs ((setInput text (fst s1), snd s1), w)))) =
     trace w ++
     EFetch url mdl
       ((if String.eqb (mode t) "openai"
         then [{| Message.role := "system"; Message.content := SYSTEM_PROMPT |}] else []) ++
        [user_says (trim text)]) :: rest) /\
  (forall deletedId,
     activeSessionId p <> Some deletedId ->
     snd (onDelete deletedId (p, t)) = t /\
     messages (fst (onDelete deletedId (p, t))) = messages p) /\
  (truthy (activeSessionId p) = true ->
   Forall (fun m => Message.role m <> "user") (messages p) ->
   onNewChat newId nowMs (p, t) = (setMessages (fun _ => [WELCOME_MESSAGE]) p, t)).
Proof.
  cbv zeta. cbn [onSwitch fst snd]. repeat (split; [reflexivity|]). split; [|split].
  - intros Hsel Htext Hload.
    rewrite handleSend_turn.
    + cbn [input setInput].
      destruct (sendMessage_remote_request (trim text) (clearHistory t) w Hsel)
        as (url & mdl & rest & Hreq).
      exists url, mdl, rest. exact Hreq.
    + cbn [input setInput isLoading setMessages setActiveSessionId]. rewrite Hload.
      destruct (trim text); [congruence|reflexivity].
  - intros deletedId Hother. unfold onDelete.
    destruct (activeSessionId p) as [active|] eqn:Hact.
    + destruct (String.eqb_spec active deletedId) as [->|_]; [congruence|].
      split; reflexivity.
    + split; reflexivity.
  - intros Hact Hno. unfold onNewChat. rewrite Hact.
    replace (existsb (fun m => String.eqb (Message.role m) "user") (messages p)) with false;
      [reflexivity|].
    symmetry. induction Hno as [|m l Hm _ IH]; [reflexivity|].
    cbn [existsb]. apply String.eqb_neq in Hm. now rewrite Hm.
Qed.

(** A session with two earlier messages is opened from an engine that
    held a history; the request of the next turn carries the system prompt
    and the new message. *)
Lemma switched_session_starts_blank_witness :
  let old := {| Session.id := "k0"; Session.title := "Agents";
                Session.messages := [WELCOME_MESSAGE; user_says "create a trending agent"];
                Session.createdAt := 1793600000000; Session.updatedAt := 1793600000000 |} in
  let busy := push "user" "setup" remote_engine in
  let s1 := onSwitch old (ChatPanel_mounted [old], busy) in
  exists url mdl rest,
    trace (snd (snd (handleSend "k1" 1793610000000
                                ((setInput "hello" (fst s1), snd s1), boot quiet_env)))) =
    EFetch url mdl [{| Message.role := "system"; Message.content := SYSTEM_PROMPT |};
                    user_says "hello"] :: rest.
Proof.
  cbv zeta.
  destruct (switched_session_starts_blank
              {| Session.id := "k0"; Session.title := "Agents";
                 Session.messages := [WELCOME_MESSAGE; user_says "create a trending agent"];
                 Session.createdAt := 1793600000000; Session.updatedAt := 1793600000000 |}
              "hello" "k1" 1793610000000
              (ChatPanel_mounted
                 [{| Session.id := "k0"; Session.title := "Agents";
                     Session.messages := [WELCOME_MESSAGE; user_says "create a trending agent"];
                     Session.createdAt := 1793600000000;
                     Session.updatedAt := 1793600000000 |}])
              (push "user" "setup" remote_engine) (boot quiet_env))
    as (_ & _ & _ & H & _).
  destruct H as (url & mdl & rest & H); [reflexivity|vm_compute; discriminate|reflexivity|].
  exists url, mdl, rest. exact H.
Defined.

(** ** What each operation can touch *)

Lemma same_table_refl {A : Type} (table : Db -> A) (w : World) : same_table table w w.
Proof. reflexivity. Qed.

Lemma same_table_trans {A : Type} (table : Db -> A) (a b c : World) :
  same_table table a b -> same_table table b c -> same_table table a c.
Proof. unfold same_table. congruence. Qed.

Lemma invoke_same_table {A B : Type} (table : Db -> A) (c : Command)
      (f : World -> Db -> B * Db) :
  (forall w d, table (snd (f w d)) = table d) -> keeps (same_table table) (invoke c f).
Proof.
  intros Hf w. unfold invoke, same_table. destruct (ipc (env w) (n_ipc w)); [reflexivity|].
  specialize (Hf w (db w)). now destruct (f w (db w)).
Qed.

Lemma executeCommand_same_table {A : Type} (table : Db -> A) (program : string)
      (args : list string) :
  keeps (same_table table) (executeCommand program args).
Proof. intros w. unfold executeCommand. now destruct (shell (env w) (n_shell w)). Qed.

Lemma startGateway_same_table {A : Type} (table : Db -> A) (port : N) :
  keeps (same_table table) (startGateway port).
Proof. intros w. reflexivity. Qed.

Lemma delay_same_table {A : Type} (table : Db -> A) (ms : N) :
  keeps (same_table table) (delay ms).
Proof. intros w. reflexivity. Qed.

Lemma read_same_table {A B : Type} (table : Db -> A) (f : World -> B) :
  keeps (same_table table) (read f).
Proof. intros w. reflexivity. Qed.

Lemma fetch_same_table {A : Type} (table : Db -> A) (url mdl : string)
      (messages : list Message.t) :
  keeps (same_table table) (fetch url mdl messages).
Proof. intros w. reflexivity. Qed.

Lemma read_no_shell {A : Type} (f : World -> A) : keeps no_shell (read f).
Proof. intros w. apply no_shell_refl. Qed.

#[local] Hint Resolve same_table_refl same_table_trans invoke_same_table
  executeCommand_same_table startGateway_same_table delay_same_table read_same_table
  fetch_same_table read_no_shell : footprint.
#[local] Hint Extern 1 (forall (w : World) (d : Db), _ = _) => intros; reflexivity : footprint.

(** Unfolds the operations down to the calls into the outside world. *)
Ltac to_primitives :=
  cbv delta [initialize switchToAPI switchToLocal sendMessage _callOpenAI _callAnthropic
             _localInference _executeSetup handleRun dispatch now
             loadAgents handleCreate handleDelete createDemoAgent
             loadData handleApproval SchedulePanel.loadData
             loadSettings handleSave handleRemoveKey handleRunDoctor handleSend
             setState state
             checkOpenClawInstalled checkNodeInstalled installOpenClaw runOpenClawOnboard
             openClawDoctor openClawCronAdd openClawCronList openClawAgentMessage
             createAgent listAgents deleteAgent addLog getLogs getSetting setSetting
             deleteSetting addApproval updateApproval getApprovals] beta.

(** Walks down an operation for one footprint. *)
Ltac frame :=
  repeat (footprint;
          try match goal with
              | |- forall _, _ => intro
              | |- keeps _ (liftE _) => apply keeps_liftE
              | |- keeps _ (liftW _) => apply keeps_liftW; [intros; exact I|]
              | |- keeps _ (promise_all3 _ _ _) =>
                  apply keeps_promise_all3; [solve [eauto 6 with footprint]| | |]
              | |- keeps _ (promise_all _ _) =>
                  apply keeps_promise_all; [solve [eauto 6 with footprint]| |]
              | |- keeps _ (match ?x with _ => _ end) => destruct x
              end).

Ltac by_footprint :=
  lazymatch goal with
  | |- ?R ?w (snd (snd (?m (?s, ?w)))) =>
      let H := fresh "H" in
      assert (H : keeps (both anything R) m) by (to_primitives; frame);
      exact (proj2 (H (s, w)))
  | |- ?R ?w (snd (?m ?w)) =>
      let H := fresh "H" in
      assert (H : keeps R m) by (to_primitives; frame);
      exact (H w)
  end.

Lemma _executeSetup_settings : keeps (same_table settings) _executeSetup.
Proof.
  unfold _executeSetup, checkNodeInstalled, installOpenClaw, runOpenClawOnboard, addLog.
  footprint.
Qed.

#[local] Hint Resolve _executeSetup_settings : footprint.

Lemma _localInference_settings (message : string) :
  keeps (both anything (same_table settings)) (_localInference message).
Proof. unfold _localInference, createAgent, addLog, addApproval. footprint. Qed.

#[local] Hint Resolve _localInference_settings : footprint.

Lemma sendMessage_settings (text : string) :
  keeps (both anything (same_table settings)) (sendMessage text).
Proof.
  unfold sendMessage, _callOpenAI, _callAnthropic. footprint.
  all: intros r; destruct r; footprint.
Qed.

Lemma handleSend_settings (newId : string) (nowMs : Z) :
  keeps (both anything (same_table settings)) (handleSend newId nowMs).
Proof.
  pose proof sendMessage_settings.
  unfold handleSend, setState, state. footprint.
Qed.

(** X29.  What each operation of the front-end can touch.  A remote request
    is made by a chat turn only.  A shell command is run only by a chat
    turn (the setup sequence), by the settings panel when it loads or runs
    the doctor, and by the shell wrappers.  The settings are written only
    by the two switches of the engine and by the settings panel's save and
    remove-key handlers; the agents only by the agent panel's create, demo
    and delete handlers and by a chat turn; the approvals only by a run, by
    a resolution and by a chat turn.  Every other operation, in any state
    and whatever the outside world answers, leaves them as they are. *)
Theorem operation_footprints (o : Op) (w : World) :
  (may_request o = false -> no_remote w (perform o w)) /\
  (may_run_shell o = false -> no_shell w (perform o w)) /\
  (may_write_settings o = false -> same_table settings w (perform o w)) /\
  (may_write_agents o = false -> same_table agents w (perform o w)) /\
  (may_write_approvals o = false -> same_table approvals w (perform o w)).
Proof.
  split; [|split; [|split; [|split]]]; intros Hmay;
    destruct o as [ t | provider apiKey model t | t | text t | agent | p | p | id name p
                  | type p | p | id status p | rows | s | s | s | s | newId nowMs s
                  | | | | | | port | name cronExpr message opts | | message ];
    try discriminate Hmay; clear Hmay; cbn [perform];
    first [ exact (proj2 (sendMessage_settings text (t, w)))
          | exact (proj2 (handleSend_settings newId nowMs (s, w)))
          | by_footprint ].
Qed.

(** Running an agent in a configured application leaves the provider
    settings alone. *)
Lemma operation_footprints_witness :
  settings (db (perform (HandleRun agent_y) (configured quiet_env))) =
  settings (db (configured quiet_env)).
Proof.
  apply (proj1 (proj2 (proj2 (operation_footprints (HandleRun agent_y) (configured quiet_env))))).
  reflexivity.
Defined.
